(** * NW.js automator for RPG Maker MV games: a Rocq model of [nwjs_automator.py]

    The script swaps the NW.js runtime bundled with a packaged game for a
    newer build.  Its class [NWJSAutomator] is a linear pipeline of filesystem
    steps.  This development embeds every method of the class as a program in
    a small state/exception/trace monad over an abstract operating-system
    interface, gives an in-memory filesystem that implements the interface,
    and proves the properties the specification states about the pipeline.

    The file has two slips of layout that keep Python from loading it as it
    stands: the [try] that ends [create_basic_index_html] is indented one
    step deeper than the statement before it, and the [try] in the loop of
    [copy_nwjs_to_game] has no handler.  The model reads the first as the
    next statement of the method, and has the body of the second without a
    handler. *)

From Stdlib Require Import List String Ascii Bool Arith Lia DecimalString.
Import ListNotations.
Local Open Scope list_scope.
Local Open Scope string_scope.

Set Implicit Arguments.
Set Warnings "-register-all".

(** ** Strings as Python uses them *)

Module Py.

(** The double-quote character; string literals below never contain it. *)
Definition dq : string := String (ascii_of_nat 34) EmptyString.

(** The line feed character, [chr(10)]. *)
Definition nl : string := String (ascii_of_nat 10) EmptyString.

(** [s.startswith(p)] *)
Definition startswith (p s : string) : bool := String.prefix p s.

(** [s.replace(' ', '-')]: every space becomes a hyphen. *)
Fixpoint replace_space_hyphen (s : string) : string :=
  match s with
  | EmptyString => EmptyString
  | String c s' =>
      String (if Ascii.eqb c " "%char then "-"%char else c)
             (replace_space_hyphen s')
  end.

(** [s.isascii()]: every character is below 128. *)
Fixpoint isascii (s : string) : bool :=
  match s with
  | EmptyString => true
  | String c s' => Nat.ltb (nat_of_ascii c) 128 && isascii s'
  end.

(** [c.lower()] on an ASCII character: the letters [A-Z] go to [a-z], the
    rest is left alone. *)
Definition lower_ascii (c : ascii) : ascii :=
  let n := nat_of_ascii c in
  if Nat.leb 65 n && Nat.leb n 90 then ascii_of_nat (n + 32) else c.

(** [s.lower()] for a string of ASCII characters.  On other strings
    Python's method does more: it lower-cases letters outside ASCII too, and
    may change the number of characters; the function below leaves every
    character outside [A-Z] as it is, so what is proved of it is proved of
    [s.lower()] where [isascii s] holds. *)
Fixpoint lower (s : string) : string :=
  match s with
  | EmptyString => EmptyString
  | String c s' => String (lower_ascii c) (lower s')
  end.

(** [str(n)] for a non-negative integer. *)
Definition str_of_nat (n : nat) : string :=
  NilZero.string_of_uint (Nat.to_uint n).

(** [sub in s] for strings. *)
Fixpoint contains (sub s : string) : bool :=
  String.prefix sub s
  || match s with
     | EmptyString => false
     | String _ s' => contains sub s'
     end.

(** A piece of text between double quotes. *)
Definition quoted (s : string) : string := dq ++ s ++ dq.

(** [sep.join(xs)] *)
Fixpoint join (sep : string) (xs : list string) : string :=
  match xs with
  | [] => ""
  | [x] => x
  | x :: rest => x ++ sep ++ join sep rest
  end.

(** [repr(xs)] of a list of plain strings, as an f-string prints it:
    ['a', 'b']. *)
Definition repr_list (xs : list string) : string :=
  "[" ++ join ", " (map (fun x => "'" ++ x ++ "'") xs) ++ "]".

End Py.

(** ** Paths

    A [pathlib.Path] is modelled by its list of components.  The empty list
    is the anchor itself: the path whose [name] is the empty string and whose
    [parent] is itself, as for [Path('.')] and [Path('/')].  Paths are
    compared component by component ([is_prefix], [related]); this tells
    where they lie in the filesystem as long as no component is [..]. *)

Definition path := list string.

(** [p / child], for a [child] that is one component. *)
Definition child (p : path) (c : string) : path := (p ++ [c])%list.
Notation "p // c" := (child p c) (at level 40, left associativity).

(** A character that [pathlib] does not take as part of a name: the
    separators [/] and [\], the colon of a drive, and NUL. *)
Definition is_separator (c : ascii) : bool :=
  let n := nat_of_ascii c in
  Nat.eqb n 0 || Nat.eqb n 47 || Nat.eqb n 58 || Nat.eqb n 92.

Fixpoint has_separator (s : string) : bool :=
  match s with
  | EmptyString => false
  | String c s' => is_separator c || has_separator s'
  end.

(** The string is the name of one component: it is not empty, it is neither
    [.] nor [..], and it holds no separator.  For such a string [p / s] is
    [p] with the component [s] at its end, which is what [child] builds.
    For other strings [pathlib] does something else: it splits [a/b] in two
    components, it drops an empty string or a [.], it lets an absolute
    string take the place of [p], and [..] names the directory above.  The
    names the script writes itself are all plain; the executable name and
    the version of the runtime come from the caller and may not be. *)
Definition plain_name (s : string) : bool :=
  negb (String.eqb s "" || String.eqb s "." || String.eqb s ".."
        || has_separator s).

(** No component of the path is [..]: a path with such a component names a
    place that its components do not spell out. *)
Definition without_dotdot (p : path) : bool :=
  forallb (fun c => negb (String.eqb c "..")) p.

(** [p.name] *)
Definition name (p : path) : string := last p "".

(** [p.parent] *)
Definition parent (p : path) : path := removelast p.

(** [str(p)] *)
Definition path_str (p : path) : string :=
  match p with
  | [] => "."
  | _ => Py.join "/" p
  end.

(** [p.suffix]: the last dot-separated extension of the final component. *)
Fixpoint last_dot_suffix (s : string) (acc : option string) : option string :=
  match s with
  | EmptyString => acc
  | String c s' =>
      if Ascii.eqb c "."%char
      then last_dot_suffix s' (Some (String c s'))
      else last_dot_suffix s' acc
  end.

Definition suffix (p : path) : string :=
  match name p with
  | EmptyString => ""
  | String c rest =>
      match last_dot_suffix rest None with
      | Some s => if String.eqb s "." then "" else s
      | None => ""
      end
  end.

(** [a] is [b] or an ancestor of [b]. *)
Fixpoint is_prefix (a b : path) : bool :=
  match a, b with
  | [], _ => true
  | x :: a', y :: b' => String.eqb x y && is_prefix a' b'
  | _ :: _, [] => false
  end.

(** Two paths are related when one lies on the other's branch. *)
Definition related (a b : path) : bool := is_prefix a b || is_prefix b a.

(** ** Exceptions *)

Inductive exn_kind :=
| FileNotFoundError | FileExistsError | PermissionError | IsADirectoryError
| NotADirectoryError | OSError | ShutilError
| ValueError | TypeError | JSONDecodeError | RequestException | ComError.

Record exn := Exn { exn_kind_of : exn_kind; exn_msg : string }.

(** [isinstance(e, requests.RequestException)] *)
Definition is_request_exception (e : exn) : bool :=
  match exn_kind_of e with RequestException => true | _ => false end.

(** [isinstance(e, json.JSONDecodeError)] *)
Definition is_json_decode_error (e : exn) : bool :=
  match exn_kind_of e with JSONDecodeError => true | _ => false end.

(** ** JSON documents as [json.load] returns them.

    A Python [dict] keeps its keys in insertion order, so an object is an
    association list.  A float is given by the text [repr] prints for it,
    so that the two zeros are [0.0] and [-0.0]. *)

Inductive json :=
| JNull
| JBool (b : bool)
| JInt (n : nat) (negative : bool)
| JFloat (repr : string)
| JString (s : string)
| JArray (items : list json)
| JObject (fields : list (string * json)).

(** [key in d] and [d[key]] *)
Fixpoint dict_get (key : string) (d : list (string * json)) : option json :=
  match d with
  | [] => None
  | (k, v) :: rest => if String.eqb k key then Some v else dict_get key rest
  end.

(** [d[key] = v]: an existing key keeps its place, a new key goes last. *)
Fixpoint dict_set (key : string) (v : json) (d : list (string * json))
  : list (string * json) :=
  match d with
  | [] => [(key, v)]
  | (k, old) :: rest =>
      if String.eqb k key then (k, v) :: rest
      else (k, old) :: dict_set key v rest
  end.

(** Python truth value of a decoded JSON value. *)
Definition truthy (v : json) : bool :=
  match v with
  | JNull => false
  | JBool b => b
  | JInt n _ => negb (Nat.eqb n 0)
  | JFloat r => negb (String.eqb r "0.0" || String.eqb r "-0.0")
  | JString s => negb (String.eqb s "")
  | JArray l => match l with [] => false | _ => true end
  | JObject l => match l with [] => false | _ => true end
  end.

(** ** Observable events of a run: log records and mutating system calls *)

Inductive level := INFO | WARNING | ERROR.

Inductive syscall :=
| WriteText (p : path) (content : string)
| WriteBytes (p : path) (content : string)
| Mkdir (p : path)
| Copy2 (src dst : path)
| Copytree (src dst : path) (dirs_exist_ok : bool)
| Unlink (p : path)
| Rmtree (p : path)
| Rename (src dst : path)
| Chmod (p : path)
| ExtractZip (archive dir : path)
| ExtractTar (archive dir : path)
| CreateShortcut (lnk target workdir : path) (description : string).

Inductive event :=
| Log (lvl : level) (msg : string)
| Sys (call : syscall) (failure : option exn).

(** ** The monad of the embedding

    A method of the class runs against a world [W] (the filesystem and
    whatever else the operating system holds).  It ends by returning a value
    or by raising an exception; either way it leaves a new world and the list
    of events it produced, oldest first.  An exception does not roll the
    world back. *)

Section Monad.

Variable W : Type.

Record outcome (A : Type) := Outcome {
  res : exn + A;
  final : W;
  trace : list event
}.

Definition M (A : Type) := W -> outcome A.

Definition ret {A} (a : A) : M A := fun w => Outcome (inr a) w [].

Definition raise {A} (e : exn) : M A := fun w => Outcome (inl e) w [].

Definition bind {A B} (m : M A) (k : A -> M B) : M B := fun w =>
  let o := m w in
  match res o with
  | inl e => Outcome (inl e) (final o) (trace o)
  | inr a =>
      let o' := k a (final o) in
      Outcome (res o') (final o') (trace o ++ trace o')%list
  end.

(** [try: m  except Exception as e: h e] *)
Definition try_except {A} (m : M A) (h : exn -> M A) : M A := fun w =>
  let o := m w in
  match res o with
  | inl e =>
      let o' := h e (final o) in
      Outcome (res o') (final o') (trace o ++ trace o')%list
  | inr a => o
  end.

(** [try: m  except SomeClass as e: h e]: other exceptions pass through. *)
Definition try_except_only {A} (catches : exn -> bool)
           (m : M A) (h : exn -> M A) : M A :=
  try_except m (fun e => if catches e then h e else raise e).

Definition emit (ev : event) : M unit := fun w => Outcome (inr tt) w [ev].

(** The outcome [o], with the events [t] in front of its own. *)
Definition prepend {A} (t : list event) (o : outcome A) : outcome A :=
  Outcome (res o) (final o) (t ++ trace o)%list.

(** [for x in xs: acc = body x acc] *)
Fixpoint for_each {A S} (xs : list A) (acc : S) (body : A -> S -> M S)
  : M S :=
  match xs with
  | [] => ret acc
  | x :: rest => bind (body x acc) (fun acc' => for_each rest acc' body)
  end.

End Monad.

Arguments ret {W A} a.
Arguments raise {W A} e.
Arguments bind {W A B} m k.
Arguments try_except {W A} m h.
Arguments try_except_only {W A} catches m h.
Arguments emit {W} ev.
Arguments prepend {W A} t o.
Arguments for_each {W A S} xs acc body.

Notation "x <- m ;; k" := (bind m (fun x => k))
  (at level 61, m at next level, right associativity).
Notation "m ;; k" := (bind m (fun _ => k))
  (at level 61, right associativity).

(** ** The operating system as the script sees it

    [sys.platform], [platform.machine()] and [Path.cwd()] are constants of a
    run.  Queries read the world; every mutating call goes through [os_run]
    and may fail.  [json_loads] and [json_dumps] stand for [json.load] and
    [json.dump(..., indent=2, ensure_ascii=False)]; [http_get] for
    [requests.get] followed by [raise_for_status] and reading the body. *)

Record OS (W : Type) := {
  sys_platform : string;
  platform_machine : string;
  cwd : path;
  WIN32_AVAILABLE : bool;
  os_exists : path -> W -> bool;
  os_is_dir : path -> W -> bool;
  os_is_file : path -> W -> bool;
  os_iterdir : path -> W -> exn + list string;
  os_read_text : path -> W -> exn + string;
  http_get : string -> W -> exn + string;
  os_run : syscall -> W -> option exn * W;
  json_loads : string -> exn + json;
  json_dumps : json -> string
}.

(** The constructor arguments of [NWJSAutomator]. *)
Record automator := {
  game_path : path;
  nwjs_path : option path;
  nwjs_version : string;
  use_sdk : bool;
  executable_name : string
}.

(** What [process_game] returns. *)
Inductive run_result :=
| Success (game_executable : path) (target : path)
| Failure (error : string).

(** ** The class [NWJSAutomator] *)

Section Automator.

Context {W : Type} (O : OS W) (self : automator).

(** *** Library calls lifted into the monad *)

Definition path_exists (p : path) : M W bool :=
  fun w => Outcome (inr (os_exists O p w)) w [].

Definition is_dir (p : path) : M W bool :=
  fun w => Outcome (inr (os_is_dir O p w)) w [].

Definition is_file (p : path) : M W bool :=
  fun w => Outcome (inr (os_is_file O p w)) w [].

(** [p.iterdir()]: the children of [p], as paths. *)
Definition iterdir (p : path) : M W (list path) :=
  fun w =>
    Outcome (match os_iterdir O p w with
             | inl e => inl e
             | inr names => inr (map (child p) names)
             end) w [].

Definition read_text (p : path) : M W string :=
  fun w => Outcome (os_read_text O p w) w [].

Definition requests_get (url : string) : M W string :=
  fun w => Outcome (http_get O url w) w [].

Definition json_load (text : string) : M W json :=
  match json_loads O text with
  | inl e => raise e
  | inr v => ret v
  end.

(** A mutating call: it is recorded in the trace with its result. *)
Definition sys (c : syscall) : M W unit :=
  fun w =>
    let (r, w') := os_run O c w in
    Outcome (match r with Some e => inl e | None => inr tt end) w' [Sys c r].

Definition logger_info (msg : string) : M W unit := emit (Log INFO msg).
Definition logger_warning (msg : string) : M W unit := emit (Log WARNING msg).
Definition logger_error (msg : string) : M W unit := emit (Log ERROR msg).

(** *** Attributes set by [__init__] *)

Definition nwjs_url_base : string := "https://dl.nwjs.io".

Definition keep_files : list string := ["package.json"; "www"; "index.html"].

Definition cleanup_files : list string :=
  [ "chromedriver"; "chromedriver.exe";
    "nw_100_percent.pak"; "nw_200_percent.pak";
    "ACKNOWLEDGEMENTS"; "AUTHORS"; "CHANGELOG.md"; "LICENSE"; "README.md";
    "credits.html";
    "payload"; "debug.log"; "pnacl";
    "notification_helper.exe";
    "chrome_100_percent.pak"; "chrome_200_percent.pak" ].

(** *** [validate_and_fix_package_json] *)

(** The message of the [TypeError] Python raises when the decoded manifest
    is not a [dict]: the test ['name' not in package_data], the lookup
    [package_data['name']] or the assignment fails. *)
Definition not_a_dict_message (v : json) : string :=
  match v with
  | JNull => "argument of type 'NoneType' is not iterable"
  | JBool _ => "argument of type 'bool' is not iterable"
  | JInt _ _ => "argument of type 'int' is not iterable"
  | JFloat _ => "argument of type 'float' is not iterable"
  | JString s =>
      if Py.contains "name" s
      then "string indices must be integers, not 'str'"
      else "'str' object does not support item assignment"
  | JArray _ => "list indices must be integers or slices, not str"
  | JObject _ => ""
  end.

(** ['name' not in package_data or not package_data['name']] *)
Definition name_missing_or_empty (d : list (string * json)) : bool :=
  match dict_get "name" d with
  | None => true
  | Some v => negb (truthy v)
  end.

(** [self.game_path.name.replace(' ', '-').lower()] *)
Definition derived_game_name : string :=
  Py.lower (Py.replace_space_hyphen (name (game_path self))).

Definition validate_and_fix_package_json (package_json_path : path)
  : M W unit :=
  logger_info "Validating package.json..." ;;
  package_data <-
    try_except
      (text <- read_text package_json_path ;; json_load text)
      (fun e =>
         if is_json_decode_error e
         then raise (Exn ValueError
                         ("Invalid JSON in package.json: " ++ exn_msg e))
         else raise (Exn ValueError
                         ("Could not read package.json: " ++ exn_msg e))) ;;
  match package_data with
  | JObject d =>
      if name_missing_or_empty d then
        let game_name := derived_game_name in
        let package_data' := JObject (dict_set "name" (JString game_name) d) in
        logger_info ("  Fixed: Added missing 'name' field: " ++ game_name) ;;
        try_except
          (sys (WriteText package_json_path (json_dumps O package_data')) ;;
           logger_info "✓ package.json fixes saved")
          (fun e =>
             logger_error ("Could not save package.json fixes: " ++ exn_msg e) ;;
             raise e)
      else ret tt
  | other => raise (Exn TypeError (not_a_dict_message other))
  end.

(** *** [validate_game_directory] *)

Definition validate_game_directory : M W unit :=
  found <- path_exists (game_path self) ;;
  if negb found then
    raise (Exn FileNotFoundError
               ("Game directory not found: " ++ path_str (game_path self)))
  else
  let package_json := game_path self // "package.json" in
  let www_folder := game_path self // "www" in
  has_manifest <- path_exists package_json ;;
  if negb has_manifest then
    raise (Exn FileNotFoundError
               "package.json not found. This may not be an RPG Maker MV game.")
  else
  has_www <- path_exists www_folder ;;
  if negb has_www then
    raise (Exn FileNotFoundError
               "www folder not found. This may not be an RPG Maker MV game.")
  else
  try_except
    (validate_and_fix_package_json package_json)
    (fun e =>
       logger_error ("Failed to validate/fix package.json: " ++ exn_msg e) ;;
       raise e) ;;
  logger_info ("✓ Valid RPG Maker MV game found at: "
               ++ path_str (game_path self)).

(** *** [get_nwjs_download_url] *)

Definition arch_map : list (string * string) :=
  [ ("AMD64", "x64"); ("x86_64", "x64"); ("arm64", "arm64");
    ("i386", "ia32"); ("x86", "ia32") ].

Definition platform_map : list (string * string) :=
  [ ("win32", "win"); ("darwin", "osx"); ("linux", "linux") ].

(** [d.get(key, default)] *)
Fixpoint map_get (d : list (string * string)) (key default : string)
  : string :=
  match d with
  | [] => default
  | (k, v) :: rest => if String.eqb k key then v else map_get rest key default
  end.

(** The URL and the file name, from the version, the flavor and the two
    values the interpreter reports about its host. *)
Definition nwjs_download_url (url_base version : string) (sdk : bool)
           (platform machine : string) : string * string :=
  let arch := map_get arch_map machine "x64" in
  let platform_name := map_get platform_map platform "win" in
  let version :=
    if Py.startswith "v" version then version else "v" ++ version in
  let filename :=
    if sdk
    then "nwjs-sdk-" ++ version ++ "-" ++ platform_name ++ "-" ++ arch
    else "nwjs-" ++ version ++ "-" ++ platform_name ++ "-" ++ arch in
  let filename :=
    if String.eqb platform_name "win"
    then filename ++ ".zip"
    else filename ++ ".tar.gz" in
  (url_base ++ "/" ++ version ++ "/" ++ filename, filename).

Definition get_nwjs_download_url : string * string :=
  nwjs_download_url nwjs_url_base (nwjs_version self) (use_sdk self)
                    (sys_platform O) (platform_machine O).

(** *** [download_nwjs]

    The archive goes to [output_dir / filename], where [filename] holds the
    version the caller gave; the path below is the one [pathlib] builds
    when that name is one path component ([plain_name]). *)

Definition download_nwjs (output_dir : path) : M W path :=
  let (url, filename) := get_nwjs_download_url in
  let output_path := output_dir // filename in
  logger_info ("Downloading NW.js from: " ++ url) ;;
  try_except_only is_request_exception
    (body <- requests_get url ;;
     sys (WriteBytes output_path body) ;;
     logger_info ("✓ Downloaded: " ++ path_str output_path) ;;
     ret output_path)
    (fun e =>
       logger_error ("Failed to download NW.js: " ++ exn_msg e) ;;
       raise e).

(** *** [extract_nwjs] *)

(** The loop that returns the first extracted directory whose lower-cased
    name contains [nwjs]. *)
Fixpoint find_nwjs_dir (items : list path) : M W path :=
  match items with
  | [] => raise (Exn FileNotFoundError
                     "Could not find extracted NW.js directory")
  | item :: rest =>
      d <- is_dir item ;;
      if d && Py.contains "nwjs" (Py.lower (name item)) then
        logger_info ("✓ NW.js extracted to: " ++ path_str item) ;;
        ret item
      else find_nwjs_dir rest
  end.

Definition extract_nwjs (archive_path extract_dir : path) : M W path :=
  logger_info ("Extracting NW.js archive: " ++ path_str archive_path) ;;
  (if String.eqb (suffix archive_path) ".zip" then
     sys (ExtractZip archive_path extract_dir)
   else if String.eqb (suffix archive_path) ".gz" then
     sys (ExtractTar archive_path extract_dir)
   else ret tt) ;;
  items <- iterdir extract_dir ;;
  find_nwjs_dir items.

(** *** [backup_game] *)

Definition backup_path : path :=
  parent (game_path self) // (name (game_path self) ++ "_backup").

Definition backup_game : M W path :=
  present <- path_exists backup_path ;;
  if present then
    logger_info ("Backup already exists: " ++ path_str backup_path) ;;
    ret backup_path
  else
    logger_info ("Creating backup: " ++ path_str backup_path) ;;
    sys (Copytree (game_path self) backup_path false) ;;
    logger_info "✓ Backup created successfully" ;;
    ret backup_path.

(** *** [save_important_files] *)

Definition holding_area : path :=
  parent (game_path self) // ("temp_" ++ name (game_path self) ++ "_files").

Definition critical_files : list string := ["package.json"; "www"].

Definition save_important_files : M W path :=
  logger_info
    "Saving important files (package.json, www folder, and index.html)..." ;;
  let temp_dir := holding_area in
  sys (Mkdir temp_dir) ;;
  let package_json := game_path self // "package.json" in
  has_manifest <- path_exists package_json ;;
  (if has_manifest then
     sys (Copy2 package_json (temp_dir // "package.json")) ;;
     logger_info "  Saved: package.json"
   else ret tt) ;;
  let www_folder := game_path self // "www" in
  has_www <- path_exists www_folder ;;
  (if has_www then
     sys (Copytree www_folder (temp_dir // "www") true) ;;
     logger_info "  Saved: www folder"
   else ret tt) ;;
  let index_html := game_path self // "index.html" in
  has_index <- path_exists index_html ;;
  (if has_index then
     sys (Copy2 index_html (temp_dir // "index.html")) ;;
     logger_info "  Saved: index.html"
   else
     logger_warning "  index.html not found - this may cause issues!") ;;
  missing_files <-
    for_each critical_files []
      (fun file missing =>
         saved <- path_exists (temp_dir // file) ;;
         if negb saved then ret (missing ++ [file])%list else ret missing) ;;
  match missing_files with
  | _ :: _ =>
      logger_error ("Critical files not saved to temp directory: "
                    ++ Py.repr_list missing_files) ;;
      logger_error "Aborting to prevent data loss!" ;;
      raise (Exn FileNotFoundError
                 ("Failed to backup critical files: "
                  ++ Py.repr_list missing_files))
  | [] =>
      logger_info ("✓ Important files saved to: " ++ path_str temp_dir) ;;
      ret temp_dir
  end.

(** *** [clean_game_directory] *)

(** The body of the loop over the children, with the counter it updates. *)
Definition remove_child (item : path) (removed_count : nat) : M W nat :=
  try_except
    (d <- is_dir item ;;
     (if d then sys (Rmtree item) else sys (Unlink item)) ;;
     logger_info ("  Removed: " ++ name item) ;;
     ret (S removed_count))
    (fun e =>
       logger_warning ("  Could not remove " ++ name item ++ ": " ++ exn_msg e) ;;
       ret removed_count).

Definition removed_report (removed_count : nat) : string :=
  "✓ Removed " ++ Py.str_of_nat removed_count ++ " items from game directory".

Definition clean_game_directory : M W unit :=
  logger_info "Cleaning game directory (deleting everything)..." ;;
  items <- iterdir (game_path self) ;;
  removed_count <- for_each items 0 remove_child ;;
  logger_info (removed_report removed_count).

(** *** [create_basic_index_html] *)

Definition libs_order : list string :=
  ["pixi.js"; "pixi-tilemap.js"; "pixi-picture.js"; "fpsmeter.js";
   "lz-string.js"].

Definition core_order : list string :=
  ["rpg_core.js"; "rpg_managers.js"; "rpg_objects.js"; "rpg_scenes.js";
   "rpg_sprites.js"; "rpg_windows.js"].

(** One script-inclusion tag, as the f-strings of the method build it. *)
Definition script_tag (src : string) : string :=
  "    <script type=" ++ Py.quoted "text/javascript"
  ++ " src=" ++ Py.quoted src ++ "></script>".

(** The lines of the template above the script tags. *)
Definition html_head : list string :=
  [ "<!DOCTYPE html>";
    "            <html>";
    "            <head>";
    "                <meta charset=" ++ Py.quoted "UTF-8" ++ ">";
    "                <meta name=" ++ Py.quoted "apple-mobile-web-app-capable"
      ++ " content=" ++ Py.quoted "yes" ++ ">";
    "                <meta name="
      ++ Py.quoted "apple-mobile-web-app-status-bar-style"
      ++ " content=" ++ Py.quoted "black-translucent" ++ ">";
    "                <meta name=" ++ Py.quoted "viewport"
      ++ " content=" ++ Py.quoted "user-scalable=no" ++ ">";
    "                <link rel=" ++ Py.quoted "icon"
      ++ " href=" ++ Py.quoted "icon/icon.png"
      ++ " type=" ++ Py.quoted "image/png" ++ ">";
    "                <title>RPG Game</title>";
    "                <style type=" ++ Py.quoted "text/css" ++ ">";
    "                    body {";
    "                        margin: 0;";
    "                        padding: 0;";
    "                    }";
    "                    canvas {";
    "                        cursor: default;";
    "                    }";
    "                </style>";
    "            </head>";
    "            <body style=" ++ Py.quoted "background-color: black" ++ ">" ].

(** The lines of the template below the script tags. *)
Definition html_foot : list string :=
  [ "            </body>"; "            </html>" ].

Definition basic_html (script_tags : list string) : string :=
  Py.join Py.nl html_head ++ Py.nl
  ++ "            " ++ Py.join Py.nl script_tags ++ Py.nl
  ++ Py.join Py.nl html_foot.

(** The three scanning loops share their shape: append a tag for every
    listed file that exists in [dir]. *)
Definition scan_scripts (dir : path) (src_prefix : string)
           (order : list string) (script_tags : list string)
  : M W (list string) :=
  for_each order script_tags
    (fun file tags =>
       found <- path_exists (dir // file) ;;
       if found
       then ret (tags ++ [script_tag (src_prefix ++ file)])%list
       else ret tags).

Definition detect_script_tags : M W (list string) :=
  let js_dir := game_path self // "www" // "js" in
  js_found <- path_exists js_dir ;;
  script_tags <-
    (if js_found then
       let libs_dir := js_dir // "libs" in
       libs_found <- path_exists libs_dir ;;
       tags <- (if libs_found
                then scan_scripts libs_dir "js/libs/" libs_order []
                else ret []) ;;
       tags <- scan_scripts js_dir "js/" core_order tags ;;
       scan_scripts js_dir "js/" ["plugins.js"; "main.js"] tags
     else ret []) ;;
  match script_tags with
  | [] => ret [script_tag "js/main.js"]
  | _ => ret script_tags
  end.

Definition create_basic_index_html : M W unit :=
  let index_html_path := game_path self // "index.html" in
  script_tags <- detect_script_tags ;;
  try_except
    (sys (WriteText index_html_path (basic_html script_tags)) ;;
     logger_info "  Created: basic index.html with detected JS files")
    (fun e =>
       logger_error ("Could not create basic index.html: " ++ exn_msg e) ;;
       raise e).

(** *** [restore_important_files] *)

Definition restore_important_files (temp_dir : path) : M W unit :=
  logger_info "Restoring important files..." ;;
  let temp_package_json := temp_dir // "package.json" in
  saved_manifest <- path_exists temp_package_json ;;
  (if saved_manifest then
     let dest_package_json := game_path self // "package.json" in
     present <- path_exists dest_package_json ;;
     (if present then sys (Unlink dest_package_json) else ret tt) ;;
     sys (Copy2 temp_package_json dest_package_json) ;;
     logger_info "  Restored: package.json"
   else ret tt) ;;
  let temp_www := temp_dir // "www" in
  saved_www <- path_exists temp_www ;;
  (if saved_www then
     let dest_www := game_path self // "www" in
     present <- path_exists dest_www ;;
     (if present then sys (Rmtree dest_www) else ret tt) ;;
     sys (Copytree temp_www dest_www false) ;;
     logger_info "  Restored: www folder"
   else ret tt) ;;
  let temp_index_html := temp_dir // "index.html" in
  saved_index <- path_exists temp_index_html ;;
  (if saved_index then
     let dest_index_html := game_path self // "index.html" in
     present <- path_exists dest_index_html ;;
     (if present then sys (Unlink dest_index_html) else ret tt) ;;
     sys (Copy2 temp_index_html dest_index_html) ;;
     logger_info "  Restored: index.html"
   else
     let www_index_html := game_path self // "www" // "index.html" in
     nested <- path_exists www_index_html ;;
     if nested then
       sys (Copy2 www_index_html (game_path self // "index.html")) ;;
       logger_info "  Copied index.html from www folder to root"
     else
       logger_warning
         "  index.html not found in backup, creating a basic one..." ;;
       create_basic_index_html) ;;
  let package_json_path := game_path self // "package.json" in
  has_manifest <- path_exists package_json_path ;;
  (if has_manifest
   then validate_and_fix_package_json package_json_path
   else ret tt) ;;
  try_except
    (sys (Rmtree temp_dir) ;;
     logger_info "✓ Cleaned up temporary files")
    (fun e =>
       logger_warning ("Could not clean up temp directory: " ++ exn_msg e)).

(** *** [copy_nwjs_to_game] *)

(** [item.name in ['nw', 'nwjs']] *)
Definition is_runtime_binary (n : string) : bool :=
  String.eqb n "nw" || String.eqb n "nwjs".

Definition is_win32 : bool := String.eqb (sys_platform O) "win32".

(** The loop body.  In the source it is the body of a [try] whose handler
    is not in the file: what follows a copy that raised is not written
    there.  The model has the body alone, so its run ends at the first call
    that raises; up to that call it is the run of the source. *)
Definition copy_item (item : path) (copied_count : nat) : M W nat :=
  let dest_path := game_path self // name item in
  d <- is_dir item ;;
  (if d then
     sys (Copytree item dest_path true)
   else
     sys (Copy2 item dest_path) ;;
     if negb is_win32 && is_runtime_binary (name item)
     then sys (Chmod dest_path)
     else ret tt) ;;
  logger_info ("  Copied: " ++ name item) ;;
  ret (S copied_count).

Definition copy_nwjs_to_game (nwjs_dir : path) : M W unit :=
  logger_info ("Copying NW.js runtime files from " ++ path_str nwjs_dir
               ++ " to " ++ path_str (game_path self) ++ "...") ;;
  items <- iterdir nwjs_dir ;;
  copied_count <- for_each items 0 copy_item ;;
  logger_info ("✓ Copied " ++ Py.str_of_nat copied_count
               ++ " NW.js runtime files to game directory").

(** *** [rename_executable]

    The destination is [self.game_path / game_exe_name].  The name comes
    from the caller; the path below is the one [pathlib] builds when that
    name is one path component ([plain_name]). *)

Definition possible_executables : list string :=
  if String.eqb (sys_platform O) "win32" then ["nw.exe"; "nwjs.exe"]
  else if String.eqb (sys_platform O) "darwin" then ["nwjs"; "nw"]
  else ["nw"; "nwjs"].

Definition game_exe_name : string :=
  if String.eqb (sys_platform O) "win32"
  then executable_name self ++ ".exe"
  else executable_name self.

(** The search loop: the first candidate that exists ends it. *)
Fixpoint find_executable (names : list string) : M W (option path) :=
  match names with
  | [] => ret None
  | exe_name :: rest =>
      let potential_exe := game_path self // exe_name in
      found <- path_exists potential_exe ;;
      if found then ret (Some potential_exe) else find_executable rest
  end.

Definition rename_executable : M W (option path) :=
  logger_info ("Renaming NW.js executable to " ++ executable_name self
               ++ "...") ;;
  nw_exe <- find_executable possible_executables ;;
  match nw_exe with
  | None =>
      logger_error ("NW.js executable not found. Looked for: "
                    ++ Py.repr_list possible_executables) ;;
      ret None
  | Some nw_exe =>
      let game_exe := game_path self // game_exe_name in
      try_except
        (present <- path_exists game_exe ;;
         (if present then sys (Unlink game_exe) else ret tt) ;;
         sys (Rename nw_exe game_exe) ;;
         (if negb is_win32 then sys (Chmod game_exe) else ret tt) ;;
         logger_info ("✓ Renamed " ++ name nw_exe ++ " to " ++ name game_exe) ;;
         ret (Some game_exe))
        (fun e =>
           logger_error ("Could not rename executable: " ++ exn_msg e) ;;
           ret (Some nw_exe))
  end.

(** *** [cleanup_nwjs_files] *)

Definition remove_cleanup_file (file_name : string) (removed_count : nat)
  : M W nat :=
  let file_path := game_path self // file_name in
  present <- path_exists file_path ;;
  if present then
    try_except
      (d <- is_dir file_path ;;
       (if d then sys (Rmtree file_path) else sys (Unlink file_path)) ;;
       logger_info ("  Removed: " ++ file_name) ;;
       ret (S removed_count))
      (fun e =>
         logger_warning ("  Could not remove " ++ file_name ++ ": "
                         ++ exn_msg e) ;;
         ret removed_count)
  else ret removed_count.

(** [locale_file.name not in ['en-US.pak', 'en-US.pak.info']] *)
Definition is_foreign_locale (n : string) : bool :=
  negb (String.eqb n "en-US.pak" || String.eqb n "en-US.pak.info").

(** The loop over the locale files sits inside one [try]: the first failing
    removal ends the loop.  The counter keeps the value it had then, so the
    loop hands back the counter together with the exception that ended it,
    if any. *)
Fixpoint prune_locales (items : list path) (removed_count : nat)
  : M W (nat * option exn) :=
  match items with
  | [] => ret (removed_count, None)
  | locale_file :: rest =>
      if is_foreign_locale (name locale_file) then
        f <- is_file locale_file ;;
        if f then
          failure <- try_except (sys (Unlink locale_file) ;; ret None)
                                (fun e => ret (Some e)) ;;
          match failure with
          | Some e => ret (removed_count, Some e)
          | None =>
              logger_info ("  Removed: locales/" ++ name locale_file) ;;
              prune_locales rest (S removed_count)
          end
        else prune_locales rest removed_count
      else prune_locales rest removed_count
  end.

Definition cleanup_nwjs_files : M W unit :=
  logger_info "Cleaning up unnecessary NW.js files..." ;;
  removed_count <- for_each cleanup_files 0 remove_cleanup_file ;;
  let locales_dir := game_path self // "locales" in
  present <- path_exists locales_dir ;;
  d <- is_dir locales_dir ;;
  removed_count <-
    (if present && d then
       listing <- try_except (items <- iterdir locales_dir ;; ret (inr items))
                             (fun e => ret (inl e)) ;;
       ended <- match listing with
                | inl e => ret (removed_count, Some e)
                | inr items => prune_locales items removed_count
                end ;;
       match ended with
       | (n, Some e) =>
           logger_warning ("  Could not clean locales directory: "
                           ++ exn_msg e) ;;
           ret n
       | (n, None) => ret n
       end
     else ret removed_count) ;;
  if Nat.ltb 0 removed_count
  then logger_info ("✓ Removed " ++ Py.str_of_nat removed_count
                    ++ " unnecessary files")
  else logger_info "✓ No unnecessary files to remove".

(** *** [setup_nwjs] *)

Definition scratch_dir : path := cwd O // "temp_nwjs".

Definition download_and_extract : M W path :=
  let temp_dir := scratch_dir in
  sys (Mkdir temp_dir) ;;
  try_except
    (archive_path <- download_nwjs temp_dir ;;
     nwjs_dir <- extract_nwjs archive_path temp_dir ;;
     logger_info ("✓ NW.js setup complete: " ++ path_str nwjs_dir) ;;
     ret nwjs_dir)
    (fun e =>
       logger_error ("Failed to setup NW.js: " ++ exn_msg e) ;;
       raise e).

Definition setup_nwjs : M W path :=
  match nwjs_path self with
  | Some p =>
      present <- path_exists p ;;
      if present then
        logger_info ("Using existing NW.js: " ++ path_str p) ;;
        ret p
      else download_and_extract
  | None => download_and_extract
  end.

(** *** [cleanup_temp_files] *)

Definition cleanup_temp_files : M W unit :=
  let temp_dir := scratch_dir in
  present <- path_exists temp_dir ;;
  if present then
    try_except
      (sys (Rmtree temp_dir) ;;
       logger_info "✓ Cleaned up temporary NW.js files")
      (fun e =>
         logger_warning ("Could not clean up temporary files: " ++ exn_msg e))
  else ret tt.

(** *** [create_shortcut_windows]

    The COM calls that build and save the shortcut are one system call of
    the model.  The shortcut is [self.game_path / (game_name + '.lnk')]; as
    for the executable, the path below is the one [pathlib] builds when
    that name is one path component ([plain_name]). *)

Definition create_shortcut_windows (game_exe : path) : M W (option path) :=
  if negb (WIN32_AVAILABLE O) then ret None
  else
    let game_name := executable_name self in
    let shortcut_path := game_path self // (game_name ++ ".lnk") in
    try_except
      (sys (CreateShortcut shortcut_path game_exe (game_path self)
                           ("Launch " ++ game_name)) ;;
       logger_info ("✓ Created Windows shortcut: " ++ path_str shortcut_path) ;;
       ret (Some shortcut_path))
      (fun e =>
         logger_warning ("Could not create Windows shortcut: " ++ exn_msg e) ;;
         ret None).

(** *** [process_game] *)

(** The body of the [try] block. *)
Definition process_steps (create_backup : bool) : M W run_result :=
  validate_game_directory ;;
  (if create_backup then backup_game ;; ret tt else ret tt) ;;
  nwjs_dir <- setup_nwjs ;;
  temp_dir <- save_important_files ;;
  clean_game_directory ;;
  copy_nwjs_to_game nwjs_dir ;;
  restore_important_files temp_dir ;;
  game_exe <- rename_executable ;;
  cleanup_nwjs_files ;;
  match game_exe with
  | None =>
      raise (Exn FileNotFoundError "Could not create game executable")
  | Some game_exe =>
      (if is_win32
       then create_shortcut_windows game_exe ;; ret tt
       else ret tt) ;;
      cleanup_temp_files ;;
      logger_info "🎉 NW.js update completed successfully!" ;;
      logger_info ("🚀 Launch the game using: " ++ path_str game_exe) ;;
      logger_info "💡 Type 'process.versions' in the game console to check your new NW.js version!" ;;
      ret (Success game_exe (game_path self))
  end.

Definition process_game (create_backup : bool) : M W run_result :=
  logger_info ("Starting NW.js update for: " ++ path_str (game_path self)) ;;
  try_except
    (process_steps create_backup)
    (fun e =>
       logger_error ("❌ Update failed: " ++ exn_msg e) ;;
       ret (Failure (exn_msg e))).

End Automator.

(** ** An in-memory filesystem

    Directories keep their entries in listing order.  Names are compared
    character by character, as on a case-sensitive filesystem, and any
    string can be the name of an entry. *)

Module Sim.

Inductive node :=
| File (data : string)
| Dir (entries : list (string * node)).

Definition entries_of (n : node) : option (list (string * node)) :=
  match n with Dir es => Some es | File _ => None end.

Fixpoint assoc (c : string) (es : list (string * node)) : option node :=
  match es with
  | [] => None
  | (k, v) :: rest => if String.eqb k c then Some v else assoc c rest
  end.

Definition remove_key (c : string) (es : list (string * node))
  : list (string * node) :=
  filter (fun kv => negb (String.eqb (fst kv) c)) es.

(** Put [v] in the slot named [c], or empty the slot when [v] is [None].
    An entry that is replaced keeps its place in the listing. *)
Fixpoint slot_set (c : string) (v : option node) (es : list (string * node))
  : list (string * node) :=
  match es with
  | [] => match v with Some x => [(c, x)] | None => [] end
  | (k, old) :: rest =>
      if String.eqb k c then
        match v with
        | Some x => (k, x) :: remove_key c rest
        | None => remove_key c rest
        end
      else (k, old) :: slot_set c v rest
  end.

(** The node at path [p] below [n]. *)
Fixpoint lookup (p : path) (n : node) : option node :=
  match p with
  | [] => Some n
  | c :: p' =>
      match n with
      | Dir es =>
          match assoc c es with
          | Some m => lookup p' m
          | None => None
          end
      | File _ => None
      end
  end.

(** Rewrite the slot at path [p]: [f] receives what is there and says what
    shall be there.  [None]: the directory that holds the slot is missing. *)
Fixpoint alter (p : path) (f : option node -> option node) (n : node)
  : option node :=
  match p with
  | [] => f (Some n)
  | c :: p' =>
      match n with
      | Dir es =>
          match p' with
          | [] => Some (Dir (slot_set c (f (assoc c es)) es))
          | _ :: _ =>
              match assoc c es with
              | Some m =>
                  match alter p' f m with
                  | Some m' => Some (Dir (slot_set c (Some m') es))
                  | None => None
                  end
              | None => None
              end
          end
      | File _ => None
      end
  end.

Definition put (p : path) (x : node) (n : node) : option node :=
  alter p (fun _ => Some x) n.

Definition delete (p : path) (n : node) : option node :=
  match p with
  | [] => None
  | _ :: _ => alter p (fun _ => None) n
  end.

(** [os.makedirs(p, exist_ok=True)]: [None] when a file is in the way. *)
Fixpoint makedirs (p : path) (n : node) : option node :=
  match n with
  | File _ => None
  | Dir es =>
      match p with
      | [] => Some n
      | c :: p' =>
          let sub := match assoc c es with Some m => m | None => Dir [] end in
          match makedirs p' sub with
          | Some m' => Some (Dir (slot_set c (Some m') es))
          | None => None
          end
      end
  end.

(** Copying a tree over what may be there already, as [shutil.copytree]
    with [dirs_exist_ok=True] and [shutil.copy2] do it: a directory merges
    into a directory, a file replaces a file, a file copied onto a directory
    goes inside it.  An entry that cannot be copied is skipped; the flag
    reports that some entry was. *)
Fixpoint copy_over (src : node) (nm : string) (old : option node)
  : option node * bool :=
  match src with
  | File d =>
      match old with
      | Some (Dir es) =>
          match assoc nm es with
          | Some (Dir _) => (old, true)
          | _ => (Some (Dir (slot_set nm (Some (File d)) es)), false)
          end
      | _ => (Some (File d), false)
      end
  | Dir src_es =>
      match old with
      | Some (File _) => (old, true)
      | _ =>
          let dst_es := match old with Some (Dir es) => es | _ => [] end in
          let step :=
            fix step (l : list (string * node))
                     (acc : list (string * node) * bool) :=
              match l with
              | [] => acc
              | (k, c) :: rest =>
                  let (v, bad) := copy_over c k (assoc k (fst acc)) in
                  step rest (slot_set k v (fst acc), snd acc || bad)
              end in
          let (es', bad) := step src_es (dst_es, false) in
          (Some (Dir es'), bad)
      end
  end.

(** *** The world: a tree, the paths that refuse changes, the network and
    what each archive unpacks to *)

Record world := {
  root : node;
  locked : list path;
  network : list (string * string);
  archives : list (string * list (string * node))
}.

Definition with_root (r : node) (w : world) : world :=
  {| root := r; locked := locked w; network := network w;
     archives := archives w |}.

(** A change at [p] is refused when [p] is locked or holds a locked path. *)
Definition frozen (w : world) (p : path) : bool :=
  existsb (is_prefix p) (locked w).

Fixpoint path_eqb (a b : path) : bool :=
  match a, b with
  | [], [] => true
  | x :: a', y :: b' => String.eqb x y && path_eqb a' b'
  | _, _ => false
  end.

Fixpoint table_get {A} (key : string) (t : list (string * A)) : option A :=
  match t with
  | [] => None
  | (k, v) :: rest => if String.eqb k key then Some v else table_get key rest
  end.

(** *** Queries *)

Definition exists_ (p : path) (w : world) : bool :=
  match lookup p (root w) with Some _ => true | None => false end.

Definition is_dir_ (p : path) (w : world) : bool :=
  match lookup p (root w) with Some (Dir _) => true | _ => false end.

Definition is_file_ (p : path) (w : world) : bool :=
  match lookup p (root w) with Some (File _) => true | _ => false end.

Definition no_such (p : path) : exn :=
  Exn FileNotFoundError ("No such file or directory: " ++ path_str p).

Definition iterdir_ (p : path) (w : world) : exn + list string :=
  match lookup p (root w) with
  | Some (Dir es) => inr (map fst es)
  | Some (File _) =>
      inl (Exn NotADirectoryError ("Not a directory: " ++ path_str p))
  | None => inl (no_such p)
  end.

Definition read_text_ (p : path) (w : world) : exn + string :=
  match lookup p (root w) with
  | Some (File d) => inr d
  | Some (Dir _) =>
      inl (Exn IsADirectoryError ("Is a directory: " ++ path_str p))
  | None => inl (no_such p)
  end.

Definition http_get_ (url : string) (w : world) : exn + string :=
  match table_get url (network w) with
  | Some body => inr body
  | None => inl (Exn RequestException ("404 Client Error for url: " ++ url))
  end.

(** *** Mutating calls *)

Definition fails (k : exn_kind) (msg : string) (p : path) (w : world)
  : option exn * world :=
  (Some (Exn k (msg ++ ": " ++ path_str p)), w).

Definition done (r : node) (w : world) : option exn * world :=
  (None, with_root r w).

Definition write_file (p : path) (data : string) (w : world)
  : option exn * world :=
  if frozen w p then fails PermissionError "Permission denied" p w
  else
    match lookup p (root w) with
    | Some (Dir _) => fails IsADirectoryError "Is a directory" p w
    | _ =>
        match put p (File data) (root w) with
        | Some r => done r w
        | None => (Some (no_such p), w)
        end
    end.

(** Lay the entries [es] over the directory at [dst], creating it and its
    ancestors when they are missing. *)
Definition lay_over (es : list (string * node)) (dst : path) (w : world)
  : option exn * world :=
  match makedirs (parent dst) (root w) with
  | None => fails FileExistsError "File exists" (parent dst) w
  | Some r1 =>
      match copy_over (Dir es) (name dst) (lookup dst r1) with
      | (Some v, bad) =>
          match put dst v r1 with
          | Some r2 =>
              if bad
              then (Some (Exn ShutilError
                              ("some entries could not be copied to "
                               ++ path_str dst)),
                    with_root r2 w)
              else done r2 w
          | None => (Some (no_such dst), w)
          end
      | (None, _) => (Some (no_such dst), w)
      end
  end.

Definition run (platform : string) (c : syscall) (w : world)
  : option exn * world :=
  match c with
  | WriteText p data => write_file p data w
  | WriteBytes p data => write_file p data w
  | Mkdir p =>
      match lookup p (root w) with
      | Some (Dir _) => (None, w)
      | Some (File _) => fails FileExistsError "File exists" p w
      | None =>
          match put p (Dir []) (root w) with
          | Some r => done r w
          | None => (Some (no_such p), w)
          end
      end
  | Copy2 src dst =>
      match lookup src (root w) with
      | Some (File d) =>
          let target :=
            match lookup dst (root w) with
            | Some (Dir _) => dst // name src
            | _ => dst
            end in
          if path_eqb src target
          then fails ShutilError "are the same file" src w
          else write_file target d w
      | Some (Dir _) => fails IsADirectoryError "Is a directory" src w
      | None => (Some (no_such src), w)
      end
  | Copytree src dst dirs_exist_ok =>
      match lookup src (root w) with
      | Some (Dir es) =>
          if frozen w dst then fails PermissionError "Permission denied" dst w
          else
            match lookup dst (root w) with
            | Some (File _) => fails FileExistsError "File exists" dst w
            | Some (Dir _) =>
                if dirs_exist_ok then lay_over es dst w
                else fails FileExistsError "File exists" dst w
            | None => lay_over es dst w
            end
      | Some (File _) => fails NotADirectoryError "Not a directory" src w
      | None => (Some (no_such src), w)
      end
  | Unlink p =>
      match lookup p (root w) with
      | Some (File _) =>
          if frozen w p then fails PermissionError "Permission denied" p w
          else
            match delete p (root w) with
            | Some r => done r w
            | None => (Some (no_such p), w)
            end
      | Some (Dir _) => fails IsADirectoryError "Is a directory" p w
      | None => (Some (no_such p), w)
      end
  | Rmtree p =>
      match lookup p (root w) with
      | Some (Dir _) =>
          if frozen w p then fails PermissionError "Permission denied" p w
          else
            match delete p (root w) with
            | Some r => done r w
            | None => fails OSError "Cannot remove" p w
            end
      | Some (File _) => fails NotADirectoryError "Not a directory" p w
      | None => (Some (no_such p), w)
      end
  | Rename src dst =>
      match lookup src (root w) with
      | None => (Some (no_such src), w)
      | Some n =>
          if frozen w src || frozen w dst
          then fails PermissionError "Permission denied" src w
          else if path_eqb src dst then (None, w)
          else if is_prefix src dst
          then fails OSError "Invalid argument" dst w
          else
            let move :=
              match delete src (root w) with
              | Some r1 =>
                  match put dst n r1 with
                  | Some r2 => done r2 w
                  | None => (Some (no_such dst), w)
                  end
              | None => (Some (no_such src), w)
              end in
            match lookup dst (root w) with
            | None => move
            | Some d =>
                if String.eqb platform "win32"
                then fails FileExistsError "File exists" dst w
                else
                  match n, d with
                  | File _, File _ => move
                  | Dir _, Dir [] => move
                  | Dir _, Dir (_ :: _) =>
                      fails OSError "Directory not empty" dst w
                  | File _, Dir _ =>
                      fails IsADirectoryError "Is a directory" dst w
                  | Dir _, File _ =>
                      fails NotADirectoryError "Not a directory" dst w
                  end
            end
      end
  | Chmod p =>
      match lookup p (root w) with
      | Some _ =>
          if frozen w p then fails PermissionError "Permission denied" p w
          else (None, w)
      | None => (Some (no_such p), w)
      end
  | ExtractZip archive dir | ExtractTar archive dir =>
      match lookup archive (root w) with
      | Some (File data) =>
          match table_get data (archives w) with
          | Some es => lay_over es dir w
          | None => fails OSError "Not an archive" archive w
          end
      | _ => (Some (no_such archive), w)
      end
  | CreateShortcut lnk target workdir description =>
      match put lnk (File ("shortcut to " ++ path_str target)) (root w) with
      | Some r => done r w
      | None => fails ComError "Unable to save shortcut" lnk w
      end
  end.

End Sim.

(** ** A JSON codec for the in-memory world

    [dumps] prints as [json.dump(..., indent=2, ensure_ascii=False)] does;
    [loads] reads the documents the examples use.  It is not [json.load] in
    full: it refuses [\u] escapes beyond ASCII, and a number with a fraction
    or an exponent keeps the text it was written with, where Python keeps
    its value (so [0.00] is read as a float other than [0.0]).  The codec
    serves the runs on concrete worlds; the theorems about the methods leave
    the codec open, as [json_loads] and [json_dumps] of the interface or as
    the arguments of [sim_os_with]. *)

Module Json.

Definition hex_digit (n : nat) : ascii :=
  if Nat.ltb n 10 then ascii_of_nat (48 + n) else ascii_of_nat (87 + n).

(** The escapes of [json.dumps] with [ensure_ascii=False]. *)
Fixpoint escape (s : string) : string :=
  match s with
  | EmptyString => EmptyString
  | String c rest =>
      let n := nat_of_ascii c in
      (if Nat.eqb n 34 then "\" ++ Py.dq
       else if Nat.eqb n 92 then "\\"
       else if Nat.eqb n 10 then "\n"
       else if Nat.eqb n 13 then "\r"
       else if Nat.eqb n 9 then "\t"
       else if Nat.eqb n 8 then "\b"
       else if Nat.eqb n 12 then "\f"
       else if Nat.ltb n 32
       then "\u00" ++ String (hex_digit (n / 16))
                             (String (hex_digit (n mod 16)) EmptyString)
       else String c EmptyString)
      ++ escape rest
  end.

Fixpoint pad (lvl : nat) : string :=
  match lvl with
  | 0 => ""
  | S l => "  " ++ pad l
  end.

Fixpoint dumps_at (lvl : nat) (v : json) : string :=
  match v with
  | JNull => "null"
  | JBool true => "true"
  | JBool false => "false"
  | JInt n negative => (if negative then "-" else "") ++ Py.str_of_nat n
  | JFloat repr => repr
  | JString s => Py.quoted (escape s)
  | JArray [] => "[]"
  | JArray items =>
      "[" ++ Py.nl
      ++ Py.join ("," ++ Py.nl)
           (map (fun x => pad (S lvl) ++ dumps_at (S lvl) x) items)
      ++ Py.nl ++ pad lvl ++ "]"
  | JObject [] => "{}"
  | JObject fields =>
      "{" ++ Py.nl
      ++ Py.join ("," ++ Py.nl)
           (map (fun kv : string * json =>
                   let (k, x) := kv in
                   pad (S lvl) ++ Py.quoted (escape k) ++ ": "
                   ++ dumps_at (S lvl) x)
                fields)
      ++ Py.nl ++ pad lvl ++ "}"
  end.

Definition dumps (v : json) : string := dumps_at 0 v.

Definition is_space (c : ascii) : bool :=
  let n := nat_of_ascii c in
  Nat.eqb n 32 || Nat.eqb n 10 || Nat.eqb n 13 || Nat.eqb n 9.

Fixpoint skip_ws (s : string) : string :=
  match s with
  | String c rest => if is_space c then skip_ws rest else s
  | EmptyString => s
  end.

Definition is_digit (c : ascii) : bool :=
  let n := nat_of_ascii c in Nat.leb 48 n && Nat.leb n 57.

Definition is_number_char (c : ascii) : bool :=
  is_digit c
  || Ascii.eqb c "."%char || Ascii.eqb c "e"%char || Ascii.eqb c "E"%char
  || Ascii.eqb c "+"%char || Ascii.eqb c "-"%char.

(** The longest run of number characters, and what follows it. *)
Fixpoint span_number (s : string) : string * string :=
  match s with
  | String c rest =>
      if is_number_char c
      then let (a, b) := span_number rest in (String c a, b)
      else ("", s)
  | EmptyString => ("", "")
  end.

Fixpoint all_digits (s : string) : bool :=
  match s with
  | EmptyString => true
  | String c rest => is_digit c && all_digits rest
  end.

Fixpoint digits_value (s : string) (acc : nat) : nat :=
  match s with
  | EmptyString => acc
  | String c rest => digits_value rest (10 * acc + (nat_of_ascii c - 48))
  end.

Definition number_of (text : string) : option json :=
  match text with
  | EmptyString => None
  | String c rest =>
      if Ascii.eqb c "-"%char then
        match rest with
        | EmptyString => None
        | _ => if all_digits rest
               then Some (JInt (digits_value rest 0) true)
               else Some (JFloat text)
        end
      else if all_digits text then Some (JInt (digits_value text 0) false)
      else Some (JFloat text)
  end.

(** The characters of a string literal after its opening quote. *)
Fixpoint string_body (s : string) : option (string * string) :=
  match s with
  | EmptyString => None
  | String c rest =>
      if Nat.eqb (nat_of_ascii c) 34 then Some ("", rest)
      else if Nat.eqb (nat_of_ascii c) 92 then
        match rest with
        | String e rest' =>
            let plain (x : ascii) :=
              match string_body rest' with
              | Some (body, tail) => Some (String x body, tail)
              | None => None
              end in
            if Nat.eqb (nat_of_ascii e) 34 then plain e
            else if Ascii.eqb e "\"%char then plain e
            else if Ascii.eqb e "/"%char then plain e
            else if Ascii.eqb e "n"%char then plain (ascii_of_nat 10)
            else if Ascii.eqb e "r"%char then plain (ascii_of_nat 13)
            else if Ascii.eqb e "t"%char then plain (ascii_of_nat 9)
            else if Ascii.eqb e "b"%char then plain (ascii_of_nat 8)
            else if Ascii.eqb e "f"%char then plain (ascii_of_nat 12)
            else None
        | EmptyString => None
        end
      else
        match string_body rest with
        | Some (body, tail) => Some (String c body, tail)
        | None => None
        end
  end.

Definition strip_prefix (p s : string) : option string :=
  if String.prefix p s
  then Some (String.substring (String.length p)
                              (String.length s - String.length p) s)
  else None.

Fixpoint value (fuel : nat) (s : string) : option (json * string) :=
  match fuel with
  | 0 => None
  | S fuel' =>
      match skip_ws s with
      | EmptyString => None
      | String c rest as s1 =>
          if Ascii.eqb c "{"%char then
            match skip_ws rest with
            | String "}" tail => Some (JObject [], tail)
            | _ => fields fuel' rest []
            end
          else if Ascii.eqb c "["%char then
            match skip_ws rest with
            | String "]" tail => Some (JArray [], tail)
            | _ => items fuel' rest []
            end
          else if Nat.eqb (nat_of_ascii c) 34 then
            match string_body rest with
            | Some (body, tail) => Some (JString body, tail)
            | None => None
            end
          else
            match strip_prefix "true" s1, strip_prefix "false" s1,
                  strip_prefix "null" s1 with
            | Some tail, _, _ => Some (JBool true, tail)
            | _, Some tail, _ => Some (JBool false, tail)
            | _, _, Some tail => Some (JNull, tail)
            | _, _, _ =>
                let (text, tail) := span_number s1 in
                match number_of text with
                | Some n => Some (n, tail)
                | None => None
                end
            end
      end
  end
with items (fuel : nat) (s : string) (acc : list json)
     : option (json * string) :=
  match fuel with
  | 0 => None
  | S fuel' =>
      match value fuel' s with
      | Some (v, tail) =>
          match skip_ws tail with
          | String "," more => items fuel' more (acc ++ [v])%list
          | String "]" more => Some (JArray (acc ++ [v])%list, more)
          | _ => None
          end
      | None => None
      end
  end
with fields (fuel : nat) (s : string) (acc : list (string * json))
     : option (json * string) :=
  match fuel with
  | 0 => None
  | S fuel' =>
      match skip_ws s with
      | String c rest =>
          if Nat.eqb (nat_of_ascii c) 34 then
            match string_body rest with
            | Some (key, tail) =>
                match skip_ws tail with
                | String ":" tail' =>
                    match value fuel' tail' with
                    | Some (v, tail'') =>
                        match skip_ws tail'' with
                        | String "," more =>
                            fields fuel' more (dict_set key v acc)
                        | String "}" more =>
                            Some (JObject (dict_set key v acc), more)
                        | _ => None
                        end
                    | None => None
                    end
                | _ => None
                end
            | None => None
            end
          else None
      | EmptyString => None
      end
  end.

Definition loads (text : string) : exn + json :=
  match value (2 * String.length text + 2) text with
  | Some (v, tail) =>
      match skip_ws tail with
      | EmptyString => inr v
      | _ => inl (Exn JSONDecodeError "Extra data")
      end
  | None => inl (Exn JSONDecodeError "Expecting value")
  end.

End Json.

(** The in-memory world as an operating system, for a given platform,
    machine and working directory. *)
Definition sim_os (platform machine : string) (working_dir : path)
  : OS Sim.world :=
  {| sys_platform := platform;
     platform_machine := machine;
     cwd := working_dir;
     WIN32_AVAILABLE := String.eqb platform "win32";
     os_exists := Sim.exists_;
     os_is_dir := Sim.is_dir_;
     os_is_file := Sim.is_file_;
     os_iterdir := Sim.iterdir_;
     os_read_text := Sim.read_text_;
     http_get := Sim.http_get_;
     os_run := Sim.run platform;
     json_loads := Json.loads;
     json_dumps := Json.dumps |}.

(** The same with the codec left open: the filesystem is the in-memory
    one, and [loads] and [dumps] stand for [json.load] and [json.dump]. *)
Definition sim_os_with (loads : string -> exn + json) (dumps : json -> string)
           (platform machine : string) (working_dir : path)
  : OS Sim.world :=
  {| sys_platform := platform;
     platform_machine := machine;
     cwd := working_dir;
     WIN32_AVAILABLE := String.eqb platform "win32";
     os_exists := Sim.exists_;
     os_is_dir := Sim.is_dir_;
     os_is_file := Sim.is_file_;
     os_iterdir := Sim.iterdir_;
     os_read_text := Sim.read_text_;
     http_get := Sim.http_get_;
     os_run := Sim.run platform;
     json_loads := loads;
     json_dumps := dumps |}.

(** ** Vocabulary of the specification *)

(** The platform token the specification documents for each value of
    [sys.platform]. *)
Inductive platform_token : string -> string -> Prop :=
| token_win32 : platform_token "win32" "win"
| token_darwin : platform_token "darwin" "osx"
| token_linux : platform_token "linux" "linux"
| token_other_platform p :
    p <> "win32" -> p <> "darwin" -> p <> "linux" -> platform_token p "win".

(** The architecture token for each value of [platform.machine()]: five
    recognized raw values, three tokens, [x64] for anything else. *)
Inductive arch_token : string -> string -> Prop :=
| token_AMD64 : arch_token "AMD64" "x64"
| token_x86_64 : arch_token "x86_64" "x64"
| token_arm64 : arch_token "arm64" "arm64"
| token_i386 : arch_token "i386" "ia32"
| token_x86 : arch_token "x86" "ia32"
| token_other_arch m :
    m <> "AMD64" -> m <> "x86_64" -> m <> "arm64" -> m <> "i386" ->
    m <> "x86" -> arch_token m "x64".

(** Counting events of a kind in a trace. *)
Definition count_events (f : event -> bool) (t : list event) : nat :=
  List.length (filter f t).

(** A removal of a child ([unlink] or [rmtree]) that went through. *)
Definition removal_succeeded (ev : event) : bool :=
  match ev with
  | Sys (Unlink _) None | Sys (Rmtree _) None => true
  | _ => false
  end.

(** A removal of a child that raised. *)
Definition removal_failed (ev : event) : bool :=
  match ev with
  | Sys (Unlink _) (Some _) | Sys (Rmtree _) (Some _) => true
  | _ => false
  end.

Definition is_warning (ev : event) : bool :=
  match ev with Log WARNING _ => true | _ => false end.

(** The path a removal event was aimed at. *)
Definition removal_target (ev : event) : option path :=
  match ev with
  | Sys (Unlink p) _ | Sys (Rmtree p) _ => Some p
  | _ => None
  end.

Fixpoint removal_targets (t : list event) : list path :=
  match t with
  | [] => []
  | ev :: rest =>
      match removal_target ev with
      | Some p => p :: removal_targets rest
      | None => removal_targets rest
      end
  end.



(** *** Properties of the events a method produces *)

Section TraceProperties.

Context {W : Type}.

(** Every event the method produces, from any world, satisfies [Q]. *)
Definition always {A} (Q : event -> Prop) (m : M W A) : Prop :=
  forall w, Forall Q (trace (m w)).

(** The result and the trace of the method, from any world, satisfy [S]. *)
Definition ensures {A} (S : exn + A -> list event -> Prop) (m : M W A)
  : Prop :=
  forall w, S (res (m w)) (trace (m w)).

(** The method never raises. *)
Definition returns {A} (m : M W A) : Prop :=
  forall w, exists a, res (m w) = inr a.

End TraceProperties.

(** A call that takes something away from where it was. *)
Definition is_removal (ev : event) : bool :=
  match ev with
  | Sys (Unlink _) _ | Sys (Rmtree _) _ | Sys (Rename _ _) _ => true
  | _ => false
  end.

(** The first thing [clean_game_directory] does is to log this line. *)
Definition wipe_started : event :=
  Log INFO "Cleaning game directory (deleting everything)...".

(** The last thing [save_important_files] does, once its check has found
    both copies in the holding area, is to log this line. *)
Definition preserve_verified (self : automator) : event :=
  Log INFO ("✓ Important files saved to: " ++ path_str (holding_area self)).

(** What [save_important_files] logs when its check has failed. *)
Definition preserve_failed : event :=
  Log ERROR "Aborting to prevent data loss!".

Definition level_eqb (a b : level) : bool :=
  match a, b with
  | INFO, INFO | WARNING, WARNING | ERROR, ERROR => true
  | _, _ => false
  end.

(** [ev] is the log record of level [lvl] with text [msg]. *)
Definition is_log (lvl : level) (msg : string) (ev : event) : bool :=
  match ev with
  | Log l m => level_eqb l lvl && String.eqb m msg
  | Sys _ _ => false
  end.

Definition is_sys (ev : event) : bool :=
  match ev with Sys _ _ => true | Log _ _ => false end.


(** An event that takes nothing away and is none of the three marks of the
    preserve and wipe steps. *)
Definition harmless (self : automator) (ev : event) : Prop :=
  is_removal ev = false
  /\ ev <> wipe_started
  /\ ev <> preserve_verified self
  /\ ev <> preserve_failed.

(** An event that takes nothing away and does not tell of the wipe or of a
    verified preserve step. *)
Definition before_verification (self : automator) (ev : event) : Prop :=
  is_removal ev = false
  /\ ev <> wipe_started
  /\ ev <> preserve_verified self.

(** What [save_important_files] leaves behind: when it returns, the last
    event is the verification mark and everything before is harmless; when
    it raises, nothing was removed and neither the wipe nor a verified
    preserve step was logged. *)
Definition preserved (self : automator) (r : exn + path) (t : list event)
  : Prop :=
  match r with
  | inr temp_dir =>
      temp_dir = holding_area self
      /\ exists t0, t = (t0 ++ [preserve_verified self])%list
                    /\ Forall (harmless self) t0
  | inl _ => Forall (before_verification self) t
  end.

(** The order the pipeline keeps: the wipe, and any removal, only after the
    verification mark; and a failed check ends the steps with an exception
    before anything of the kind. *)
Definition guarded (self : automator) (r : exn + run_result) (t : list event)
  : Prop :=
  (forall t1 ev t2,
      t = (t1 ++ ev :: t2)%list ->
      ev = wipe_started \/ is_removal ev = true ->
      In (preserve_verified self) t1)
  /\ (In preserve_failed t ->
      (exists e, r = inl e) /\ Forall (before_verification self) t).





(** The call that makes the backup. *)
Definition backup_copy (self : automator) (ev : event) : Prop :=
  exists r, ev = Sys (Copytree (game_path self) (backup_path self) false) r.



(** The names a run joins onto a path that come from the caller: the name
    the executable is given, the name of the shortcut, and the name of the
    archive, which holds the version of the runtime. *)
Definition joined_names {W} (O : OS W) (self : automator) : list string :=
  [ game_exe_name O self;
    executable_name self ++ ".lnk";
    snd (get_nwjs_download_url O self) ].

(** Each of them is one component, so that the paths of the run are the
    ones [child] builds. *)
Definition plain_names {W} (O : OS W) (self : automator) : bool :=
  forallb plain_name (joined_names O self).

(** ** Worlds and configurations used in the examples *)

Module Example.

Import Sim.

Definition home : path := ["home"].
Definition game : path := ["home"; "My Game"].
Definition runtime : path := ["home"; "nwjs-v0.49.2"].

(** A manifest without a name, and one that has been fixed. *)
Definition bare_manifest : string := "{}".
Definition fixed_manifest : string :=
  Json.dumps (JObject [("name", JString "my-game")]).

Definition www : node :=
  Dir [("js", Dir [("plugins.js", File "plugins");
                   ("main.js", File "main")]);
       ("data", Dir [("System.json", File "{}")])].

Definition runtime_tree : node :=
  Dir [("nw", File "NW"); ("chromedriver", File "driver");
       ("locales", Dir [("en-US.pak", File "en"); ("fr.pak", File "fr")])].

(** A game directory with the given manifest and some other files. *)
Definition game_tree (manifest : string) (extra : list (string * node))
  : node :=
  Dir (("package.json", File manifest) :: ("www", www) :: extra).

Definition disk (manifest : string) (extra : list (string * node))
           (siblings : list (string * node)) : node :=
  Dir [("home", Dir (("My Game", game_tree manifest extra)
                     :: ("nwjs-v0.49.2", runtime_tree) :: siblings))].

Definition machine_with (r : node) (locks : list path) : world :=
  {| root := r; locked := locks; network := []; archives := [] |}.

(** The usual start: a bare manifest, an old runtime binary. *)
Definition fresh : world :=
  machine_with (disk bare_manifest [("Game.exe", File "old")] []) [].

Definition linux : OS world := sim_os "linux" "x86_64" home.

Definition settings (exe : string) : automator :=
  {| game_path := game; nwjs_path := Some runtime;
     nwjs_version := "v0.49.2"; use_sdk := true; executable_name := exe |}.

(** The tool started inside the game directory with [--game-path .]: the
    target is the anchor itself, the runtime lies in a subdirectory. *)
Definition here : automator :=
  {| game_path := []; nwjs_path := Some ["runtime"];
     nwjs_version := "v0.49.2"; use_sdk := true; executable_name := "Game" |}.

Definition here_world : world :=
  machine_with (Dir [("package.json", File bare_manifest); ("www", www);
                     ("runtime", runtime_tree)]) [].

Definition linux_here : OS world := sim_os "linux" "x86_64" [].

(** A test double: copies with [copy2] and with
    [copytree(..., dirs_exist_ok=True)] report success and copy nothing. *)
Definition forgetful : OS world :=
  {| sys_platform := sys_platform linux;
     platform_machine := platform_machine linux;
     cwd := cwd linux;
     WIN32_AVAILABLE := WIN32_AVAILABLE linux;
     os_exists := os_exists linux;
     os_is_dir := os_is_dir linux;
     os_is_file := os_is_file linux;
     os_iterdir := os_iterdir linux;
     os_read_text := os_read_text linux;
     http_get := http_get linux;
     os_run := fun c w =>
                 match c with
                 | Copy2 _ _ | Copytree _ _ true => (None, w)
                 | _ => os_run linux c w
                 end;
     json_loads := json_loads linux;
     json_dumps := json_dumps linux |}.

(** Two ordinary files and one that cannot be deleted. *)
Definition cluttered : world :=
  machine_with
    (Dir [("home", Dir [("My Game",
                         Dir [("a.txt", File "a"); ("readonly.dat", File "r");
                              ("b.txt", File "b")])])])
    [game // "readonly.dat"].

(** A target directory right after the runtime was installed, holding both
    runtime binaries. *)
Definition installed (extra : list (string * node)) : world :=
  machine_with
    (Dir [("home", Dir [("My Game",
                         Dir (("nw", File "NW") :: ("nwjs", File "NWJS")
                              :: ("package.json", File fixed_manifest)
                              :: extra))])])
    [].


(** A backup left by an earlier run. *)
Definition stale : world :=
  machine_with
    (disk bare_manifest []
          [("My Game_backup", Dir [("old.txt", File "stale")])])
    [].

(** A manifest that is valid JSON but not an object. *)
Definition listy : world := machine_with (disk "[]" [] []) [].

End Example.

(** ** Vocabulary of the further properties of the methods *)

(** What [copy_nwjs_to_game] may do: copy an entry of the runtime directory
    to the entry of the same name in the target directory, merging
    directories, and set the mode of a copied [nw] or [nwjs] where the
    platform is not [win32]. *)
Definition installs {W} (O : OS W) (self : automator) (nwjs_dir : path)
           (ev : event) : Prop :=
  match ev with
  | Log _ _ => True
  | Sys (Copytree src dst dirs_exist_ok) _ =>
      dirs_exist_ok = true
      /\ exists c, src = nwjs_dir // c /\ dst = game_path self // c
  | Sys (Copy2 src dst) _ =>
      exists c, src = nwjs_dir // c /\ dst = game_path self // c
  | Sys (Chmod p) _ =>
      is_win32 O = false
      /\ exists c, is_runtime_binary c = true /\ p = game_path self // c
  | Sys _ _ => False
  end.

(** What [cleanup_nwjs_files] may do: remove an entry of the target
    directory that is on the cleanup list, and unlink a file of the
    [locales] directory that is not one of the two retained ones. *)
Definition tidies (self : automator) (ev : event) : Prop :=
  match ev with
  | Log _ _ => True
  | Sys (Unlink p) _ =>
      (exists f, In f cleanup_files /\ p = game_path self // f)
      \/ (exists x, is_foreign_locale x = true
                    /\ p = game_path self // "locales" // x)
  | Sys (Rmtree p) _ =>
      exists f, In f cleanup_files /\ p = game_path self // f
  | Sys _ _ => False
  end.

(** What [restore_important_files] may do, with [temp_dir] the holding
    area: put the three preserved entries back in the target directory,
    removing what is in their place, take the entry point from the [www]
    folder or write a new one, rewrite the manifest, and remove the holding
    area. *)
Definition restores (self : automator) (temp_dir : path) (ev : event) : Prop :=
  let target := game_path self in
  match ev with
  | Log _ _ => True
  | Sys (Unlink p) _ =>
      p = target // "package.json" \/ p = target // "index.html"
  | Sys (Rmtree p) _ => p = target // "www" \/ p = temp_dir
  | Sys (Copy2 src dst) _ =>
      (src = temp_dir // "package.json" /\ dst = target // "package.json")
      \/ (src = temp_dir // "index.html" /\ dst = target // "index.html")
      \/ (src = target // "www" // "index.html"
          /\ dst = target // "index.html")
  | Sys (Copytree src dst dirs_exist_ok) _ =>
      src = temp_dir // "www" /\ dst = target // "www"
      /\ dirs_exist_ok = false
  | Sys (WriteText p _) _ =>
      p = target // "index.html" \/ p = target // "package.json"
  | Sys _ _ => False
  end.

(** The paths at which a system call changes something. *)
Definition written_paths (ev : event) : list path :=
  match ev with
  | Log _ _ => []
  | Sys c _ =>
      match c with
      | WriteText p _ | WriteBytes p _ | Mkdir p
      | Unlink p | Rmtree p | Chmod p => [p]
      | Copy2 _ dst | Copytree _ dst _ => [dst]
      | Rename src dst => [src; dst]
      | ExtractZip _ dir | ExtractTar _ dir => [dir]
      | CreateShortcut lnk _ _ _ => [lnk]
      end
  end.

(** The places of a run: the target directory, the backup, the holding
    area and the scratch directory, with what lies below them. *)
Definition own_place {W} (O : OS W) (self : automator) (p : path) : Prop :=
  is_prefix (game_path self) p = true
  \/ is_prefix (backup_path self) p = true
  \/ is_prefix (holding_area self) p = true
  \/ is_prefix (scratch_dir O) p = true.

(** Whatever the event changes lies in one of these places. *)
Definition keeps_to_own_places {W} (O : OS W) (self : automator)
           (ev : event) : Prop :=
  forall p, In p (written_paths ev) -> own_place O self p.

(** The copy that makes the backup, refused by the system. *)
Definition failed_backup_copy (self : automator) (e : exn) : event :=
  Sys (Copytree (game_path self) (backup_path self) false) (Some e).




(** The archive of the runtime is a tarball where the platform is [darwin]
    or [linux], and a zip file elsewhere. *)
Definition tarball {W} (O : OS W) : bool :=
  String.eqb (sys_platform O) "darwin" || String.eqb (sys_platform O) "linux".

(** ** The command line

    [main] and [get_user_input] both clean the executable name they were
    given: a name that ends with [.exe], in any case, loses these four
    characters. *)

Module Cli.

(** [s.endswith(suffix)] *)
Definition endswith (suffix s : string) : bool :=
  Nat.leb (String.length suffix) (String.length s)
  && String.eqb
       (String.substring (String.length s - String.length suffix)
                         (String.length suffix) s)
       suffix.

(** [s[:-4]] *)
Definition drop_last_four (s : string) : string :=
  String.substring 0 (String.length s - 4) s.

(** [if executable_name.lower().endswith('.exe'):
       executable_name = executable_name[:-4]]

    The four characters that are tested and cut are ASCII when the test
    succeeds, so lower-casing the ASCII letters is all the test needs. *)
Definition clean_executable_name (executable_name : string) : string :=
  if endswith ".exe" (Py.lower executable_name)
  then drop_last_four executable_name
  else executable_name.

End Cli.

(** ** Further worlds and configurations used in the examples *)

Module Scenes.

Import Sim Example.

(** A disk on which the target directory does not exist. *)
Definition bare_disk : world := machine_with (Dir [("home", Dir [])]) [].

(** A manifest that is not JSON. *)
Definition garbled : world := machine_with (disk "{" [] []) [].

(** A manifest that cannot be written. *)
Definition sealed_manifest : world :=
  machine_with (disk bare_manifest [] []) [game // "package.json"].

(** The tool without a runtime directory of its own: it downloads. *)
Definition downloading : automator :=
  {| game_path := game; nwjs_path := None;
     nwjs_version := "0.49.2"; use_sdk := true; executable_name := "Game" |}.

Definition runtime_url : string :=
  "https://dl.nwjs.io/v0.49.2/nwjs-sdk-v0.49.2-linux-x64.tar.gz".

(** A network that serves the archive, which unpacks to a note and the
    runtime directory. *)
Definition online : world :=
  {| root := disk bare_manifest [] [];
     locked := [];
     network := [(runtime_url, "tarball")];
     archives :=
       [("tarball", [("README", File "read me");
                     ("nwjs-sdk-v0.49.2-linux-x64", runtime_tree)])] |}.

(** The target directory refuses the second entry of the runtime. *)
Definition chromedriver_refused : world :=
  machine_with (disk bare_manifest [] []) [game // "chromedriver"].

(** An installed runtime with a file of the cleanup list and three
    locales. *)
Definition untidy : world :=
  installed [("chromedriver", File "driver");
             ("locales", Dir [("en-US.pak", File "en"); ("fr.pak", File "fr");
                              ("de.pak", File "de")])].

(** The same, where the French locale cannot be unlinked. *)
Definition untidy_locked : world :=
  machine_with (root untidy) [game // "locales" // "fr.pak"].


(** The holding area is filled and cannot be removed. *)
Definition held : world :=
  machine_with
    (disk fixed_manifest []
          [("temp_My Game_files",
            Dir [("package.json", File fixed_manifest); ("www", www)])])
    [home // "temp_My Game_files"].

(** The backup path refuses the copy. *)
Definition backup_refused : world :=
  machine_with (disk bare_manifest [] []) [home // "My Game_backup"].

End Scenes.


(** ** Well-formed trees of the in-memory filesystem *)

Module Tree.

Import Sim.

(** No name occurs twice in a listing. *)
Fixpoint distinct_names (es : list (string * node)) : bool :=
  match es with
  | [] => true
  | (k, _) :: rest =>
      match assoc k rest with
      | None => distinct_names rest
      | Some _ => false
      end
  end.

(** No directory of the tree lists a name twice. *)
Fixpoint well_formed (n : node) : bool :=
  match n with
  | File _ => true
  | Dir es =>
      distinct_names es
      && (fix all (l : list (string * node)) : bool :=
            match l with
            | [] => true
            | (_, c) :: rest => well_formed c && all rest
            end) es
  end.

(** Induction on trees, with the property at hand for every entry of a
    directory. *)
Fixpoint node_induction (P : node -> Prop)
         (file : forall d, P (File d))
         (dir : forall es, Forall (fun kv => P (snd kv)) es -> P (Dir es))
         (n : node) : P n :=
  match n with
  | File d => file d
  | Dir es =>
      dir es
          ((fix go (l : list (string * node))
              : Forall (fun kv => P (snd kv)) l :=
              match l with
              | [] => Forall_nil _
              | kv :: rest =>
                  Forall_cons kv (node_induction P file dir (snd kv))
                              (go rest)
              end) es)
  end.

(** The tree [n'] holds what [n] holds at every path that is neither on
    the way to [p], nor [p], nor below it. *)
Definition same_apart_from (p : path) (n n' : node) : Prop :=
  forall q, related p q = false -> lookup q n' = lookup q n.

(** What [restore_important_files] leaves as the entry point: the saved
    one; failing that the one inside the saved [www]; failing that, a
    synthesized one. *)
Definition restored_entry_point (saved : option string)
           (www : list (string * node)) (content : string) : Prop :=
  match saved with
  | Some i => content = i
  | None =>
      match assoc "index.html" www with
      | Some (File j) => content = j
      | _ => exists script_tags,
               script_tags <> [] /\ content = basic_html script_tags
      end
  end.

End Tree.

(** ** The world after a trace *)

(** The world the calls of a trace lead to, made one after the other. *)
Definition replay {W} (O : OS W) (t : list event) (w : W) : W :=
  fold_left (fun w' ev => match ev with
                          | Sys c _ => snd (os_run O c w')
                          | Log _ _ => w'
                          end) t w.

(** The method changes the world through the calls it records, and in no
    other way. *)
Definition follows_its_trace {W A} (O : OS W) (m : M W A) : Prop :=
  forall w, final (m w) = replay O (trace (m w)) w.

(** Both copies the check of [save_important_files] looks for are in the
    holding area, in the world [w]. *)
Definition holding_copies_exist {W} (O : OS W) (self : automator) (w : W)
  : Prop :=
  os_exists O (holding_area self // "package.json") w = true
  /\ os_exists O (holding_area self // "www") w = true.

(** The order the pipeline keeps, with the worlds it goes through: before
    the opening line of the wipe, and before any removal, stands the
    verification mark; the calls recorded before the mark, made from [w],
    lead to a world in which both copies are in the holding area; and
    among them nothing is removed. *)
Definition guarded_by_check {W} (O : OS W) (self : automator) (w : W)
           (t : list event) : Prop :=
  forall t1 ev t2,
    t = (t1 ++ ev :: t2)%list ->
    ev = wipe_started \/ is_removal ev = true ->
    exists t0 t0',
      t1 = (t0 ++ preserve_verified self :: t0')%list
      /\ Forall (fun e => is_removal e = false /\ e <> wipe_started) t0
      /\ holding_copies_exist O self (replay O t0 w).

(** The event writes at no path that is on the way to, at, or inside one
    of the paths [qs]. *)
Definition spares (qs : list path) (ev : event) : Prop :=
  forall p, In p (written_paths ev) ->
  forall q, In q qs -> related p q = false.

(** ** Two more worlds *)

Module Worlds.

Import Sim Example.

(** A game whose manifest has a name, with an old launcher. *)
Definition ready : world :=
  machine_with (disk fixed_manifest [("Game.exe", File "old")] []) [].

(** After the wipe and the installation: the holding area is filled, the
    target directory holds a runtime binary and a stray [www]. *)
Definition refilled : world :=
  machine_with
    (Dir [("home",
           Dir [("My Game",
                 Dir [("nw", File "NW");
                      ("www", Dir [("stray.txt", File "x")])]);
                ("temp_My Game_files",
                 Dir [("package.json", File fixed_manifest);
                      ("www", www)])])])
    [].

End Worlds.

(** * Theorems *)

Unset Implicit Arguments.

(** ** Facts about strings *)

Lemma append_assoc (a b c : string) : (a ++ b) ++ c = a ++ b ++ c.
Proof. induction a; simpl; congruence. Qed.

Lemma startswith_v_normalized (version : string) :
  Py.startswith "v"
    (if Py.startswith "v" version then version else "v" ++ version) = true.
Proof.
  destruct (Py.startswith "v" version) eqn:E; [exact E|].
  unfold Py.startswith. simpl. destruct version; reflexivity.
Qed.

Lemma platform_token_map (p : string) :
  platform_token p (map_get platform_map p "win").
Proof.
  unfold platform_map; cbn [map_get].
  destruct (String.eqb_spec "win32" p) as [<-|H1]; [constructor|].
  destruct (String.eqb_spec "darwin" p) as [<-|H2]; [constructor|].
  destruct (String.eqb_spec "linux" p) as [<-|H3]; [constructor|].
  constructor; congruence.
Qed.

Lemma arch_token_map (m : string) :
  arch_token m (map_get arch_map m "x64").
Proof.
  unfold arch_map; cbn [map_get].
  destruct (String.eqb_spec "AMD64" m) as [<-|H1]; [constructor|].
  destruct (String.eqb_spec "x86_64" m) as [<-|H2]; [constructor|].
  destruct (String.eqb_spec "arm64" m) as [<-|H3]; [constructor|].
  destruct (String.eqb_spec "i386" m) as [<-|H4]; [constructor|].
  destruct (String.eqb_spec "x86" m) as [<-|H5]; [constructor|].
  constructor; congruence.
Qed.

(** C4: the URL is a function of the version string, the flavor flag and
    the two values the interpreter reports about its host, and of nothing
    else.  It is [https://dl.nwjs.io/<version>/<filename>], where the
    version carries a leading [v], the platform and architecture tokens are
    the documented ones (three platforms, five raw architectures, defaults
    [win] and [x64]), the file name is [nwjs-sdk-] or [nwjs-] followed by
    version, platform and architecture, and the extension is [.zip] for
    [win] and [.tar.gz] otherwise. *)
Theorem get_nwjs_download_url_documented
        {W W'} (O : OS W) (O' : OS W') (self self' : automator) :
  (nwjs_version self' = nwjs_version self ->
   use_sdk self' = use_sdk self ->
   sys_platform O' = sys_platform O ->
   platform_machine O' = platform_machine O ->
   get_nwjs_download_url O' self' = get_nwjs_download_url O self)
  /\ exists version platform_name arch extension,
      version = (if Py.startswith "v" (nwjs_version self)
                 then nwjs_version self else "v" ++ nwjs_version self)
      /\ Py.startswith "v" version = true
      /\ platform_token (sys_platform O) platform_name
      /\ arch_token (platform_machine O) arch
      /\ extension = (if String.eqb platform_name "win"
                      then ".zip" else ".tar.gz")
      /\ let filename :=
           (if use_sdk self then "nwjs-sdk-" else "nwjs-")
           ++ version ++ "-" ++ platform_name ++ "-" ++ arch ++ extension in
         get_nwjs_download_url O self
         = ("https://dl.nwjs.io" ++ "/" ++ version ++ "/" ++ filename,
            filename).
Proof.
  split.
  - intros Hv Hs Hp Hm. unfold get_nwjs_download_url.
    now rewrite Hv, Hs, Hp, Hm.
  - eexists _, (map_get platform_map (sys_platform O) "win"),
      (map_get arch_map (platform_machine O) "x64"), _.
    split; [reflexivity|].
    split; [apply startswith_v_normalized|].
    split; [apply platform_token_map|].
    split; [apply arch_token_map|].
    split; [reflexivity|].
    unfold get_nwjs_download_url, nwjs_download_url, nwjs_url_base.
    cbv zeta.
    destruct (use_sdk self);
      destruct (String.eqb (map_get platform_map (sys_platform O) "win") "win");
      rewrite ?append_assoc; simpl; rewrite ?append_assoc; simpl;
      rewrite ?append_assoc; reflexivity.
Qed.

(** ** Local behaviour of single methods *)

Section Methods.

Context {W : Type} (O : OS W) (self : automator).

(** *** Running the monad *)

Lemma run_bind {A B} (m : M W A) (k : A -> M W B) (w : W) :
  bind m k w
  = match res (m w) with
    | inl e => Outcome (inl e) (final (m w)) (trace (m w))
    | inr a =>
        Outcome (res (k a (final (m w)))) (final (k a (final (m w))))
                (trace (m w) ++ trace (k a (final (m w))))
    end.
Proof. reflexivity. Qed.

Lemma run_try_except {A} (m : M W A) (h : exn -> M W A) (w : W) :
  try_except m h w
  = match res (m w) with
    | inl e =>
        Outcome (res (h e (final (m w)))) (final (h e (final (m w))))
                (trace (m w) ++ trace (h e (final (m w))))
    | inr a => m w
    end.
Proof. reflexivity. Qed.

(** A step that returns without touching the world or the trace can be
    skipped over. *)
Lemma bind_pure {A B} (m : M W A) (k : A -> M W B) (w : W) (a : A) :
  m w = Outcome (inr a) w [] -> bind m k w = k a w.
Proof.
  intros H. unfold bind. rewrite H. cbn [res final trace app].
  destruct (k a w); reflexivity.
Qed.

Lemma run_path_exists (p : path) (w : W) :
  path_exists O p w = Outcome (inr (os_exists O p w)) w [].
Proof. reflexivity. Qed.

Lemma run_sys (c : syscall) (w : W) :
  sys O c w
  = Outcome (match fst (os_run O c w) with
             | Some e => inl e
             | None => inr tt
             end)
            (snd (os_run O c w)) [Sys c (fst (os_run O c w))].
Proof. unfold sys. destruct (os_run O c w); reflexivity. Qed.

(** *** [backup_game] *)

(** C10: when the sibling backup path already exists, [backup_game] copies
    nothing: it returns that path, the world is the one it started from and
    the only event is the log line that says so. *)
Theorem backup_game_keeps_existing (w : W) :
  os_exists O (backup_path self) w = true ->
  backup_game O self w
  = Outcome (inr (backup_path self)) w
      [Log INFO ("Backup already exists: " ++ path_str (backup_path self))].
Proof.
  intros H. unfold backup_game, bind, path_exists. cbn [res final trace].
  rewrite H. reflexivity.
Qed.

(** *** [validate_and_fix_package_json] *)

Lemma validate_and_fix_unchanged (p : path) (w : W) text d v :
  os_read_text O p w = inr text ->
  json_loads O text = inr (JObject d) ->
  dict_get "name" d = Some v ->
  truthy v = true ->
  validate_and_fix_package_json O self p w
  = Outcome (inr tt) w [Log INFO "Validating package.json..."].
Proof.
  intros Hread Hparse Hname Htrue.
  unfold validate_and_fix_package_json, bind, try_except, read_text,
    json_load, logger_info, emit.
  cbn [res final trace]. rewrite Hread. cbn [res final trace].
  rewrite Hparse. cbn [ret res final trace].
  unfold name_missing_or_empty. rewrite Hname, Htrue. reflexivity.
Qed.

(** C8: once the manifest carries a non-empty identifier (a value Python
    takes as true), a further run of the validator succeeds, issues no
    system call, and leaves the world, hence the bytes of the manifest,
    as they were after the first run. *)
Theorem validator_idempotent (p : path) (w : W) text d v :
  let first := validate_and_fix_package_json O self p w in
  os_read_text O p (final first) = inr text ->
  json_loads O text = inr (JObject d) ->
  dict_get "name" d = Some v ->
  truthy v = true ->
  let second := validate_and_fix_package_json O self p (final first) in
  res second = inr tt
  /\ final second = final first
  /\ trace second = [Log INFO "Validating package.json..."]
  /\ os_read_text O p (final second) = os_read_text O p (final first).
Proof.
  intros first Hread Hparse Hname Htrue second. subst second.
  rewrite (validate_and_fix_unchanged p (final first) _ _ _ Hread Hparse Hname Htrue).
  cbn [res final trace]. auto.
Qed.


(** *** [create_basic_index_html] *)



(** *** [clean_game_directory] *)

Lemma count_events_app (f : event -> bool) (a b : list event) :
  count_events f (a ++ b)%list = count_events f a + count_events f b.
Proof. unfold count_events. now rewrite filter_app, length_app. Qed.

Lemma removal_targets_app (a b : list event) :
  removal_targets (a ++ b)%list
  = (removal_targets a ++ removal_targets b)%list.
Proof.
  induction a as [|ev a IH]; [reflexivity|].
  cbn [app removal_targets]. destruct (removal_target ev); cbn; now rewrite IH.
Qed.

(** Every removal either went through or failed. *)
Lemma removals_partition (t : list event) :
  count_events removal_succeeded t + count_events removal_failed t
  = List.length (removal_targets t).
Proof.
  unfold count_events.
  induction t as [|ev t IH]; [reflexivity|].
  destruct ev as [lvl msg|[] [e|]]; cbn in *; lia.
Qed.

(** One turn of the loop: one removal is attempted on the child; the
    counter moves exactly when it went through, a warning is logged exactly
    when it did not, and nothing is raised. *)
Lemma remove_child_turn (item : path) (count : nat) (w : W) :
  exists t n,
    res (remove_child O item count w) = inr n
    /\ trace (remove_child O item count w) = t
    /\ n = count + count_events removal_succeeded t
    /\ count_events is_warning t = count_events removal_failed t
    /\ removal_targets t = [item].
Proof.
  unfold remove_child, try_except, bind, is_dir, sys, logger_info,
    logger_warning, emit.
  cbn [res final trace].
  destruct (os_is_dir O item w);
    [ destruct (os_run O (Rmtree item) w) as [[e|] w']
    | destruct (os_run O (Unlink item) w) as [[e|] w'] ];
    cbn [res final trace ret app]; eexists _, _;
    (split; [reflexivity|]); (split; [reflexivity|]);
    cbn; repeat split; lia.
Qed.

Lemma remove_children_loop (items : list path) :
  forall (count : nat) (w : W),
  exists n,
    let o := for_each items count (remove_child O) w in
    res o = inr n
    /\ n = count + count_events removal_succeeded (trace o)
    /\ count_events is_warning (trace o)
       = count_events removal_failed (trace o)
    /\ removal_targets (trace o) = items.
Proof.
  induction items as [|item items IH]; intros count w.
  - exists count. cbn. repeat split; lia.
  - destruct (remove_child_turn item count w) as (t & n1 & Hres & Htr & Hn & Hw & Ht).
    cbn [for_each]. unfold bind. rewrite Hres. cbn [res final trace].
    destruct (IH n1 (final (remove_child O item count w)))
      as (n & H1 & H2 & H3 & H4).
    cbv zeta in H1, H2, H3, H4.
    exists n. cbv zeta. rewrite Htr in *.
    rewrite !count_events_app, removal_targets_app.
    rewrite H1, H3, H4, Ht, Hw. repeat split; try reflexivity. lia.
Qed.

(** C5: when the target directory can be listed, [clean_game_directory]
    returns normally whatever the single removals do.  One removal is
    attempted for every child, in listing order; each failure is answered
    by one warning; and the number in the closing report is the number of
    removals that went through. *)
Theorem clean_game_directory_best_effort (w : W) (names : list string) :
  os_iterdir O (game_path self) w = inr names ->
  exists body n,
    let o := clean_game_directory O self w in
    res o = inr tt
    /\ trace o
       = (Log INFO "Cleaning game directory (deleting everything)..."
          :: body ++ [Log INFO (removed_report n)])%list
    /\ n = count_events removal_succeeded body
    /\ count_events is_warning body = count_events removal_failed body
    /\ removal_targets body = map (child (game_path self)) names
    /\ n + count_events removal_failed body = List.length names.
Proof.
  intros Hlist.
  destruct (remove_children_loop (map (child (game_path self)) names) 0 w)
    as (n & H1 & H2 & H3 & H4).
  cbv zeta in H1, H2, H3, H4.
  exists (trace (for_each (map (child (game_path self)) names) 0
                          (remove_child O) w)), n.
  cbv zeta.
  unfold clean_game_directory, bind, iterdir, logger_info, emit.
  cbn [res final trace]. rewrite Hlist. cbn [res final trace].
  rewrite H1. cbn [res final trace app].
  repeat split; try assumption.
  rewrite H2 at 1. cbn [Nat.add].
  rewrite removals_partition, H4. apply length_map.
Qed.

End Methods.

(** ** Reasoning about the events of a run *)

Section Events.

Context {W : Type} (O : OS W).

Lemma trace_bind {A B} (m : M W A) (k : A -> M W B) (w : W) :
  trace (bind m k w)
  = (trace (m w)
     ++ match res (m w) with
        | inr a => trace (k a (final (m w)))
        | inl _ => []
        end)%list.
Proof.
  unfold bind. destruct (res (m w)); cbn [trace]; [now rewrite app_nil_r|].
  reflexivity.
Qed.

Lemma res_bind {A B} (m : M W A) (k : A -> M W B) (w : W) :
  res (bind m k w)
  = match res (m w) with
    | inr a => res (k a (final (m w)))
    | inl e => inl e
    end.
Proof. unfold bind. destruct (res (m w)); reflexivity. Qed.

Lemma trace_try_except {A} (m : M W A) (h : exn -> M W A) (w : W) :
  trace (try_except m h w)
  = (trace (m w)
     ++ match res (m w) with
        | inl e => trace (h e (final (m w)))
        | inr _ => []
        end)%list.
Proof.
  unfold try_except. destruct (res (m w)); cbn [trace]; [reflexivity|].
  now rewrite app_nil_r.
Qed.

Lemma res_try_except {A} (m : M W A) (h : exn -> M W A) (w : W) :
  res (try_except m h w)
  = match res (m w) with
    | inl e => res (h e (final (m w)))
    | inr a => inr a
    end.
Proof.
  unfold try_except. destruct (res (m w)) eqn:E; cbn [res]; congruence.
Qed.

Section Always.

Variable Q : event -> Prop.

Lemma always_ret {A} (a : A) : always Q (@ret W A a).
Proof. intros w. constructor. Qed.

Lemma always_raise {A} (e : exn) : always Q (@raise W A e).
Proof. intros w. constructor. Qed.

Lemma always_emit (ev : event) : Q ev -> always Q (@emit W ev).
Proof. intros H w. repeat constructor. exact H. Qed.

Lemma always_bind {A B} (m : M W A) (k : A -> M W B) :
  always Q m -> (forall a, always Q (k a)) -> always Q (bind m k).
Proof.
  intros Hm Hk w. rewrite trace_bind. apply Forall_app. split; [apply Hm|].
  destruct (res (m w)); [constructor|apply Hk].
Qed.

Lemma always_try_except {A} (m : M W A) (h : exn -> M W A) :
  always Q m -> (forall e, always Q (h e)) -> always Q (try_except m h).
Proof.
  intros Hm Hh w. rewrite trace_try_except. apply Forall_app.
  split; [apply Hm|]. destruct (res (m w)); [apply Hh|constructor].
Qed.

Lemma always_try_except_only {A} (c : exn -> bool)
      (m : M W A) (h : exn -> M W A) :
  always Q m -> (forall e, always Q (h e)) ->
  always Q (try_except_only c m h).
Proof.
  intros Hm Hh. apply always_try_except; [exact Hm|].
  intros e. destruct (c e); [apply Hh|apply always_raise].
Qed.

Lemma always_for_each {A S} (xs : list A) (body : A -> S -> M W S) :
  (forall x acc, In x xs -> always Q (body x acc)) ->
  forall acc, always Q (for_each xs acc body).
Proof.
  induction xs as [|x xs IH]; intros Hbody acc; cbn [for_each].
  - apply always_ret.
  - apply always_bind; [apply Hbody; now left|].
    intros acc'. apply IH. intros y a Hy. apply Hbody. now right.
Qed.

Lemma always_path_exists (p : path) : always Q (path_exists O p).
Proof. intros w. constructor. Qed.

Lemma always_is_dir (p : path) : always Q (is_dir O p).
Proof. intros w. constructor. Qed.

Lemma always_is_file (p : path) : always Q (is_file O p).
Proof. intros w. constructor. Qed.

Lemma always_iterdir (p : path) : always Q (iterdir O p).
Proof. intros w. constructor. Qed.

Lemma always_read_text (p : path) : always Q (read_text O p).
Proof. intros w. constructor. Qed.

Lemma always_requests_get (url : string) : always Q (requests_get O url).
Proof. intros w. constructor. Qed.

Lemma always_json_load (text : string) : always Q (json_load O text).
Proof.
  intros w. unfold json_load. destruct (json_loads O text); constructor.
Qed.

Lemma always_sys (c : syscall) :
  (forall r, Q (Sys c r)) -> always Q (sys O c).
Proof.
  intros H w. unfold sys. destruct (os_run O c w) as [r w'].
  repeat constructor. apply H.
Qed.

Lemma always_logger_info (msg : string) :
  Q (Log INFO msg) -> always Q (@logger_info W msg).
Proof. apply always_emit. Qed.

Lemma always_logger_warning (msg : string) :
  Q (Log WARNING msg) -> always Q (@logger_warning W msg).
Proof. apply always_emit. Qed.

Lemma always_logger_error (msg : string) :
  Q (Log ERROR msg) -> always Q (@logger_error W msg).
Proof. apply always_emit. Qed.

(** A property of the result and the trace that survives a prefix of
    [Q]-events, and holds of a run that consists of [Q]-events and then
    fails, carries over a step whose events all satisfy [Q]. *)
Lemma ensures_bind {A B} (S : exn + B -> list event -> Prop)
      (m : M W A) (k : A -> M W B) :
  (forall r t1 t2, Forall Q t1 -> S r t2 -> S r (t1 ++ t2)%list) ->
  (forall e t, Forall Q t -> S (inl e) t) ->
  always Q m -> (forall a, ensures S (k a)) -> ensures S (bind m k).
Proof.
  intros Hprefix Hfail Hm Hk w. rewrite trace_bind, res_bind.
  destruct (res (m w)) as [e|a].
  - rewrite app_nil_r. apply Hfail, Hm.
  - apply Hprefix; [apply Hm|apply Hk].
Qed.

End Always.

Lemma always_weaken {A} (Q Q' : event -> Prop) (m : M W A) :
  (forall ev, Q ev -> Q' ev) -> always Q m -> always Q' m.
Proof. intros H Hm w. eapply Forall_impl; [exact H|apply Hm]. Qed.

End Events.

(** One step of a proof that every event of a method satisfies a property;
    [leaf] settles the property on a single event. *)
Ltac always_step leaf :=
  first
    [ apply always_ret
    | apply always_raise
    | apply always_path_exists
    | apply always_is_dir
    | apply always_is_file
    | apply always_iterdir
    | apply always_read_text
    | apply always_requests_get
    | apply always_json_load
    | apply always_logger_info; leaf
    | apply always_logger_warning; leaf
    | apply always_logger_error; leaf
    | apply always_sys; intros ?; leaf
    | apply always_bind; [|intros ?]
    | apply always_try_except_only; [|intros ?]
    | apply always_try_except; [|intros ?]
    | apply always_for_each; intros ? ? ?
    | match goal with
      | |- always _ (if ?b then _ else _) => destruct b
      | |- always _ (match ?x with _ => _ end) => destruct x
      | |- always _ (let (_, _) := ?x in _) => destruct x
      end ].

(** ** Events of the loops that are written as fixpoints *)

Section Loops.

Context {W : Type} (O : OS W) (self : automator) (Q : event -> Prop).

Lemma always_find_nwjs_dir (items : list path) :
  (forall item, In item items ->
                Q (Log INFO ("✓ NW.js extracted to: " ++ path_str item))) ->
  always Q (find_nwjs_dir O items).
Proof.
  induction items as [|item items IH]; intros H; cbn [find_nwjs_dir].
  - apply always_raise.
  - apply always_bind; [apply always_is_dir|]. intros d.
    destruct (d && Py.contains "nwjs" (Py.lower (name item))).
    + apply always_bind; [|intros; apply always_ret].
      apply always_logger_info, H. now left.
    + apply IH. intros i Hi. apply H. now right.
Qed.

Lemma always_find_executable (names : list string) :
  always Q (find_executable O self names).
Proof.
  induction names as [|n names IH]; cbn [find_executable].
  - apply always_ret.
  - apply always_bind; [apply always_path_exists|]. intros found.
    destruct found; [apply always_ret|apply IH].
Qed.

Lemma always_prune_locales (items : list path) :
  (forall p r, In p items -> Q (Sys (Unlink p) r)) ->
  (forall p, In p items -> Q (Log INFO ("  Removed: locales/" ++ name p))) ->
  forall count, always Q (prune_locales O items count).
Proof.
  induction items as [|p items IH]; intros Hsys Hlog count;
    cbn [prune_locales].
  - apply always_ret.
  - assert (IH' : forall c, always Q (prune_locales O items c)).
    { apply IH; intros; [apply Hsys|apply Hlog]; now right. }
    destruct (is_foreign_locale (name p)); [|apply IH'].
    apply always_bind; [apply always_is_file|]. intros f.
    destruct f; [|apply IH'].
    apply always_bind.
    + apply always_try_except; [|intros; apply always_ret].
      apply always_bind; [|intros; apply always_ret].
      apply always_sys. intros r. apply Hsys. now left.
    + intros [e|]; [apply always_ret|].
      apply always_bind; [|intros; apply IH'].
      apply always_logger_info, Hlog. now left.
Qed.

End Loops.

(** Goes through the body of a method, leaving the property to be shown on
    each single event to [leaf]. *)
Ltac always_walk leaf :=
  repeat first
    [ always_step leaf
    | apply always_find_executable
    | progress
        unfold validate_game_directory, validate_and_fix_package_json,
          backup_game, setup_nwjs, download_and_extract, download_nwjs,
          extract_nwjs, save_important_files, clean_game_directory,
          remove_child, copy_nwjs_to_game, copy_item,
          restore_important_files, create_basic_index_html,
          detect_script_tags, scan_scripts, rename_executable,
          cleanup_nwjs_files, remove_cleanup_file, cleanup_temp_files,
          create_shortcut_windows ].

Ltac harmless_leaf :=
  solve [ repeat split; try reflexivity; intros Heq; cbn in Heq;
          discriminate Heq ].

Section BeforeTheWipe.

Context {W : Type} (O : OS W) (self : automator).

Lemma validate_harmless :
  always (harmless self) (validate_game_directory O self).
Proof. always_walk harmless_leaf. Qed.

Lemma backup_harmless : always (harmless self) (backup_game O self).
Proof. always_walk harmless_leaf. Qed.

Lemma setup_harmless : always (harmless self) (setup_nwjs O self).
Proof.
  always_walk harmless_leaf.
  all: try (apply always_find_nwjs_dir; intros; harmless_leaf).
Qed.

End BeforeTheWipe.

(** ** The preserve step guards the wipe *)

(** Where an element of a concatenation sits. *)
Lemma split_in_app {A} (a b t1 t2 : list A) (x : A) :
  (a ++ b)%list = (t1 ++ x :: t2)%list ->
  (exists a2, a = (t1 ++ x :: a2)%list /\ t2 = (a2 ++ b)%list)
  \/ exists t1', t1 = (a ++ t1')%list /\ b = (t1' ++ x :: t2)%list.
Proof.
  revert t1. induction a as [|y a IH]; intros t1 H.
  - right. exists t1. auto.
  - destruct t1 as [|z t1]; cbn in H; inversion H; subst.
    + left. exists a. auto.
    + destruct (IH t1 H2) as [(a2 & -> & ->)|(t1' & -> & ->)].
      * left. exists a2. auto.
      * right. exists t1'. auto.
Qed.

Lemma harmless_before_verification (self : automator) (ev : event) :
  harmless self ev -> before_verification self ev.
Proof. unfold harmless, before_verification. tauto. Qed.

Lemma before_verification_no_mark (self : automator) (t : list event) (ev : event) :
  Forall (before_verification self) t -> In ev t ->
  is_removal ev = false /\ ev <> wipe_started /\ ev <> preserve_verified self.
Proof. intros H Hin. rewrite Forall_forall in H. exact (H ev Hin). Qed.

Ltac not_failed_leaf :=
  solve [ intros Heq; cbn in Heq; discriminate Heq ].

Section Guard.

Context {W : Type} (O : OS W) (self : automator).

Lemma preserved_prefix r t1 t2 :
  Forall (harmless self) t1 -> preserved self r t2 -> preserved self r (t1 ++ t2)%list.
Proof.
  intros H1. destruct r as [e|temp]; cbn.
  - intros H2. apply Forall_app. split; [|exact H2].
    eapply Forall_impl; [apply harmless_before_verification|exact H1].
  - intros (-> & t0 & -> & H0). split; [reflexivity|].
    exists (t1 ++ t0)%list. rewrite app_assoc. split; [reflexivity|].
    apply Forall_app. auto.
Qed.

Lemma preserved_failure (e : exn) t :
  Forall (harmless self) t -> preserved self (inl e) t.
Proof.
  intros H. cbn. eapply Forall_impl; [apply harmless_before_verification|exact H].
Qed.

Lemma save_important_files_preserved :
  ensures (preserved self) (save_important_files O self).
Proof.
  unfold save_important_files.
  repeat (apply (ensures_bind (harmless self));
          [ apply preserved_prefix | apply preserved_failure
          | always_walk harmless_leaf | intros ? ]).
  match goal with
  | |- ensures _ (match ?x with _ => _ end) => destruct x as [|f missing]
  end; intros w.
  - cbn. split; [reflexivity|]. exists []. split; [reflexivity|constructor].
  - cbn. repeat constructor; intros Heq; cbn in Heq; discriminate Heq.
Qed.


(** What follows the preserve step never logs the failure mark. *)
Lemma after_save_not_failed (nwjs_dir temp_dir : path) :
  always (fun ev => ev <> preserve_failed)
    (clean_game_directory O self ;;
     copy_nwjs_to_game O self nwjs_dir ;;
     restore_important_files O self temp_dir ;;
     game_exe <- rename_executable O self ;;
     cleanup_nwjs_files O self ;;
     match game_exe with
     | None =>
         raise (Exn FileNotFoundError "Could not create game executable")
     | Some game_exe =>
         (if is_win32 O
          then create_shortcut_windows O self game_exe ;; ret tt
          else ret tt) ;;
         cleanup_temp_files O ;;
         logger_info "🎉 NW.js update completed successfully!" ;;
         logger_info ("🚀 Launch the game using: " ++ path_str game_exe) ;;
         logger_info "💡 Type 'process.versions' in the game console to check your new NW.js version!" ;;
         ret (Success game_exe (game_path self))
     end).
Proof.
  always_walk not_failed_leaf.
  all: try (apply always_prune_locales; intros; not_failed_leaf).
Qed.

Lemma guarded_prefix (r : exn + run_result) t1 t2 :
  Forall (harmless self) t1 -> guarded self r t2 ->
  guarded self r (t1 ++ t2)%list.
Proof.
  intros H1 [Hg Hf]. rewrite Forall_forall in H1. split.
  - intros u1 ev u2 Heq Hev.
    destruct (split_in_app _ _ _ _ _ Heq) as [(a2 & -> & _)|(u1' & -> & Heq')].
    + destruct (H1 ev) as (Hr & Hw & _);
        [apply in_or_app; right; now left|].
      destruct Hev as [->|Hev]; [now elim Hw|congruence].
    + apply in_or_app. right. eapply Hg; eauto.
  - intros Hin. apply in_app_or in Hin. destruct Hin as [Hin|Hin].
    + destruct (H1 _ Hin) as (_ & _ & _ & Hne). now elim Hne.
    + destruct (Hf Hin) as [He Hall]. split; [exact He|].
      apply Forall_app. split; [|exact Hall].
      rewrite Forall_forall. intros ev Hev.
      apply harmless_before_verification, H1, Hev.
Qed.

(** Harmless events after a guarded trace keep the order. *)
Lemma guarded_suffix (r : exn + run_result) t tail :
  guarded self r t -> Forall (harmless self) tail ->
  forall t1 ev t2,
    (t ++ tail)%list = (t1 ++ ev :: t2)%list ->
    ev = wipe_started \/ is_removal ev = true ->
    In (preserve_verified self) t1.
Proof.
  intros [Hg _] Htail t1 ev t2 Heq Hev. rewrite Forall_forall in Htail.
  destruct (split_in_app _ _ _ _ _ Heq) as [(a2 & Ht & _)|(t1' & -> & Heq')].
  - eapply Hg; eauto.
  - destruct (Htail ev) as (Hr & Hw & _);
      [rewrite Heq'; apply in_or_app; right; now left|].
    destruct Hev as [->|Hev]; [now elim Hw|congruence].
Qed.

Lemma guarded_failure (e : exn) t :
  Forall (harmless self) t -> guarded self (inl e) t.
Proof.
  intros H. rewrite <- (app_nil_r t). apply guarded_prefix; [exact H|].
  split.
  - intros [|? ?] ev u2 Heq; discriminate Heq.
  - intros [].
Qed.

Lemma process_steps_guarded (create_backup : bool) :
  ensures (guarded self) (process_steps O self create_backup).
Proof.
  unfold process_steps.
  apply (ensures_bind (harmless self));
    [apply guarded_prefix|apply guarded_failure|apply validate_harmless|].
  intros _.
  apply (ensures_bind (harmless self));
    [apply guarded_prefix|apply guarded_failure| |].
  { destruct create_backup; [|apply always_ret].
    apply always_bind; [apply backup_harmless|intros; apply always_ret]. }
  intros _.
  apply (ensures_bind (harmless self));
    [apply guarded_prefix|apply guarded_failure|apply setup_harmless|].
  intros nwjs_dir w.
  rewrite trace_bind, res_bind.
  pose proof (save_important_files_preserved w) as Hsave.
  destruct (res (save_important_files O self w)) as [e|temp_dir];
    cbn [preserved] in Hsave.
  - rewrite app_nil_r. split.
    + intros t1 ev t2 Heq Hev.
      assert (Hin : In ev (trace (save_important_files O self w))).
      { rewrite Heq. apply in_or_app. right. now left. }
      destruct (before_verification_no_mark _ _ _ Hsave Hin) as (Hr & Hw & _).
      destruct Hev as [->|Hev]; [now elim Hw|congruence].
    + intros _. split; [now exists e|exact Hsave].
  - destruct Hsave as (-> & t0 & -> & H0).
    pose proof (after_save_not_failed nwjs_dir (holding_area self)
                  (final (save_important_files O self w))) as Hrest.
    rewrite Forall_forall in H0, Hrest. split.
    + intros t1 ev t2 Heq Hev.
      destruct (split_in_app _ _ _ _ _ Heq) as [(a2 & Ha & _)|(t1' & -> & _)].
      * assert (Hin : In ev (t0 ++ [preserve_verified self])%list).
        { rewrite Ha. apply in_or_app. right. now left. }
        apply in_app_or in Hin. destruct Hin as [Hin|[<-|[]]].
        -- destruct (H0 ev Hin) as (Hr & Hw & _).
           destruct Hev as [->|Hev]; [now elim Hw|congruence].
        -- destruct Hev as [Hev|Hev]; discriminate Hev.
      * apply in_or_app. left. apply in_or_app. right. now left.
    + intros Hin. exfalso.
      apply in_app_or in Hin. destruct Hin as [Hin|Hin].
      * apply in_app_or in Hin. destruct Hin as [Hin|[Heq|[]]].
        -- destruct (H0 _ Hin) as (_ & _ & _ & Hne). now elim Hne.
        -- discriminate Heq.
      * exact (Hrest _ Hin eq_refl).
Qed.

(** [clean_game_directory] announces itself before anything else. *)
Lemma clean_game_directory_announced (w : W) :
  exists rest, trace (clean_game_directory O self w) = wipe_started :: rest.
Proof.
  unfold clean_game_directory, logger_info. rewrite trace_bind.
  cbn [emit res final trace app]. eauto.
Qed.

(** The order of the marks: [clean_game_directory] starts by logging its
    opening line, and [save_important_files] ends by logging its closing
    line when it returns (when it raises it has not logged it).  In every
    run of [process_game], the opening line of the wipe, and any call that
    removes or renames something, comes after that closing line.  And
    when the check fails, the run ends in failure without any such call
    and without the wipe being entered. *)
Lemma wipe_after_verification_mark (create_backup : bool) (w : W) :
  let o := process_game O self create_backup w in
  (exists rest, trace (clean_game_directory O self w) = wipe_started :: rest)
  /\ match res (save_important_files O self w) with
     | inr temp_dir =>
         exists t0,
           trace (save_important_files O self w)
           = (t0 ++ [preserve_verified self])%list
     | inl _ => ~ In (preserve_verified self)
                     (trace (save_important_files O self w))
     end
  /\ (forall t1 ev t2,
         trace o = (t1 ++ ev :: t2)%list ->
         ev = wipe_started \/ is_removal ev = true ->
         In (preserve_verified self) t1)
  /\ (In preserve_failed (trace o) ->
      (exists msg, res o = inr (Failure msg))
      /\ forall ev, In ev (trace o) ->
                    is_removal ev = false
                    /\ ev <> wipe_started
                    /\ ev <> preserve_verified self).
Proof.
  cbv zeta.
  split; [apply clean_game_directory_announced|].
  split.
  { pose proof (save_important_files_preserved w) as Hsave.
    destruct (res (save_important_files O self w)) as [e|temp_dir];
      cbn [preserved] in Hsave.
    - intros Hin.
      destruct (before_verification_no_mark _ _ _ Hsave Hin) as (_ & _ & Hne).
      now elim Hne.
    - destruct Hsave as (_ & t0 & Ht & _). eauto. }
  unfold process_game.
  pose proof (process_steps_guarded create_backup w) as Hsteps.
  rewrite trace_bind, res_bind. cbn [logger_info emit res final trace].
  rewrite trace_try_except, res_try_except.
  set (steps := process_steps O self create_backup w) in *.
  set (start := Log INFO ("Starting NW.js update for: "
                          ++ path_str (game_path self))).
  set (tail := match res steps with
               | inl e =>
                   trace ((logger_error ("❌ Update failed: " ++ exn_msg e) ;;
                           ret (Failure (exn_msg e))) (final steps))
               | inr _ => []
               end).
  assert (Hstart : harmless self start) by harmless_leaf.
  assert (Htail : Forall (harmless self) tail).
  { subst tail. destruct (res steps); [|constructor].
    cbn. repeat constructor; intros Heq; cbn in Heq; discriminate Heq. }
  split.
  - intros t1 ev t2 Heq Hev.
    change (([start] ++ (trace steps ++ tail))%list = (t1 ++ ev :: t2)%list)
      in Heq.
    destruct (split_in_app _ _ _ _ _ Heq) as [(a2 & Ha & _)|(t1' & -> & Heq')].
    + destruct t1 as [|? [|? ?]]; cbn in Ha; inversion Ha; subst ev.
      destruct Hstart as (Hr & Hw & _).
      destruct Hev as [Hev|Hev]; [now elim Hw|congruence].
    + apply in_or_app. right.
      eapply guarded_suffix; eauto.
  - cbn [app]. intros Hin. destruct Hin as [Heq|Hin]; [discriminate Heq|].
    apply in_app_or in Hin. destruct Hin as [Hin|Hin].
    + destruct Hsteps as [_ Hf]. destruct (Hf Hin) as [[e He] Hall].
      split.
      * rewrite He. cbn. eauto.
      * rewrite Forall_forall in Hall, Htail.
        intros ev [<-|Hev].
        -- destruct Hstart as (? & ? & ? & ?). auto.
        -- apply in_app_or in Hev. destruct Hev as [Hev|Hev];
             [apply Hall, Hev|].
           destruct (Htail ev Hev) as (? & ? & ? & ?). auto.
    + rewrite Forall_forall in Htail.
      destruct (Htail _ Hin) as (_ & _ & _ & Hne). now elim Hne.
Qed.

End Guard.

(** ** Methods that never raise *)

Section Returns.

Context {W : Type} (O : OS W).

Lemma returns_ret {A} (a : A) : returns (@ret W A a).
Proof. intros w. now exists a. Qed.

Lemma returns_emit (ev : event) : returns (@emit W ev).
Proof. intros w. now exists tt. Qed.

Lemma returns_bind {A B} (m : M W A) (k : A -> M W B) :
  returns m -> (forall a, returns (k a)) -> returns (bind m k).
Proof.
  intros Hm Hk w. rewrite res_bind. destruct (Hm w) as [a ->]. apply Hk.
Qed.

Lemma returns_try_except {A} (m : M W A) (h : exn -> M W A) :
  (forall e, returns (h e)) -> returns (try_except m h).
Proof.
  intros Hh w. rewrite res_try_except.
  destruct (res (m w)) as [e|a]; [apply Hh|now exists a].
Qed.

Lemma returns_for_each {A S} (xs : list A) (body : A -> S -> M W S) :
  (forall x acc, returns (body x acc)) ->
  forall acc, returns (for_each xs acc body).
Proof.
  intros Hbody. induction xs as [|x xs IH]; intros acc; cbn [for_each].
  - apply returns_ret.
  - apply returns_bind; [apply Hbody|intros; apply IH].
Qed.

Lemma returns_path_exists (p : path) : returns (path_exists O p).
Proof. intros w. eexists. reflexivity. Qed.

Lemma returns_is_dir (p : path) : returns (is_dir O p).
Proof. intros w. eexists. reflexivity. Qed.

Lemma returns_is_file (p : path) : returns (is_file O p).
Proof. intros w. eexists. reflexivity. Qed.

Lemma returns_prune_locales (items : list path) :
  forall count, returns (prune_locales O items count).
Proof.
  induction items as [|p items IH]; intros count; cbn [prune_locales].
  - apply returns_ret.
  - destruct (is_foreign_locale (name p)); [|apply IH].
    apply returns_bind; [apply returns_is_file|]. intros [|]; [|apply IH].
    apply returns_bind.
    + apply returns_try_except. intros; apply returns_ret.
    + intros [e|]; [apply returns_ret|].
      apply returns_bind; [apply returns_emit|intros; apply IH].
Qed.

End Returns.

Ltac returns_walk :=
  repeat first
    [ apply returns_ret
    | apply returns_emit
    | apply returns_path_exists
    | apply returns_is_dir
    | apply returns_is_file
    | apply returns_prune_locales
    | apply returns_try_except; intros ?
    | apply returns_bind; [|intros ?]
    | apply returns_for_each; intros ? ?
    | match goal with
      | |- returns (if ?b then _ else _) => destruct b
      | |- returns (match ?x with _ => _ end) => destruct x
      end
    | progress
        unfold cleanup_nwjs_files, remove_cleanup_file, cleanup_temp_files,
          create_shortcut_windows, logger_info, logger_warning, logger_error ].

Section FinalSteps.

Context {W : Type} (O : OS W) (self : automator).




End FinalSteps.

(** ** A rename that raises *)


Section RenameFailure.

Context {W : Type} (O : OS W) (self : automator).

(** The search loop returns the first candidate that exists, and does
    nothing else. *)
Lemma find_executable_first (names : list string) (w : W) :
  find_executable O self names w
  = Outcome
      (inr (option_map (child (game_path self))
              (find (fun c => os_exists O (game_path self // c) w) names)))
      w [].
Proof.
  induction names as [|c names IH]; [reflexivity|].
  cbn [find_executable find].
  erewrite bind_pure by apply run_path_exists.
  destruct (os_exists O (game_path self // c) w); [reflexivity|exact IH].
Qed.



Lemma run_bind_emit {B} (ev : event) (k : unit -> M W B) (w : W) :
  bind (emit ev) k w = prepend [ev] (k tt w).
Proof. reflexivity. Qed.

Lemma run_bind_sys {B} (c : syscall) (k : unit -> M W B) (w : W) :
  bind (sys O c) k w
  = match fst (os_run O c w) with
    | Some e => Outcome (inl e) (snd (os_run O c w)) [Sys c (Some e)]
    | None => prepend [Sys c None] (k tt (snd (os_run O c w)))
    end.
Proof.
  unfold bind, sys, prepend. destruct (os_run O c w) as [[e|] w'];
    reflexivity.
Qed.








End RenameFailure.

(** ** The backup *)

(** *** Paths around the target directory *)

Lemma length_append (a b : string) :
  String.length (a ++ b) = String.length a + String.length b.
Proof. induction a; cbn; congruence. Qed.

Lemma is_prefix_app (g a b : path) :
  is_prefix (g ++ a)%list (g ++ b)%list = is_prefix a b.
Proof.
  induction g as [|x g IH]; [reflexivity|].
  cbn. now rewrite String.eqb_refl, IH.
Qed.

Lemma related_app (g a b : path) :
  related (g ++ a)%list (g ++ b)%list = related a b.
Proof. unfold related. now rewrite !is_prefix_app. Qed.

Lemma path_snoc (p : path) :
  p <> [] -> p = (parent p ++ [name p])%list.
Proof. intros H. unfold parent, name. now apply app_removelast_last. Qed.

Lemma backup_name_differs (n : string) : String.eqb n (n ++ "_backup") = false.
Proof.
  apply String.eqb_neq. intros H. apply (f_equal String.length) in H.
  rewrite length_append in H. cbn in H. lia.
Qed.

Lemma holding_name_differs (n : string) :
  String.eqb ("temp_" ++ n ++ "_files") (n ++ "_backup") = false.
Proof.
  apply String.eqb_neq. intros H. apply (f_equal String.length) in H.
  rewrite !length_append in H. cbn in H. lia.
Qed.

Section BackupPaths.

Variable self : automator.
Hypothesis named : game_path self <> [].

(** Nothing inside the target directory is on the branch of the backup. *)
Lemma inside_target_unrelated (c : string) (rest : path) :
  related (game_path self // c ++ rest)%list (backup_path self) = false.
Proof.
  unfold backup_path, child.
  rewrite (path_snoc (game_path self) named) at 1.
  rewrite <- !app_assoc. rewrite related_app. cbn.
  unfold related. cbn.
  rewrite backup_name_differs, String.eqb_sym, backup_name_differs.
  reflexivity.
Qed.

Lemma child_unrelated (c : string) :
  related (game_path self // c) (backup_path self) = false.
Proof.
  rewrite <- (app_nil_r (game_path self // c)).
  apply inside_target_unrelated.
Qed.

Lemma grandchild_unrelated (c d : string) :
  related (game_path self // c // d) (backup_path self) = false.
Proof. apply (inside_target_unrelated c [d]). Qed.

Lemma holding_area_unrelated :
  related (holding_area self) (backup_path self) = false.
Proof.
  unfold holding_area, backup_path, child. rewrite related_app.
  unfold related. cbn [is_prefix].
  rewrite holding_name_differs, String.eqb_sym, holding_name_differs.
  reflexivity.
Qed.

End BackupPaths.

Create HintDb backup discriminated.

#[export] Hint Resolve child_unrelated grandchild_unrelated
  holding_area_unrelated : backup.


Section BackupSurvives.

Context {W : Type} (O : OS W) (self : automator).

Lemma always_bind_result {A B} (Q : event -> Prop) (R : A -> Prop)
      (m : M W A) (k : A -> M W B) :
  always Q m ->
  (forall w a, res (m w) = inr a -> R a) ->
  (forall a, R a -> always Q (k a)) ->
  always Q (bind m k).
Proof.
  intros Hm HR Hk w. rewrite trace_bind. apply Forall_app.
  split; [apply Hm|].
  destruct (res (m w)) as [e|a] eqn:E; [constructor|].
  apply Hk. eapply HR, E.
Qed.

Lemma iterdir_children (p : path) (w : W) (items : list path) :
  res (iterdir O p w) = inr items ->
  exists names, items = map (child p) names.
Proof.
  unfold iterdir. cbn [res].
  destruct (os_iterdir O p w) as [e|names]; intros H; inversion H.
  now exists names.
Qed.

Hypothesis named : game_path self <> [].
Hypothesis scratch_apart :
  related (scratch_dir O) (backup_path self) = false.













End BackupSurvives.

Section BackupFirst.

Context {W : Type} (O : OS W) (self : automator).






Lemma seq_ret_tt {A} (m : M W A) (w : W) :
  (m ;; ret tt) w
  = Outcome (match res (m w) with inl e => inl e | inr _ => inr tt end)
            (final (m w)) (trace (m w)).
Proof.
  unfold bind. destruct (res (m w)); cbn [ret res final trace];
    [reflexivity|]. now rewrite app_nil_r.
Qed.

(** The three ways [backup_game] can go. *)
Lemma backup_game_trace (w : W) :
  let o := backup_game O self w in
  let copy := Copytree (game_path self) (backup_path self) false in
  let creating :=
    Log INFO ("Creating backup: " ++ path_str (backup_path self)) in
  (exists a, res o = inr a
             /\ trace o = [Log INFO ("Backup already exists: "
                                     ++ path_str (backup_path self))])
  \/ (exists e, res o = inl e /\ trace o = [creating; Sys copy (Some e)])
  \/ (exists a, res o = inr a
                /\ trace o = [creating; Sys copy None;
                              Log INFO "✓ Backup created successfully"]).
Proof.
  cbv zeta. unfold backup_game, logger_info.
  erewrite bind_pure by apply run_path_exists.
  destruct (os_exists O (backup_path self) w).
  - left. rewrite run_bind_emit. cbn. eauto.
  - right. rewrite run_bind_emit, run_bind_sys.
    destruct (os_run O (Copytree (game_path self) (backup_path self) false) w)
      as [[e|] w']; cbn [fst snd prepend res final trace bind emit ret app];
      eauto.
Qed.



End BackupFirst.

(** ** The in-memory filesystem *)

Module SimFacts.

Import Sim.

Lemma assoc_remove_key_same (c : string) es :
  assoc c (remove_key c es) = None.
Proof.
  unfold remove_key. induction es as [|[k v] es IH]; [reflexivity|].
  cbn. destruct (String.eqb k c) eqn:E; cbn; [exact IH|].
  now rewrite E.
Qed.

Lemma assoc_remove_key_other (c k : string) es :
  k <> c -> assoc k (remove_key c es) = assoc k es.
Proof.
  intros Hne. unfold remove_key.
  induction es as [|[k' v] es IH]; [reflexivity|].
  cbn. destruct (String.eqb_spec k' c) as [->|Hk]; cbn.
  - destruct (String.eqb_spec c k) as [->|_]; [now elim Hne|exact IH].
  - now rewrite IH.
Qed.

Lemma assoc_slot_set_same (c : string) v es :
  assoc c (slot_set c v es) = v.
Proof.
  induction es as [|[k old] es IH]; cbn.
  - destruct v; cbn; [now rewrite String.eqb_refl|reflexivity].
  - destruct (String.eqb k c) eqn:E.
    + destruct v; cbn; [now rewrite E|apply assoc_remove_key_same].
    + cbn. now rewrite E.
Qed.

Lemma assoc_slot_set_other (c k : string) v es :
  k <> c -> assoc k (slot_set c v es) = assoc k es.
Proof.
  intros Hne. induction es as [|[k' old] es IH]; cbn.
  - destruct v; cbn; [|reflexivity].
    destruct (String.eqb_spec c k) as [->|_]; [now elim Hne|reflexivity].
  - destruct (String.eqb_spec k' c) as [->|Hk].
    + destruct (String.eqb_spec c k) as [->|_]; [now elim Hne|].
      destruct v; cbn.
      * destruct (String.eqb_spec c k) as [->|_]; [now elim Hne|].
        now apply assoc_remove_key_other.
      * now apply assoc_remove_key_other.
    + cbn. now rewrite IH.
Qed.

(** A slot below an existing directory can always be rewritten. *)
Lemma alter_child (g : path) (c : string) f n es :
  lookup g n = Some (Dir es) ->
  exists n', alter (g ++ [c])%list f n = Some n'.
Proof.
  revert n. induction g as [|x g IH]; intros n Hg; cbn in *.
  - inversion Hg; subst. eauto.
  - destruct n as [d|es']; [discriminate Hg|].
    destruct (assoc x es') as [m|] eqn:E; [|discriminate Hg].
    destruct (IH m Hg) as [m' Hm'].
    destruct (g ++ [c])%list eqn:Hgc; [now destruct g|].
    rewrite Hm'. eauto.
Qed.

(** After a slot has been rewritten it holds what was asked for. *)
Lemma lookup_alter_same (g : path) (c : string) f n n' :
  alter (g ++ [c])%list f n = Some n' ->
  lookup (g ++ [c])%list n' = f (lookup (g ++ [c])%list n).
Proof.
  revert n n'. induction g as [|x g IH]; intros n n' H; cbn in *.
  - destruct n as [d|es]; [discriminate H|].
    inversion H; subst. cbn. rewrite assoc_slot_set_same.
    destruct (assoc c es) as [m|]; cbn;
      match goal with |- context [f ?x] => destruct (f x) end;
      reflexivity.
  - destruct n as [d|es]; [discriminate H|].
    destruct (g ++ [c])%list as [|y rest] eqn:Hgc; [now destruct g|].
    destruct (assoc x es) as [m|] eqn:E; [|discriminate H].
    destruct (alter (y :: rest) f m) as [m'|] eqn:Hm; [|discriminate H].
    inversion H; subst. cbn [lookup]. rewrite assoc_slot_set_same.
    apply IH. exact Hm.
Qed.

(** Rewriting a slot leaves its siblings, and all below them, alone. *)
Lemma lookup_alter_sibling (g : path) (c d : string) (rest : path) f n n' :
  alter (g ++ [c])%list f n = Some n' ->
  d <> c ->
  lookup (g ++ d :: rest)%list n' = lookup (g ++ d :: rest)%list n.
Proof.
  revert n n'. induction g as [|x g IH]; intros n n' H Hne; cbn in *.
  - destruct n as [data|es]; [discriminate H|].
    inversion H; subst. cbn. now rewrite assoc_slot_set_other.
  - destruct n as [data|es]; [discriminate H|].
    destruct (g ++ [c])%list as [|y rest'] eqn:Hgc; [now destruct g|].
    destruct (assoc x es) as [m|] eqn:E; [|discriminate H].
    destruct (alter (y :: rest') f m) as [m'|] eqn:Hm; [|discriminate H].
    inversion H; subst. cbn [lookup]. rewrite assoc_slot_set_same.
    apply IH; assumption.
Qed.

(** The directory that holds a rewritten slot is still a directory. *)
Lemma lookup_alter_parent (g : path) (c : string) f n n' :
  alter (g ++ [c])%list f n = Some n' ->
  exists es', lookup g n' = Some (Dir es').
Proof.
  revert n n'. induction g as [|x g IH]; intros n n' H; cbn in *.
  - destruct n as [d|es]; [discriminate H|]. inversion H. eauto.
  - destruct n as [d|es]; [discriminate H|].
    destruct (g ++ [c])%list as [|y rest] eqn:Hgc; [now destruct g|].
    destruct (assoc x es) as [m|] eqn:E; [|discriminate H].
    destruct (alter (y :: rest) f m) as [m'|] eqn:Hm; [|discriminate H].
    inversion H; subst. cbn [lookup]. rewrite assoc_slot_set_same.
    eapply IH, Hm.
Qed.

(** An existing child sits in a directory. *)
Lemma lookup_child_parent (g : path) (c : string) n m :
  lookup (g ++ [c])%list n = Some m -> exists es, lookup g n = Some (Dir es).
Proof.
  revert n. induction g as [|x g IH]; intros n H; cbn in *.
  - destruct n as [d|es]; [discriminate H|]. eauto.
  - destruct n as [d|es]; [discriminate H|].
    destruct (assoc x es) as [m0|]; [|discriminate H]. eauto.
Qed.

Lemma path_eqb_child (g : path) (c d : string) :
  d <> c -> path_eqb (g ++ [c])%list (g ++ [d])%list = false.
Proof.
  intros Hne. induction g as [|x g IH]; cbn.
  - destruct (String.eqb_spec c d) as [->|_]; [now elim Hne|reflexivity].
  - now rewrite String.eqb_refl.
Qed.

Lemma is_prefix_child (g : path) (c d : string) :
  d <> c -> is_prefix (g ++ [c])%list (g ++ [d])%list = false.
Proof.
  intros Hne. rewrite is_prefix_app. cbn.
  destruct (String.eqb_spec c d) as [->|_]; [now elim Hne|reflexivity].
Qed.

End SimFacts.

(** ** The finalizer on the in-memory filesystem *)

Lemma find_first_split {A} (f : A -> bool) (l : list A) (x : A) :
  find f l = Some x ->
  exists before after,
    l = (before ++ x :: after)%list
    /\ f x = true
    /\ forall y, In y before -> f y = false.
Proof.
  induction l as [|a l IH]; intros H; [discriminate H|].
  cbn in H. destruct (f a) eqn:E.
  - inversion H; subst. exists [], l. repeat split; [exact E|intros y []].
  - destruct (IH H) as (before & after & -> & Hx & Hbefore).
    exists (a :: before), after. repeat split; [exact Hx|].
    intros y [<-|Hy]; [exact E|now apply Hbefore].
Qed.

Section SimRename.

Import Sim SimFacts.

Variables (platform : string) (w : world) (g : path).

(** Unlinking an unlocked file empties its slot. *)
Lemma run_unlink_file (c : string) (data : string) :
  lookup (g ++ [c])%list (root w) = Some (File data) ->
  frozen w (g ++ [c])%list = false ->
  exists r,
    run platform (Unlink (g ++ [c])%list) w = (None, with_root r w)
    /\ alter (g ++ [c])%list (fun _ => None) (root w) = Some r.
Proof.
  intros Hfile Hfree.
  destruct (lookup_child_parent _ _ _ _ Hfile) as [es Hdir].
  destruct (alter_child g c (fun _ => None) _ _ Hdir) as [r Hr].
  exists r. split; [|exact Hr].
  cbn [run]. rewrite Hfile, Hfree. unfold delete.
  destruct (g ++ [c])%list eqn:E; [now destruct g|].
  now rewrite Hr.
Qed.

(** Renaming an unlocked child to a free sibling name empties the one
    slot and fills the other. *)
Lemma run_rename_free (c d : string) (n : node) :
  lookup (g ++ [c])%list (root w) = Some n ->
  lookup (g ++ [d])%list (root w) = None ->
  d <> c ->
  frozen w (g ++ [c])%list = false ->
  frozen w (g ++ [d])%list = false ->
  exists r1 r2,
    run platform (Rename (g ++ [c])%list (g ++ [d])%list) w
    = (None, with_root r2 w)
    /\ alter (g ++ [c])%list (fun _ => None) (root w) = Some r1
    /\ alter (g ++ [d])%list (fun _ => Some n) r1 = Some r2.
Proof.
  intros Hsrc Hdst Hne Hfc Hfd.
  destruct (lookup_child_parent _ _ _ _ Hsrc) as [es Hdir].
  destruct (alter_child g c (fun _ => None) _ _ Hdir) as [r1 Hr1].
  destruct (lookup_alter_parent _ _ _ _ _ Hr1) as [es1 Hdir1].
  destruct (alter_child g d (fun _ => Some n) _ _ Hdir1) as [r2 Hr2].
  exists r1, r2. split; [|split; assumption].
  cbn [run]. rewrite Hsrc, Hfc, Hfd. cbn [orb].
  rewrite path_eqb_child, is_prefix_child by assumption.
  rewrite Hdst. unfold delete, put.
  destruct (g ++ [c])%list eqn:E; [now destruct g|].
  rewrite Hr1, Hr2. reflexivity.
Qed.

End SimRename.

Section Stepping.

Context {W : Type} (O : OS W).

Lemma bind_ok {A B} (m : M W A) (k : A -> M W B) (w w1 : W) (a : A) t1 :
  m w = Outcome (inr a) w1 t1 -> bind m k w = prepend t1 (k a w1).
Proof. intros H. unfold bind, prepend. now rewrite H. Qed.

Lemma sys_ok (c : syscall) (w w' : W) :
  os_run O c w = (None, w') -> sys O c w = Outcome (inr tt) w' [Sys c None].
Proof. intros H. unfold sys. now rewrite H. Qed.

End Stepping.

Section Finalizer.

Import Sim SimFacts.

Variables (platform machine : string) (wd : path) (self : automator).

(** C6, as the code has it.  The candidates are [nw.exe], [nwjs.exe] on
    Windows, [nwjs], [nw] on macOS and [nw], [nwjs] elsewhere, in this
    order, and the search takes the first of them that exists.  On the
    in-memory filesystem, whose names are case-sensitive: when the
    destination name is one path component, is not that candidate's own
    name, is not taken by a directory, and neither path is locked, the
    method returns the destination; what the candidate held is now at the
    destination, replacing whatever file was there; the candidate's old
    name is free; and every other child of the target directory, with all
    below it, is as it was. *)
Theorem rename_executable_moves_first_match (w : world) (c : string) :
  let O := sim_os platform machine wd in
  let game := game_path self in
  let dest := game_exe_name O self in
  find (fun x => exists_ (game // x) w) (possible_executables O) = Some c ->
  plain_name dest = true ->
  dest <> c ->
  is_dir_ (game // dest) w = false ->
  frozen w (game // c) = false ->
  frozen w (game // dest) = false ->
  let o := rename_executable O self w in
  possible_executables O
  = (if String.eqb platform "win32" then ["nw.exe"; "nwjs.exe"]
     else if String.eqb platform "darwin" then ["nwjs"; "nw"]
     else ["nw"; "nwjs"])
  /\ (exists before after,
         possible_executables O = (before ++ c :: after)%list
         /\ forall x, In x before -> exists_ (game // x) w = false)
  /\ res o = inr (Some (game // dest))
  /\ (exists n,
         lookup (game // c) (root w) = Some n
         /\ lookup (game // dest) (root (final o)) = Some n)
  /\ lookup (game // c) (root (final o)) = None
  /\ forall other rest,
      other <> c -> other <> dest ->
      lookup (game // other ++ rest)%list (root (final o))
      = lookup (game // other ++ rest)%list (root w).
Proof.
  intros O game dest Hfind _ Hne Hnodir Hfc Hfd o.
  destruct (find_first_split _ _ _ Hfind) as (before & after & Hlist & Hc & Hb).
  split; [reflexivity|].
  split; [eauto|].
  unfold child in *.
  unfold exists_ in Hc.
  destruct (lookup (game ++ [c])%list (root w)) as [n|] eqn:Hsrc;
    [|discriminate Hc].
  clear Hc.
  (* the state after the destination has been cleared *)
  assert (Hclear :
    exists w1 t1,
      (if exists_ (game // dest) w
       then sys O (Unlink (game // dest)) else ret tt) w
      = Outcome (inr tt) w1 t1
      /\ locked w1 = locked w
      /\ lookup (game // c) (root w1) = Some n
      /\ lookup (game // dest) (root w1) = None
      /\ forall other rest,
          other <> dest ->
          lookup (game // other ++ rest)%list (root w1)
          = lookup (game // other ++ rest)%list (root w)).
  { unfold exists_, is_dir_, child in *.
    destruct (lookup (game ++ [dest])%list (root w)) as [[data|es]|] eqn:Hdst;
      [|discriminate Hnodir|].
    - destruct (run_unlink_file platform w game dest data Hdst Hfd)
        as (r & Hrun & Halter).
      exists (with_root r w), [Sys (Unlink (game ++ [dest])%list) None].
      split; [apply sys_ok, Hrun|]. split; [reflexivity|].
      cbn [root with_root]. split; [|split].
      + rewrite <- Hsrc.
        apply (lookup_alter_sibling game dest c [] _ _ _ Halter).
        congruence.
      + apply (lookup_alter_same game dest _ _ _ Halter).
      + intros other rest Hother. rewrite <- app_assoc.
        apply (lookup_alter_sibling game dest other rest _ _ _ Halter Hother).
    - exists w, []. repeat split; auto. }
  destruct Hclear as (w1 & t1 & Hrun1 & Hlocked & Hsrc1 & Hdst1 & Hother1).
  assert (Hfc1 : frozen w1 (game ++ [c])%list = false)
    by (unfold frozen in *; now rewrite Hlocked).
  assert (Hfd1 : frozen w1 (game ++ [dest])%list = false)
    by (unfold frozen in *; now rewrite Hlocked).
  destruct (run_rename_free platform w1 game c dest n Hsrc1 Hdst1 Hne Hfc1 Hfd1)
    as (r1 & r2 & Hrun2 & Halter1 & Halter2).
  assert (Hdest2 : lookup (game // dest) r2 = Some n)
    by (unfold child; apply (lookup_alter_same game dest _ _ _ Halter2)).
  assert (Hsrc2 : lookup (game // c) r2 = None).
  { unfold child. rewrite (lookup_alter_sibling game dest c [] _ _ _ Halter2)
      by congruence.
    apply (lookup_alter_same game c _ _ _ Halter1). }
  assert (Hother2 : forall other rest,
             other <> c -> other <> dest ->
             lookup (game // other ++ rest)%list r2
             = lookup (game // other ++ rest)%list (root w)).
  { intros other rest Hoc Hod.
    rewrite <- Hother1 by exact Hod. unfold child. rewrite <- !app_assoc.
    change ([other] ++ rest)%list with (other :: rest).
    rewrite (lookup_alter_sibling game dest other rest _ _ _ Halter2 Hod).
    apply (lookup_alter_sibling game c other rest _ _ _ Halter1 Hoc). }
  (* the run itself *)
  assert (Hrun :
    exists t, o = Outcome (inr (Some (game // dest))) (with_root r2 w1) t).
  { subst o. unfold rename_executable, logger_info, logger_error.
    rewrite run_bind_emit.
    erewrite bind_ok by apply find_executable_first.
    cbn [os_exists O sim_os]. fold game. unfold child.
    rewrite Hfind. cbn [option_map].
    rewrite run_try_except.
    erewrite bind_pure by apply run_path_exists.
    cbn [os_exists O sim_os]. fold game. fold dest. unfold child.
    erewrite bind_ok by exact Hrun1.
    erewrite bind_ok by (apply sys_ok; exact Hrun2).
    assert (Hchmod :
      run platform (Chmod (game // dest)) (with_root r2 w1)
      = (None, with_root r2 w1)).
    { unfold child in *. cbn [run root with_root]. rewrite Hdest2.
      unfold frozen in *. cbn [locked with_root]. now rewrite Hfd1. }
    destruct (negb (is_win32 O)).
    - erewrite bind_ok by (apply sys_ok; exact Hchmod).
      rewrite run_bind_emit.
      unfold prepend, ret. cbn [res final trace]. eexists. reflexivity.
    - rewrite (bind_pure _ _ _ tt) by reflexivity.
      rewrite run_bind_emit.
      unfold prepend, ret. cbn [res final trace]. eexists. reflexivity. }
  destruct Hrun as [t ->]. cbn [res final root with_root].
  split; [reflexivity|]. split; [eauto|]. split; assumption.
Qed.

End Finalizer.

(** ** The validator and the manifest *)

Lemma dict_get_set_same (key : string) (v : json) d :
  dict_get key (dict_set key v d) = Some v.
Proof.
  induction d as [|[k old] d IH]; cbn.
  - now rewrite String.eqb_refl.
  - destruct (String.eqb k key) eqn:E; cbn; now rewrite E.
Qed.

Lemma dict_get_set_other (key k : string) (v : json) d :
  k <> key -> dict_get k (dict_set key v d) = dict_get k d.
Proof.
  intros Hne. induction d as [|[k' old] d IH]; cbn.
  - destruct (String.eqb_spec key k) as [->|_]; [now elim Hne|reflexivity].
  - destruct (String.eqb_spec k' key) as [->|Hk]; cbn.
    + destruct (String.eqb_spec key k) as [->|_]; [now elim Hne|reflexivity].
    + now rewrite IH.
Qed.

Lemma derived_name_nonempty (self : automator) :
  name (game_path self) <> "" -> derived_game_name self <> "".
Proof.
  unfold derived_game_name. destruct (name (game_path self)); [congruence|].
  intros _. cbn. discriminate.
Qed.

Section Validator.

Context {W : Type} (O : OS W) (self : automator).

Lemma try_ok {A} (m : M W A) (h : exn -> M W A) (w w1 : W) (a : A) t :
  m w = Outcome (inr a) w1 t -> try_except m h w = Outcome (inr a) w1 t.
Proof. intros H. unfold try_except. now rewrite H. Qed.

(** For a manifest that is an object without a usable name, in a target
    directory that has a name, and a write that goes through: the
    validator succeeds and writes the document with the derived name, all
    other fields as they were. *)
Lemma validator_fixes_missing_name (w w' : W) text d :
  let p := game_path self // "package.json" in
  let fixed := dict_set "name" (JString (derived_game_name self)) d in
  os_exists O (game_path self) w = true ->
  os_exists O p w = true ->
  os_exists O (game_path self // "www") w = true ->
  os_read_text O p w = inr text ->
  json_loads O text = inr (JObject d) ->
  name_missing_or_empty d = true ->
  os_run O (WriteText p (json_dumps O (JObject fixed))) w = (None, w') ->
  res (validate_game_directory O self w) = inr tt
  /\ final (validate_game_directory O self w) = w'
  /\ In (Sys (WriteText p (json_dumps O (JObject fixed))) None)
        (trace (validate_game_directory O self w))
  /\ dict_get "name" fixed = Some (JString (derived_game_name self))
  /\ derived_game_name self
     = Py.lower (Py.replace_space_hyphen (name (game_path self)))
  /\ (name (game_path self) <> "" -> derived_game_name self <> "")
  /\ forall k, k <> "name" -> dict_get k fixed = dict_get k d.
Proof.
  intros p fixed Hgame Hmanifest Hwww Hread Hparse Hmissing Hwrite.
  assert (Hfix :
    validate_and_fix_package_json O self p w
    = Outcome (inr tt) w'
        [Log INFO "Validating package.json...";
         Log INFO ("  Fixed: Added missing 'name' field: "
                   ++ derived_game_name self);
         Sys (WriteText p (json_dumps O (JObject fixed))) None;
         Log INFO "✓ package.json fixes saved"]).
  { unfold validate_and_fix_package_json, logger_info.
    rewrite run_bind_emit.
    erewrite bind_ok.
    2:{ apply try_ok.
        erewrite bind_pure by (unfold read_text; rewrite Hread; reflexivity).
        unfold json_load. rewrite Hparse. reflexivity. }
    cbv beta iota. rewrite Hmissing. cbv zeta. rewrite run_bind_emit.
    erewrite try_ok.
    2:{ erewrite bind_ok by (apply sys_ok; exact Hwrite). reflexivity. }
    reflexivity. }
  assert (Hrun :
    validate_game_directory O self w
    = Outcome (inr tt) w'
        [Log INFO "Validating package.json...";
         Log INFO ("  Fixed: Added missing 'name' field: "
                   ++ derived_game_name self);
         Sys (WriteText p (json_dumps O (JObject fixed))) None;
         Log INFO "✓ package.json fixes saved";
         Log INFO ("✓ Valid RPG Maker MV game found at: "
                   ++ path_str (game_path self))]).
  { unfold validate_game_directory.
    erewrite bind_pure by apply run_path_exists. rewrite Hgame. cbn [negb].
    erewrite bind_pure by apply run_path_exists.
    fold p. rewrite Hmanifest. cbn [negb].
    erewrite bind_pure by apply run_path_exists. rewrite Hwww. cbn [negb].
    erewrite bind_ok by (apply try_ok; exact Hfix).
    reflexivity. }
  rewrite Hrun. cbn [res final trace].
  split; [reflexivity|]. split; [reflexivity|].
  split; [right; right; now left|].
  split; [apply dict_get_set_same|].
  split; [reflexivity|].
  split; [apply derived_name_nonempty|].
  intros k Hk. now apply dict_get_set_other.
Qed.

End Validator.

(** ** The pipeline on concrete worlds *)

Module Runs.

Import Sim Example.

(** *** The validator *)

(** C3 at the input where the code departs from it: the tool is started
    with the target directory given as [.] (the anchor, whose name is
    empty) and a manifest without a name.  The validator succeeds, and the
    manifest it writes carries an empty identifier. *)
Theorem validator_writes_empty_identifier :
  let o := validate_game_directory linux_here here here_world in
  name (game_path here) = ""
  /\ read_text_ (game_path here // "package.json") here_world = inr "{}"
  /\ res o = inr tt
  /\ exists text d,
      read_text_ (game_path here // "package.json") (final o) = inr text
      /\ Json.loads text = inr (JObject d)
      /\ dict_get "name" d = Some (JString "").
Proof.
  cbv zeta. repeat split.
  eexists _, _. repeat split; vm_compute; reflexivity.
Qed.

(** A manifest that parses, to a list, makes the validator raise. *)
Lemma validator_rejects_list_manifest :
  Json.loads "[]" = inr (JArray [])
  /\ exists msg,
      res (validate_game_directory linux (settings "Game") listy)
      = inl (Exn TypeError msg).
Proof. split; [reflexivity|]. eexists. vm_compute. reflexivity. Qed.

(** In a directory that has a name the fix is as the specification says. *)
Lemma validator_fixes_my_game :
  let o := validate_game_directory linux (settings "Game") fresh in
  res o = inr tt
  /\ read_text_ (game // "package.json") (final o)
     = inr (Json.dumps (JObject [("name", JString "my-game")])).
Proof. split; vm_compute; reflexivity. Qed.

(** *** The theorems at work *)


Lemma get_nwjs_download_url_documented_witness :
  get_nwjs_download_url linux_here here
  = get_nwjs_download_url linux (settings "Game")
  /\ get_nwjs_download_url linux (settings "Game")
     = ("https://dl.nwjs.io/v0.49.2/nwjs-sdk-v0.49.2-linux-x64.tar.gz",
        "nwjs-sdk-v0.49.2-linux-x64.tar.gz").
Proof.
  split; [|reflexivity].
  apply (get_nwjs_download_url_documented linux linux_here
           (settings "Game") here); reflexivity.
Defined.

Lemma clean_game_directory_best_effort_witness :
  exists body n,
    let o := clean_game_directory linux (settings "Game") cluttered in
    res o = inr tt
    /\ trace o
       = (Log INFO "Cleaning game directory (deleting everything)..."
          :: body ++ [Log INFO (removed_report n)])%list
    /\ n = count_events removal_succeeded body
    /\ count_events is_warning body = count_events removal_failed body
    /\ removal_targets body
       = map (child game) ["a.txt"; "readonly.dat"; "b.txt"]
    /\ n + count_events removal_failed body = 3.
Proof.
  apply (clean_game_directory_best_effort linux (settings "Game") cluttered
           ["a.txt"; "readonly.dat"; "b.txt"]).
  reflexivity.
Defined.

(** The scenario of the specification: two files go, one stays, one
    warning, the report says 2, nothing is raised. *)
Lemma clean_two_of_three :
  let o := clean_game_directory linux (settings "Game") cluttered in
  res o = inr tt
  /\ count_events removal_succeeded (trace o) = 2
  /\ count_events is_warning (trace o) = 1
  /\ last (trace o) wipe_started = Log INFO (removed_report 2)
  /\ iterdir_ game (final o) = inr ["readonly.dat"].
Proof. repeat split; vm_compute; reflexivity. Qed.

Lemma rename_executable_moves_first_match_witness :
  let w := installed [("Game", File "old")] in
  let o := rename_executable linux (settings "Game") w in
  res o = inr (Some (game // "Game"))
  /\ lookup (game // "Game") (root (final o)) = Some (File "NW")
  /\ lookup (game // "nw") (root (final o)) = None
  /\ lookup (game // "nwjs") (root (final o)) = Some (File "NWJS").
Proof.
  cbv zeta.
  destruct (rename_executable_moves_first_match
              "linux" "x86_64" home (settings "Game")
              (installed [("Game", File "old")]) "nw")
    as (_ & _ & Hres & (n & Hn & Hdest) & Hsrc & Hother);
    [reflexivity|reflexivity|discriminate|reflexivity|reflexivity
    |reflexivity|].
  vm_compute in Hn. inversion Hn; subst n.
  split; [exact Hres|].
  split; [exact Hdest|].
  split; [exact Hsrc|].
  exact (Hother "nwjs" [] ltac:(discriminate) ltac:(discriminate)).
Defined.


Lemma validator_idempotent_witness :
  let p := game // "package.json" in
  let first := validate_and_fix_package_json linux (settings "Game") p fresh in
  let second :=
    validate_and_fix_package_json linux (settings "Game") p (final first) in
  res second = inr tt
  /\ final second = final first
  /\ trace second = [Log INFO "Validating package.json..."]
  /\ read_text_ p (final second) = read_text_ p (final first).
Proof.
  cbv zeta.
  apply (validator_idempotent linux (settings "Game") (game // "package.json")
           fresh fixed_manifest [("name", JString "my-game")]
           (JString "my-game"));
    vm_compute; reflexivity.
Defined.


Lemma backup_game_keeps_existing_witness :
  backup_game linux (settings "Game") stale
  = Outcome (inr (home // "My Game_backup")) stale
      [Log INFO "Backup already exists: home/My Game_backup"]
  /\ lookup (home // "My Game_backup") (root stale)
     = Some (Dir [("old.txt", File "stale")]).
Proof.
  split; [|reflexivity].
  apply (backup_game_keeps_existing linux (settings "Game") stale).
  reflexivity.
Defined.

(** *** Where the specification says more than the code does *)


(** C6 as stated fails when the chosen name is the name of the
    lower-priority candidate: both [nw] and [nwjs] exist, [nw] is found
    first, and [nwjs] is not left untouched: it is unlinked and replaced
    by what [nw] held.  And when the chosen name is that of the candidate
    found, the candidate is unlinked, the rename raises, and the path
    handed back names nothing. *)
Lemma lower_priority_candidate_overwritten :
  (let w := installed [] in
   let o := rename_executable linux (settings "nwjs") w in
   possible_executables linux = ["nw"; "nwjs"]
   /\ lookup (game // "nw") (root w) = Some (File "NW")
   /\ lookup (game // "nwjs") (root w) = Some (File "NWJS")
   /\ res o = inr (Some (game // "nwjs"))
   /\ lookup (game // "nwjs") (root (final o)) = Some (File "NW")
   /\ In (Sys (Unlink (game // "nwjs")) None) (trace o))
  /\ (let w := installed [] in
      let o := rename_executable linux (settings "nw") w in
      res o = inr (Some (game // "nw"))
      /\ lookup (game // "nw") (root (final o)) = None).
Proof.
  split; cbv zeta; repeat split; try (vm_compute; reflexivity).
  apply (nth_error_In _ 1). vm_compute. reflexivity.
Qed.


End Runs.

(** * Further properties of the methods *)

(** ** The validator's refusals *)

Section Refusals.

Context {W : Type} (O : OS W) (self : automator).

(** A run ends where the validation of the target raised: the exception
    becomes the error of the result. *)
Lemma process_game_stops_at_validation (create_backup : bool) (w w' : W)
      (e : exn) (t : list event) :
  validate_game_directory O self w = Outcome (inl e) w' t ->
  process_game O self create_backup w
  = Outcome (inr (Failure (exn_msg e))) w'
      (Log INFO ("Starting NW.js update for: " ++ path_str (game_path self))
       :: t ++ [Log ERROR ("❌ Update failed: " ++ exn_msg e)])%list.
Proof.
  intros H. unfold process_game, logger_info, logger_error.
  rewrite run_bind_emit. unfold process_steps.
  rewrite run_try_except. rewrite run_bind, H. cbn [res final trace].
  rewrite run_bind_emit. reflexivity.
Qed.


(** The validator, once the three checks of the target have passed. *)
Lemma validate_game_directory_checked (w : W) :
  os_exists O (game_path self) w = true ->
  os_exists O (game_path self // "package.json") w = true ->
  os_exists O (game_path self // "www") w = true ->
  validate_game_directory O self w
  = (try_except
       (validate_and_fix_package_json O self (game_path self // "package.json"))
       (fun e =>
          logger_error ("Failed to validate/fix package.json: " ++ exn_msg e) ;;
          raise e) ;;
     logger_info ("✓ Valid RPG Maker MV game found at: "
                  ++ path_str (game_path self))) w.
Proof.
  intros Hgame Hmanifest Hwww. unfold validate_game_directory.
  erewrite bind_pure by apply run_path_exists. rewrite Hgame. cbn [negb].
  erewrite bind_pure by apply run_path_exists. rewrite Hmanifest. cbn [negb].
  erewrite bind_pure by apply run_path_exists. rewrite Hwww. reflexivity.
Qed.

(** What the checked validator does with an exception of the manifest
    step: it logs it and raises it again. *)
Lemma validate_game_directory_reraises (w w' : W) (e : exn) t :
  os_exists O (game_path self) w = true ->
  os_exists O (game_path self // "package.json") w = true ->
  os_exists O (game_path self // "www") w = true ->
  validate_and_fix_package_json O self (game_path self // "package.json") w
  = Outcome (inl e) w' t ->
  validate_game_directory O self w
  = Outcome (inl e) w'
      (t ++ [Log ERROR ("Failed to validate/fix package.json: "
                        ++ exn_msg e)])%list.
Proof.
  intros Hgame Hmanifest Hwww Hfix.
  rewrite validate_game_directory_checked by assumption.
  rewrite run_bind, run_try_except, Hfix. cbn [res final trace].
  unfold logger_error. rewrite run_bind_emit. reflexivity.
Qed.

(** X2: a manifest that cannot be read, or whose text is not JSON, makes
    the manifest step raise a [ValueError] whose message starts with
    [Invalid JSON in package.json: ] for a decoding error and with
    [Could not read package.json: ] otherwise, followed by the message of
    the cause.  Nothing is written; the validator logs the failure and
    raises the same exception. *)
Theorem manifest_unreadable_or_malformed (w : W) (cause : exn) :
  let p := game_path self // "package.json" in
  let e :=
    Exn ValueError
        ((if is_json_decode_error cause
          then "Invalid JSON in package.json: "
          else "Could not read package.json: ") ++ exn_msg cause) in
  os_read_text O p w = inl cause
  \/ (exists text, os_read_text O p w = inr text
                   /\ json_loads O text = inl cause) ->
  validate_and_fix_package_json O self p w
  = Outcome (inl e) w [Log INFO "Validating package.json..."]
  /\ (os_exists O (game_path self) w = true ->
      os_exists O p w = true ->
      os_exists O (game_path self // "www") w = true ->
      validate_game_directory O self w
      = Outcome (inl e) w
          [Log INFO "Validating package.json...";
           Log ERROR ("Failed to validate/fix package.json: " ++ exn_msg e)]
      /\ forall create_backup,
          res (process_game O self create_backup w)
          = inr (Failure (exn_msg e))
          /\ final (process_game O self create_backup w) = w).
Proof.
  intros p e Hcause.
  assert (Hload :
    (text <- read_text O p ;; json_load O text) w = Outcome (inl cause) w []).
  { destruct Hcause as [Hread|(text & Hread & Hparse)].
    - rewrite run_bind. unfold read_text. rewrite Hread. reflexivity.
    - erewrite bind_pure by (unfold read_text; rewrite Hread; reflexivity).
      unfold json_load. rewrite Hparse. reflexivity. }
  assert (Hfix :
    validate_and_fix_package_json O self p w
    = Outcome (inl e) w [Log INFO "Validating package.json..."]).
  { unfold validate_and_fix_package_json, logger_info.
    rewrite run_bind_emit. rewrite run_bind, run_try_except, Hload.
    cbn [res final trace]. subst e.
    destruct (is_json_decode_error cause); reflexivity. }
  split; [exact Hfix|].
  intros Hgame Hmanifest Hwww.
  pose proof (validate_game_directory_reraises _ _ _ _
                Hgame Hmanifest Hwww Hfix) as Hv.
  split; [exact Hv|]. intros create_backup.
  rewrite (process_game_stops_at_validation create_backup _ _ _ _ Hv).
  split; reflexivity.
Qed.

(** X3: a manifest that is valid JSON but not an object makes the manifest
    step raise a [TypeError] before anything is written or logged as
    fixed; a run on a target with such a manifest fails and leaves the
    world as it found it. *)
Theorem manifest_not_an_object (w : W) (text : string) (v : json) :
  let p := game_path self // "package.json" in
  os_read_text O p w = inr text ->
  json_loads O text = inr v ->
  (forall d, v <> JObject d) ->
  validate_and_fix_package_json O self p w
  = Outcome (inl (Exn TypeError (not_a_dict_message v))) w
      [Log INFO "Validating package.json..."]
  /\ (os_exists O (game_path self) w = true ->
      os_exists O p w = true ->
      os_exists O (game_path self // "www") w = true ->
      forall create_backup,
        exists t,
          process_game O self create_backup w
          = Outcome (inr (Failure (not_a_dict_message v))) w t
          /\ Forall (fun ev => is_sys ev = false) t).
Proof.
  intros p Hread Hparse Hv.
  assert (Hfix :
    validate_and_fix_package_json O self p w
    = Outcome (inl (Exn TypeError (not_a_dict_message v))) w
        [Log INFO "Validating package.json..."]).
  { unfold validate_and_fix_package_json, logger_info.
    rewrite run_bind_emit.
    erewrite bind_ok.
    2:{ apply try_ok.
        erewrite bind_pure by (unfold read_text; rewrite Hread; reflexivity).
        unfold json_load. rewrite Hparse. reflexivity. }
    destruct v; try reflexivity. now elim (Hv fields). }
  split; [exact Hfix|].
  intros Hgame Hmanifest Hwww create_backup.
  pose proof (validate_game_directory_reraises _ _ _ _
                Hgame Hmanifest Hwww Hfix) as Hrun.
  rewrite (process_game_stops_at_validation create_backup _ _ _ _ Hrun).
  eexists. split; [reflexivity|].
  repeat constructor.
Qed.

(** X4: when the rewritten manifest cannot be saved, the failure is logged
    and the exception of the write is raised again, after the line that
    announces the fix; a run on such a target fails with the message of
    the write, in the world the failed write left. *)
Theorem manifest_write_failure (w w' : W) (text : string) d (e : exn) :
  let p := game_path self // "package.json" in
  let fixed := JObject (dict_set "name" (JString (derived_game_name self)) d) in
  os_read_text O p w = inr text ->
  json_loads O text = inr (JObject d) ->
  name_missing_or_empty d = true ->
  os_run O (WriteText p (json_dumps O fixed)) w = (Some e, w') ->
  validate_and_fix_package_json O self p w
  = Outcome (inl e) w'
      [Log INFO "Validating package.json...";
       Log INFO ("  Fixed: Added missing 'name' field: "
                 ++ derived_game_name self);
       Sys (WriteText p (json_dumps O fixed)) (Some e);
       Log ERROR ("Could not save package.json fixes: " ++ exn_msg e)]
  /\ (os_exists O (game_path self) w = true ->
      os_exists O p w = true ->
      os_exists O (game_path self // "www") w = true ->
      forall create_backup,
        res (process_game O self create_backup w) = inr (Failure (exn_msg e))
        /\ final (process_game O self create_backup w) = w').
Proof.
  intros p fixed Hread Hparse Hmissing Hwrite.
  assert (Hfix :
    validate_and_fix_package_json O self p w
    = Outcome (inl e) w'
        [Log INFO "Validating package.json...";
         Log INFO ("  Fixed: Added missing 'name' field: "
                   ++ derived_game_name self);
         Sys (WriteText p (json_dumps O fixed)) (Some e);
         Log ERROR ("Could not save package.json fixes: " ++ exn_msg e)]).
  { unfold validate_and_fix_package_json, logger_info, logger_error.
    rewrite run_bind_emit.
    erewrite bind_ok.
    2:{ apply try_ok.
        erewrite bind_pure by (unfold read_text; rewrite Hread; reflexivity).
        unfold json_load. rewrite Hparse. reflexivity. }
    cbv beta iota. rewrite Hmissing. cbv zeta. rewrite run_bind_emit.
    rewrite run_try_except, run_bind_sys. fold fixed. fold p. rewrite Hwrite.
    cbn [fst snd res final trace]. rewrite run_bind_emit. reflexivity. }
  split; [exact Hfix|].
  intros Hgame Hmanifest Hwww create_backup.
  pose proof (validate_game_directory_reraises _ _ _ _
                Hgame Hmanifest Hwww Hfix) as Hrun.
  rewrite (process_game_stops_at_validation create_backup _ _ _ _ Hrun).
  split; reflexivity.
Qed.

End Refusals.

(** ** The manifest that is written *)

Lemma dict_set_keys (key : string) (v : json) d :
  map fst (dict_set key v d)
  = match dict_get key d with
    | Some _ => map fst d
    | None => (map fst d ++ [key])%list
    end.
Proof.
  induction d as [|[k old] d IH]; [reflexivity|].
  cbn [dict_set dict_get]. destruct (String.eqb k key); [reflexivity|].
  cbn [map fst]. rewrite IH. now destruct (dict_get key d).
Qed.

Section Repair.

Context {W : Type} (O : OS W) (self : automator).

(** X5: for a manifest that is an object without a usable name, and a
    write that goes through, the validator succeeds with exactly one
    system call, the rewrite of the manifest.  The document it writes
    carries the derived identifier under [name]; every other field has the
    value it had, and the fields keep their order: [name] stays where it
    was, or goes last when it was missing. *)
Theorem manifest_name_repaired (w w' : W) (text : string) d :
  let p := game_path self // "package.json" in
  let fixed := dict_set "name" (JString (derived_game_name self)) d in
  os_exists O (game_path self) w = true ->
  os_exists O p w = true ->
  os_exists O (game_path self // "www") w = true ->
  os_read_text O p w = inr text ->
  json_loads O text = inr (JObject d) ->
  name_missing_or_empty d = true ->
  os_run O (WriteText p (json_dumps O (JObject fixed))) w = (None, w') ->
  validate_game_directory O self w
  = Outcome (inr tt) w'
      [Log INFO "Validating package.json...";
       Log INFO ("  Fixed: Added missing 'name' field: "
                 ++ derived_game_name self);
       Sys (WriteText p (json_dumps O (JObject fixed))) None;
       Log INFO "✓ package.json fixes saved";
       Log INFO ("✓ Valid RPG Maker MV game found at: "
                 ++ path_str (game_path self))]
  /\ dict_get "name" fixed = Some (JString (derived_game_name self))
  /\ (forall k, k <> "name" -> dict_get k fixed = dict_get k d)
  /\ map fst fixed
     = match dict_get "name" d with
       | Some _ => map fst d
       | None => (map fst d ++ ["name"])%list
       end.
Proof.
  intros p fixed Hgame Hmanifest Hwww Hread Hparse Hmissing Hwrite.
  split; [|split; [apply dict_get_set_same|split;
                   [intros k Hk; now apply dict_get_set_other
                   |apply dict_set_keys]]].
  assert (Hfix :
    validate_and_fix_package_json O self p w
    = Outcome (inr tt) w'
        [Log INFO "Validating package.json...";
         Log INFO ("  Fixed: Added missing 'name' field: "
                   ++ derived_game_name self);
         Sys (WriteText p (json_dumps O (JObject fixed))) None;
         Log INFO "✓ package.json fixes saved"]).
  { unfold validate_and_fix_package_json, logger_info.
    rewrite run_bind_emit.
    erewrite bind_ok.
    2:{ apply try_ok.
        erewrite bind_pure by (unfold read_text; rewrite Hread; reflexivity).
        unfold json_load. rewrite Hparse. reflexivity. }
    cbv beta iota. rewrite Hmissing. cbv zeta. rewrite run_bind_emit.
    erewrite try_ok.
    2:{ erewrite bind_ok by (apply sys_ok; exact Hwrite). reflexivity. }
    reflexivity. }
  rewrite validate_game_directory_checked by assumption.
  fold p.
  erewrite bind_ok by (apply try_ok; exact Hfix).
  reflexivity.
Qed.

End Repair.

(** ** The derived identifier *)

Lemma lower_ascii_not_upper (c : ascii) :
  ~ (65 <= nat_of_ascii (Py.lower_ascii c) <= 90).
Proof.
  unfold Py.lower_ascii.
  destruct (Nat.leb 65 (nat_of_ascii c) && Nat.leb (nat_of_ascii c) 90) eqn:E.
  - apply andb_true_iff in E. destruct E as [E1 E2].
    apply Nat.leb_le in E1, E2.
    rewrite nat_ascii_embedding by lia. lia.
  - apply andb_false_iff in E. destruct E as [E|E];
      apply Nat.leb_gt in E; lia.
Qed.

Lemma lower_ascii_space (c : ascii) :
  Py.lower_ascii c = " "%char -> c = " "%char.
Proof.
  unfold Py.lower_ascii.
  destruct (Nat.leb 65 (nat_of_ascii c) && Nat.leb (nat_of_ascii c) 90) eqn:E;
    [|auto].
  apply andb_true_iff in E. destruct E as [E1 E2].
  apply Nat.leb_le in E1, E2. intros H.
  apply (f_equal nat_of_ascii) in H.
  rewrite nat_ascii_embedding in H by lia. cbn in H. lia.
Qed.

(** X6: for a directory name of ASCII characters, the identifier the
    validator derives from it has as many characters as that name, and
    among them neither a space nor an upper-case letter. *)
Theorem derived_game_name_charset (self : automator) :
  Py.isascii (name (game_path self)) = true ->
  String.length (derived_game_name self)
  = String.length (name (game_path self))
  /\ Forall (fun c => c <> " "%char /\ ~ (65 <= nat_of_ascii c <= 90))
            (list_ascii_of_string (derived_game_name self)).
Proof.
  intros _. unfold derived_game_name.
  induction (name (game_path self)) as [|c s [IHlen IHall]];
    [split; [reflexivity|constructor]|].
  cbn [Py.replace_space_hyphen Py.lower String.length list_ascii_of_string].
  split; [now rewrite IHlen|].
  constructor; [|exact IHall].
  split; [|apply lower_ascii_not_upper].
  intros H. apply lower_ascii_space in H.
  destruct (Ascii.eqb_spec c " "%char) as [->|Hc]; [discriminate H|].
  contradiction.
Qed.

(** ** The runtime: download and extraction *)

Lemma last_dot_suffix_zip (s : string) (acc : option string) :
  last_dot_suffix (s ++ ".zip") acc = Some ".zip".
Proof.
  revert acc. induction s as [|c s IH]; intros acc; [reflexivity|].
  cbn [append last_dot_suffix]. destruct (Ascii.eqb c "."); apply IH.
Qed.

Lemma last_dot_suffix_tar_gz (s : string) (acc : option string) :
  last_dot_suffix (s ++ ".tar.gz") acc = Some ".gz".
Proof.
  revert acc. induction s as [|c s IH]; intros acc; [reflexivity|].
  cbn [append last_dot_suffix]. destruct (Ascii.eqb c "."); apply IH.
Qed.

Lemma name_child (p : path) (c : string) : name (p // c) = c.
Proof. unfold name, child. apply last_last. Qed.

Lemma parent_child (p : path) (c : string) : parent (p // c) = p.
Proof. unfold parent, child. apply removelast_last. Qed.

Section Runtime.

Context {W : Type} (O : OS W) (self : automator).

Lemma platform_name_win :
  String.eqb (map_get platform_map (sys_platform O) "win") "win"
  = negb (tarball O).
Proof.
  unfold tarball, platform_map. cbn [map_get].
  destruct (String.eqb_spec "win32" (sys_platform O)) as [<-|H1];
    [reflexivity|].
  rewrite (String.eqb_sym (sys_platform O) "darwin").
  rewrite (String.eqb_sym (sys_platform O) "linux").
  destruct (String.eqb "darwin" (sys_platform O)); [reflexivity|].
  destruct (String.eqb "linux" (sys_platform O)); reflexivity.
Qed.

Lemma download_suffix (dir : path) :
  suffix (dir // snd (get_nwjs_download_url O self))
  = if tarball O then ".gz" else ".zip".
Proof.
  unfold suffix. rewrite name_child.
  unfold get_nwjs_download_url, nwjs_download_url. cbv zeta. cbn [snd].
  rewrite platform_name_win.
  destruct (tarball O); cbn [negb]; destruct (use_sdk self);
    cbn [append last_dot_suffix Ascii.eqb Bool.eqb];
    rewrite ?last_dot_suffix_zip, ?last_dot_suffix_tar_gz; reflexivity.
Qed.

(** X7: the archive that [download_nwjs] stores is always one that
    [extract_nwjs] unpacks, whatever the version string: its suffix is
    [.gz] on [darwin] and [linux], where it is opened as a tarball, and
    [.zip] everywhere else, where it is opened as a zip file.  The call
    that unpacks it is the first thing the method does after its log
    line. *)
Theorem downloaded_archive_is_unpacked (dir : path) (w : W) :
  let archive := dir // snd (get_nwjs_download_url O self) in
  suffix archive = (if tarball O then ".gz" else ".zip")
  /\ exists r rest,
      trace (extract_nwjs O archive dir w)
      = Log INFO ("Extracting NW.js archive: " ++ path_str archive)
        :: Sys (if tarball O then ExtractTar archive dir
                else ExtractZip archive dir) r
        :: rest.
Proof.
  intros archive. split; [apply download_suffix|].
  unfold extract_nwjs, logger_info. rewrite run_bind_emit.
  cbn [prepend trace app]. subst archive. rewrite !download_suffix.
  rewrite trace_bind.
  destruct (tarball O).
  - change (String.eqb ".gz" ".zip") with false.
    change (String.eqb ".gz" ".gz") with true. cbv iota.
    rewrite run_sys. cbn [trace res app]. eauto.
  - change (String.eqb ".zip" ".zip") with true. cbv iota.
    rewrite run_sys. cbn [trace res app]. eauto.
Qed.

(** The search for the extracted directory, as a function of the listing. *)
Lemma find_nwjs_dir_first (items : list path) (w : W) :
  find_nwjs_dir O items w
  = match find (fun item => os_is_dir O item w
                            && Py.contains "nwjs" (Py.lower (name item)))
               items with
    | Some item =>
        Outcome (inr item) w
                [Log INFO ("✓ NW.js extracted to: " ++ path_str item)]
    | None =>
        Outcome (inl (Exn FileNotFoundError
                          "Could not find extracted NW.js directory")) w []
    end.
Proof.
  induction items as [|item items IH]; [reflexivity|].
  cbn [find_nwjs_dir find].
  erewrite bind_pure by reflexivity.
  destruct (os_is_dir O item w
            && Py.contains "nwjs" (Py.lower (name item))); [|exact IH].
  reflexivity.
Qed.

(** The listing of the extraction directory and the search in it. *)
Lemma listing_search (dir : path) (w : W) :
  (items <- iterdir O dir ;; find_nwjs_dir O items) w
  = match os_iterdir O dir w with
    | inl e => Outcome (inl e) w []
    | inr names =>
        match find (fun c => os_is_dir O (dir // c) w
                             && Py.contains "nwjs" (Py.lower c)) names with
        | Some c =>
            Outcome (inr (dir // c)) w
                    [Log INFO ("✓ NW.js extracted to: " ++ path_str (dir // c))]
        | None =>
            Outcome (inl (Exn FileNotFoundError
                              "Could not find extracted NW.js directory")) w []
        end
    end.
Proof.
  rewrite run_bind. unfold iterdir. cbn [res final trace].
  destruct (os_iterdir O dir w) as [e|names]; [reflexivity|].
  rewrite find_nwjs_dir_first. cbn [app].
  induction names as [|c names IH]; [reflexivity|].
  cbn [map find]. rewrite name_child.
  destruct (os_is_dir O (dir // c) w && Py.contains "nwjs" (Py.lower c));
    [reflexivity|exact IH].
Qed.

(** The step of [extract_nwjs] that unpacks the archive is one system call
    or nothing. *)
Lemma unpack_step (archive dir : path) (w : W) :
  let step :=
    (if String.eqb (suffix archive) ".zip"
     then sys O (ExtractZip archive dir)
     else if String.eqb (suffix archive) ".gz"
          then sys O (ExtractTar archive dir)
          else ret tt) w in
  match res step with
  | inl e => exists c, trace step = [Sys c (Some e)]
  | inr _ => Forall (fun ev => forall c e, ev <> Sys c (Some e)) (trace step)
  end.
Proof.
  cbv zeta.
  destruct (String.eqb (suffix archive) ".zip");
    [|destruct (String.eqb (suffix archive) ".gz")];
    [rewrite run_sys|rewrite run_sys|cbn; constructor].
  all: cbn [res trace];
    match goal with
    | |- context [fst ?x] => destruct (fst x) as [e|]
    end;
    [eauto|repeat constructor; intros c e H; discriminate H].
Qed.

(** What [extract_nwjs] returns, when it returns. *)
Lemma extract_nwjs_returned (archive dir : path) (w : W) (item : path) :
  let o := extract_nwjs O archive dir w in
  res o = inr item ->
  exists c,
    item = dir // c
    /\ Py.contains "nwjs" (Py.lower c) = true
    /\ os_is_dir O item (final o) = true.
Proof.
  cbv zeta. unfold extract_nwjs, logger_info. rewrite run_bind_emit.
  cbn [prepend res final trace]. rewrite run_bind.
  destruct (res ((if String.eqb (suffix archive) ".zip"
                  then sys O (ExtractZip archive dir)
                  else if String.eqb (suffix archive) ".gz"
                       then sys O (ExtractTar archive dir)
                       else ret tt) w)) as [e|[]];
    [discriminate|].
  rewrite listing_search. set (w1 := final _).
  destruct (os_iterdir O dir w1) as [e|names]; [discriminate|].
  destruct (find _ names) as [c|] eqn:Hfind; [|discriminate].
  cbn [res final]. intros H. inversion H; subst item.
  apply find_some in Hfind. destruct Hfind as [_ Hc].
  apply andb_true_iff in Hc. destruct Hc as [Hdir Hname].
  exists c. auto.
Qed.

(** X8: when [extract_nwjs] returns, what it returns is a directory, seen
    after the extraction, that lies directly in the extraction directory
    and whose lower-cased name contains [nwjs]; and it is the first such
    entry of the listing.  When it raises, either the call that unpacks the
    archive failed, or the directory could not be listed, or no entry of
    the listing qualifies and the exception is the [FileNotFoundError] that
    says so. *)
Theorem extract_nwjs_first_runtime_directory (archive dir : path) (w : W) :
  let o := extract_nwjs O archive dir w in
  let qualifies c :=
    os_is_dir O (dir // c) (final o) && Py.contains "nwjs" (Py.lower c) in
  match res o with
  | inr item =>
      exists before c after,
        os_iterdir O dir (final o) = inr (before ++ c :: after)%list
        /\ item = dir // c
        /\ qualifies c = true
        /\ forall b, In b before -> qualifies b = false
  | inl e =>
      (exists c, In (Sys c (Some e)) (trace o))
      \/ os_iterdir O dir (final o) = inl e
      \/ (e = Exn FileNotFoundError "Could not find extracted NW.js directory"
          /\ exists names,
               os_iterdir O dir (final o) = inr names
               /\ forall c, In c names -> qualifies c = false)
  end.
Proof.
  cbv zeta. unfold extract_nwjs, logger_info. rewrite run_bind_emit.
  cbn [prepend res final trace].
  rewrite run_bind.
  pose proof (unpack_step archive dir w) as Hstep. cbv zeta in Hstep.
  destruct (res ((if String.eqb (suffix archive) ".zip"
                  then sys O (ExtractZip archive dir)
                  else if String.eqb (suffix archive) ".gz"
                       then sys O (ExtractTar archive dir)
                       else ret tt) w)) as [e|[]].
  - cbn [res final trace]. left. destruct Hstep as [c ->].
    exists c. right. now left.
  - clear Hstep. rewrite listing_search.
    set (w1 := final _).
    destruct (os_iterdir O dir w1) as [e|names] eqn:Hlist; cbn [res final].
    + right. left. exact Hlist.
    + destruct (find _ names) as [c|] eqn:Hfind; cbn [res final].
      * rewrite Hlist.
        destruct (find_first_split _ _ _ Hfind)
          as (before & after & -> & Hc & Hbefore).
        exists before, c, after. auto.
      * right. right. split; [reflexivity|]. rewrite Hlist.
        exists names. split; [reflexivity|].
        intros c Hc. exact (find_none _ _ Hfind c Hc).
Qed.

End Runtime.

(** ** Reading a result backwards *)

Section Inversion.

Context {W : Type}.

Lemma final_bind {A B} (m : M W A) (k : A -> M W B) (w : W) :
  final (bind m k w)
  = match res (m w) with
    | inr a => final (k a (final (m w)))
    | inl _ => final (m w)
    end.
Proof. unfold bind. destruct (res (m w)); reflexivity. Qed.

Lemma final_try_except {A} (m : M W A) (h : exn -> M W A) (w : W) :
  final (try_except m h w)
  = match res (m w) with
    | inl e => final (h e (final (m w)))
    | inr _ => final (m w)
    end.
Proof. unfold try_except. destruct (res (m w)); reflexivity. Qed.

(** A sequence that returns: its first part returned, too. *)
Lemma bind_returned {A B} (m : M W A) (k : A -> M W B) (w : W) (b : B) :
  res (bind m k w) = inr b ->
  exists a,
    res (m w) = inr a
    /\ res (k a (final (m w))) = inr b
    /\ final (bind m k w) = final (k a (final (m w))).
Proof.
  rewrite res_bind, final_bind.
  destruct (res (m w)) as [e|a]; [discriminate|]. eauto.
Qed.

(** A [try] whose handler raises again returns only if its body does. *)
Lemma try_reraise_returned {A} (m : M W A) (h : exn -> M W A) (w : W) (a : A) :
  (forall e w', exists e', res (h e w') = inl e') ->
  res (try_except m h w) = inr a ->
  res (m w) = inr a /\ final (try_except m h w) = final (m w).
Proof.
  intros Hh. rewrite res_try_except, final_try_except.
  destruct (res (m w)) as [e|a'] eqn:E; [|auto].
  destruct (Hh e (final (m w))) as [e' ->]. discriminate.
Qed.

End Inversion.

(** ** [setup_nwjs] *)

Section Setup.

Context {W : Type} (O : OS W) (self : automator).

(** A runtime directory that was supplied and exists is handed back as it
    is. *)
Lemma setup_nwjs_local (p : path) (w : W) :
  nwjs_path self = Some p ->
  os_exists O p w = true ->
  setup_nwjs O self w
  = Outcome (inr p) w [Log INFO ("Using existing NW.js: " ++ path_str p)].
Proof.
  intros Hp Hexists. unfold setup_nwjs. rewrite Hp.
  erewrite bind_pure by apply run_path_exists. rewrite Hexists.
  reflexivity.
Qed.

(** Without a usable runtime directory the method downloads. *)
Lemma setup_nwjs_downloads (w : W) :
  nwjs_path self = None
  \/ (exists p, nwjs_path self = Some p /\ os_exists O p w = false) ->
  setup_nwjs O self w = download_and_extract O self w.
Proof.
  intros [Hnone|(p & Hp & Hmissing)]; unfold setup_nwjs.
  - now rewrite Hnone.
  - rewrite Hp. erewrite bind_pure by apply run_path_exists.
    now rewrite Hmissing.
Qed.

(** X9: when no usable runtime directory was supplied and the download
    fails, [setup_nwjs] raises the exception of the download.  By then it
    has made the scratch directory and written no file; the failure is
    logged by [setup_nwjs], and before that by [download_nwjs] if it is a
    [RequestException]. *)
Theorem failed_download_aborts_setup (w w1 : W) (e : exn) :
  let url := fst (get_nwjs_download_url O self) in
  nwjs_path self = None
  \/ (exists p, nwjs_path self = Some p /\ os_exists O p w = false) ->
  os_run O (Mkdir (scratch_dir O)) w = (None, w1) ->
  http_get O url w1 = inl e ->
  setup_nwjs O self w
  = Outcome (inl e) w1
      ([Sys (Mkdir (scratch_dir O)) None;
        Log INFO ("Downloading NW.js from: " ++ url)]
       ++ (if is_request_exception e
           then [Log ERROR ("Failed to download NW.js: " ++ exn_msg e)]
           else [])
       ++ [Log ERROR ("Failed to setup NW.js: " ++ exn_msg e)])%list.
Proof.
  intros url Hpath Hmkdir Hget.
  rewrite (setup_nwjs_downloads w Hpath).
  unfold download_and_extract.
  erewrite bind_ok by (apply sys_ok; exact Hmkdir).
  rewrite run_try_except, run_bind.
  assert (Hdl :
    download_nwjs O self (scratch_dir O) w1
    = Outcome (inl e) w1
        (Log INFO ("Downloading NW.js from: " ++ url)
         :: if is_request_exception e
            then [Log ERROR ("Failed to download NW.js: " ++ exn_msg e)]
            else [])).
  { unfold download_nwjs. subst url.
    destruct (get_nwjs_download_url O self) as [u filename]. cbn [fst] in *.
    unfold logger_info, logger_error. rewrite run_bind_emit.
    unfold try_except_only. rewrite run_try_except, run_bind.
    unfold requests_get. rewrite Hget. cbn [res final trace].
    destruct (is_request_exception e); [rewrite run_bind_emit|]; reflexivity. }
  rewrite Hdl. cbn [res final trace].
  unfold logger_error. rewrite run_bind_emit.
  cbn [prepend res final trace raise app].
  destruct (is_request_exception e); reflexivity.
Qed.

(** X10: a runtime directory that was supplied and exists is handed back
    as it is: no directory is made, nothing is downloaded or unpacked, the
    world stays as it was and the only event is the log line.  And whenever
    [setup_nwjs] returns, what it returns is either that directory, or an
    entry of the scratch directory whose lower-cased name contains [nwjs]
    and which is a directory when the method ends. *)
Theorem setup_nwjs_result (w : W) :
  let o := setup_nwjs O self w in
  (forall p,
      nwjs_path self = Some p -> os_exists O p w = true ->
      o = Outcome (inr p) w
            [Log INFO ("Using existing NW.js: " ++ path_str p)])
  /\ forall nwjs_dir,
      res o = inr nwjs_dir ->
      (nwjs_path self = Some nwjs_dir /\ os_exists O nwjs_dir w = true
       /\ final o = w)
      \/ exists c,
          nwjs_dir = scratch_dir O // c
          /\ Py.contains "nwjs" (Py.lower c) = true
          /\ os_is_dir O nwjs_dir (final o) = true.
Proof.
  cbv zeta. split; [intros p; apply setup_nwjs_local|]. intros nwjs_dir.
  assert (Hdl :
    res (download_and_extract O self w) = inr nwjs_dir ->
    exists c,
      nwjs_dir = scratch_dir O // c
      /\ Py.contains "nwjs" (Py.lower c) = true
      /\ os_is_dir O nwjs_dir (final (download_and_extract O self w)) = true).
  { unfold download_and_extract. intros H.
    apply bind_returned in H. destruct H as ([] & _ & H & ->).
    apply try_reraise_returned in H;
      [|intros e0 w0; exists e0; reflexivity].
    destruct H as [H ->].
    apply bind_returned in H. destruct H as (archive & _ & H & ->).
    apply bind_returned in H. destruct H as (d & Hextract & H & ->).
    assert (d = nwjs_dir) as -> by (cbn in H; congruence).
    rewrite final_bind. cbn [logger_info emit res final ret].
    exact (extract_nwjs_returned O archive (scratch_dir O) _ _ Hextract). }
  unfold setup_nwjs in *.
  destruct (nwjs_path self) as [p|]; [|intros H; right; exact (Hdl H)].
  erewrite bind_pure by apply run_path_exists.
  destruct (os_exists O p w) eqn:Hp; [|intros H; right; exact (Hdl H)].
  cbn. intros H. left. inversion H; subst. auto.
Qed.

End Setup.

(** ** [save_important_files] *)

Section Preserve.

Context {W : Type} (O : OS W) (self : automator).

(** A property of the result and the final world that a raised exception
    satisfies carries over any first step. *)
Lemma bind_post {A B} (P : exn + B -> W -> Prop)
      (m : M W A) (k : A -> M W B) (w : W) :
  (forall e w', P (inl e) w') ->
  (forall a w', P (res (k a w')) (final (k a w'))) ->
  P (res (bind m k w)) (final (bind m k w)).
Proof.
  intros Hfail Hk. rewrite res_bind, final_bind.
  destruct (res (m w)); [apply Hfail|apply Hk].
Qed.

(** X11: when [save_important_files] returns, it returns the holding area,
    and the copies of the manifest and of the [www] folder exist there in
    the world it leaves. *)
Theorem save_important_files_postcondition (w : W) (temp_dir : path) :
  let o := save_important_files O self w in
  res o = inr temp_dir ->
  temp_dir = holding_area self
  /\ os_exists O (temp_dir // "package.json") (final o) = true
  /\ os_exists O (temp_dir // "www") (final o) = true.
Proof.
  cbv zeta. revert temp_dir.
  set (P := fun (r : exn + path) (w' : W) =>
              forall temp_dir, r = inr temp_dir ->
                temp_dir = holding_area self
                /\ os_exists O (temp_dir // "package.json") w' = true
                /\ os_exists O (temp_dir // "www") w' = true).
  change (P (res (save_important_files O self w))
            (final (save_important_files O self w))).
  assert (Hfail : forall e w', P (inl e) w') by (intros e w' t H; discriminate H).
  unfold save_important_files.
  do 8 (apply bind_post; [exact Hfail|]; intros ? ?).
  clear w. rename w'6 into w.
  cbn [for_each critical_files].
  erewrite bind_pure.
  2:{ erewrite bind_pure.
      2:{ erewrite bind_pure by apply run_path_exists.
          instantiate (1 := if negb (os_exists O (holding_area self
                                                  // "package.json") w)
                            then ["package.json"] else []).
          destruct (os_exists O (holding_area self // "package.json") w);
            reflexivity. }
      erewrite bind_pure.
      2:{ erewrite bind_pure by apply run_path_exists.
          instantiate
            (1 := ((if negb (os_exists O (holding_area self // "package.json") w)
                    then ["package.json"] else [])
                   ++ (if negb (os_exists O (holding_area self // "www") w)
                       then ["www"] else []))%list).
          destruct (os_exists O (holding_area self // "www") w);
            cbn [negb]; [now rewrite app_nil_r|reflexivity]. }
      reflexivity. }
  destruct (os_exists O (holding_area self // "package.json") w) eqn:E1;
    destruct (os_exists O (holding_area self // "www") w) eqn:E2;
    cbn [negb app]; intros t Ht; try discriminate Ht.
  cbn in Ht. inversion Ht; subst. auto.
Qed.

End Preserve.

(** ** The synthesized entry point *)

Section EntryPoint.

Context {W : Type} (O : OS W) (self : automator).

(** A scanning loop appends the tags of the listed files that exist, in
    the order of the list. *)
Lemma scan_scripts_filter (dir : path) (pre : string)
      (order tags : list string) (w : W) :
  scan_scripts O dir pre order tags w
  = Outcome
      (inr (tags ++ map (fun f => script_tag (pre ++ f))
                        (filter (fun f => os_exists O (dir // f) w) order))%list)
      w [].
Proof.
  unfold scan_scripts. revert tags.
  induction order as [|f order IH]; intros tags; cbn [for_each filter map].
  - now rewrite app_nil_r.
  - erewrite bind_pure.
    2:{ erewrite bind_pure by apply run_path_exists.
        instantiate (1 := if os_exists O (dir // f) w
                          then (tags ++ [script_tag (pre ++ f)])%list
                          else tags).
        destruct (os_exists O (dir // f) w); reflexivity. }
    rewrite IH.
    destruct (os_exists O (dir // f) w); cbn [map];
      [rewrite <- app_assoc|]; reflexivity.
Qed.

(** X12: the script tags of the synthesized entry point are those of the
    library files, then of the core files, then of [plugins.js] and
    [main.js], each in the fixed order of its list and only if the file
    exists; library files count only if the [libs] folder exists, and
    nothing counts if the script folder is missing.  If this leaves no tag,
    the single tag of [js/main.js] is used; so the document is never
    written without a script tag.  The scan changes nothing. *)
Theorem detect_script_tags_fixed_order (w : W) :
  let js_dir := game_path self // "www" // "js" in
  let libs_dir := js_dir // "libs" in
  let tags_of dir pre order :=
    map (fun f => script_tag (pre ++ f))
        (filter (fun f => os_exists O (dir // f) w) order) in
  let found :=
    if os_exists O js_dir w then
      ((if os_exists O libs_dir w
        then tags_of libs_dir "js/libs/" libs_order else [])
       ++ tags_of js_dir "js/" core_order
       ++ tags_of js_dir "js/" ["plugins.js"; "main.js"])%list
    else [] in
  let script_tags :=
    match found with [] => [script_tag "js/main.js"] | _ => found end in
  detect_script_tags O self w = Outcome (inr script_tags) w []
  /\ script_tags <> []
  /\ exists r rest,
      trace (create_basic_index_html O self w)
      = Sys (WriteText (game_path self // "index.html")
                       (basic_html script_tags)) r :: rest.
Proof.
  intros js_dir libs_dir tags_of found script_tags.
  assert (Hdetect :
    detect_script_tags O self w = Outcome (inr script_tags) w []).
  { unfold detect_script_tags. fold js_dir. fold libs_dir.
    erewrite bind_pure by apply run_path_exists.
    rewrite (bind_pure _ _ _ found).
    - subst script_tags. destruct found; reflexivity.
    - subst found. destruct (os_exists O js_dir w); [|reflexivity].
      erewrite bind_pure by apply run_path_exists.
      erewrite bind_pure.
      2:{ instantiate (1 := if os_exists O libs_dir w
                            then tags_of libs_dir "js/libs/" libs_order
                            else []).
          destruct (os_exists O libs_dir w); [|reflexivity].
          now rewrite scan_scripts_filter. }
      erewrite bind_pure by apply scan_scripts_filter.
      rewrite scan_scripts_filter. now rewrite <- app_assoc. }
  split; [exact Hdetect|].
  split; [subst script_tags; destruct found; discriminate|].
  unfold create_basic_index_html.
  rewrite (bind_pure _ _ _ _ Hdetect).
  rewrite trace_try_except, trace_bind, run_sys. cbn [trace app].
  eauto.
Qed.

End EntryPoint.

(** ** [copy_nwjs_to_game] *)

Section Installer.

Context {W : Type} (O : OS W) (self : automator).

(** X13: the calls of [copy_nwjs_to_game], as far as the source has
    them, that is up to the first call that raises: each of them copies an
    entry of the runtime directory to the entry of the same name in the
    target directory, directories being merged, or sets the mode of a
    copied [nw] or [nwjs] on a platform other than [win32]; none removes
    or renames anything. *)
Theorem copy_nwjs_to_game_only_installs (nwjs_dir : path) (w : W) :
  let o := copy_nwjs_to_game O self nwjs_dir w in
  Forall (installs O self nwjs_dir) (trace o)
  /\ Forall (fun ev => is_removal ev = false) (trace o).
Proof.
  cbv zeta. split.
  - revert w.
    change (always (installs O self nwjs_dir)
                   (copy_nwjs_to_game O self nwjs_dir)).
    unfold copy_nwjs_to_game.
    apply always_bind; [apply always_logger_info; exact I|]. intros _.
    apply (always_bind_result (installs O self nwjs_dir)
             (fun items => exists names, items = map (child nwjs_dir) names));
      [apply always_iterdir|intros w a; apply iterdir_children|].
    intros items [names ->].
    apply always_bind; [|intros; apply always_logger_info; exact I].
    apply always_for_each. intros item count Hitem.
    apply in_map_iff in Hitem. destruct Hitem as (c & <- & _).
    unfold copy_item. rewrite name_child.
    apply always_bind; [apply always_is_dir|]. intros d.
    apply always_bind;
      [|intros; apply always_bind;
        [apply always_logger_info; exact I|intros; apply always_ret]].
    destruct d.
    + apply always_sys. intros r. cbn. eauto.
    + apply always_bind; [apply always_sys; intros r; cbn; eauto|].
      intros _.
      destruct (negb (is_win32 O)) eqn:Hwin;
        destruct (is_runtime_binary c) eqn:Hbin; cbn [andb];
        try apply always_ret.
      apply always_sys. intros r. cbn.
      apply negb_true_iff in Hwin. eauto.
  - revert w.
    change (always (fun ev => is_removal ev = false)
                   (copy_nwjs_to_game O self nwjs_dir)).
    always_walk ltac:(solve [reflexivity]).
Qed.

End Installer.

(** ** [cleanup_nwjs_files] *)

Section Cleanup.

Context {W : Type} (O : OS W) (self : automator).

(** The events of the loop over the locale files, where only the files
    that are not retained matter. *)
Lemma always_prune_foreign_locales (Q : event -> Prop) (items : list path) :
  (forall p r, In p items -> is_foreign_locale (name p) = true ->
               Q (Sys (Unlink p) r)) ->
  (forall p, In p items -> Q (Log INFO ("  Removed: locales/" ++ name p))) ->
  forall count, always Q (prune_locales O items count).
Proof.
  induction items as [|p items IH]; intros Hsys Hlog count;
    cbn [prune_locales].
  - apply always_ret.
  - assert (IH' : forall c, always Q (prune_locales O items c)).
    { apply IH; intros; [apply Hsys|apply Hlog]; auto; now right. }
    destruct (is_foreign_locale (name p)) eqn:Hforeign; [|apply IH'].
    apply always_bind; [apply always_is_file|]. intros f.
    destruct f; [|apply IH'].
    apply always_bind.
    + apply always_try_except; [|intros; apply always_ret].
      apply always_bind; [|intros; apply always_ret].
      apply always_sys. intros r. apply Hsys; [now left|exact Hforeign].
    + intros [e|]; [apply always_ret|].
      apply always_bind; [|intros; apply IH'].
      apply always_logger_info, Hlog. now left.
Qed.

Lemma cleanup_nwjs_files_tidies :
  always (tidies self) (cleanup_nwjs_files O self).
Proof.
  unfold cleanup_nwjs_files.
  apply always_bind; [apply always_logger_info; exact I|]. intros _.
  apply always_bind.
  { apply always_for_each. intros f count Hf. unfold remove_cleanup_file.
    always_walk ltac:(solve [exact I | cbn [tidies]; eauto]). }
  intros count.
  apply always_bind; [apply always_path_exists|]. intros present.
  apply always_bind; [apply always_is_dir|]. intros d.
  apply always_bind;
    [|intros; always_walk ltac:(solve [exact I])].
  destruct (present && d); [|apply always_ret].
  apply (always_bind_result (tidies self)
           (fun listing =>
              forall items, listing = inr items ->
                exists names,
                  items = map (child (game_path self // "locales")) names)).
  - always_walk ltac:(solve [exact I]).
  - intros w listing. rewrite res_try_except, res_bind.
    destruct (res (iterdir O (game_path self // "locales") w))
      as [e|items'] eqn:E; cbn [res ret].
    + intros H items ->. discriminate H.
    + intros H items ->. inversion H; subst.
      eapply iterdir_children, E.
  - intros [e|items] Hitems.
    + always_walk ltac:(solve [exact I]).
    + destruct (Hitems items eq_refl) as [names ->].
      apply always_bind; [|intros; always_walk ltac:(solve [exact I])].
      apply always_prune_foreign_locales.
      * intros p r Hp Hforeign. apply in_map_iff in Hp.
        destruct Hp as (x & <- & _). rewrite name_child in Hforeign.
        cbn. right. eauto.
      * intros; exact I.
Qed.

Lemma child_injective (p q : path) (c d : string) :
  p // c = q // d -> p = q /\ c = d.
Proof. apply app_inj_tail. Qed.



(** One turn of the locale loop that tries to unlink. *)
Lemma unlink_attempt (p : path) (w : W) :
  try_except (sys O (Unlink p) ;; ret None) (fun e => ret (Some e)) w
  = Outcome (inr (fst (os_run O (Unlink p) w))) (snd (os_run O (Unlink p) w))
            [Sys (Unlink p) (fst (os_run O (Unlink p) w))].
Proof.
  rewrite run_try_except, run_bind_sys.
  destruct (os_run O (Unlink p) w) as [[e|] w']; reflexivity.
Qed.

(** X15: the loop over the locale files is not best-effort: the first
    unlink that fails ends it.  The failed call is then the last event of
    the loop and its exception is handed to the caller, which logs one
    warning; the counter has grown by the number of files unlinked until
    then. *)
Theorem prune_locales_stops_at_first_failure
        (items : list path) (count : nat) (w : W) :
  let o := prune_locales O items count w in
  exists ended,
    res o = inr (count + count_events removal_succeeded (trace o), ended)
    /\ (forall t1 c e t2,
          trace o = (t1 ++ Sys c (Some e) :: t2)%list ->
          t2 = [] /\ ended = Some e)
    /\ (ended = None ->
        Forall (fun ev => removal_failed ev = false) (trace o)).
Proof.
  cbv zeta. revert count w.
  induction items as [|p items IH]; intros count w; cbn [prune_locales].
  - exists None. cbn. split; [now rewrite Nat.add_0_r|].
    split; [intros [|? ?] ? ? ? H; discriminate H|constructor].
  - destruct (is_foreign_locale (name p)); [|apply IH].
    erewrite bind_pure by reflexivity.
    destruct (os_is_file O p w); [|apply IH].
    erewrite bind_ok by apply unlink_attempt.
    destruct (os_run O (Unlink p) w) as [[e|] w1]; cbn [fst snd].
    + exists (Some e). cbn. split; [now rewrite Nat.add_0_r|].
      split; [|discriminate].
      intros [|x [|y t1]] c e' t2 H; inversion H; subst. auto.
    + unfold logger_info. rewrite run_bind_emit.
      destruct (IH (S count) w1) as (ended & Hres & Hfast & Hnone).
      exists ended. cbn [prepend res trace app].
      split; [|split].
      * rewrite Hres. unfold count_events.
        cbn [filter removal_succeeded List.length]. do 2 f_equal. lia.
      * intros [|x [|y t1]] c e t2 H; inversion H; subst.
        eapply Hfast; eassumption.
      * intros H. repeat constructor. exact (Hnone H).
Qed.

End Cleanup.

(** ** What a run reports *)

Section Report.

Context {W : Type} (O : OS W) (self : automator).

Lemma always_true {A} (m : M W A) : always (fun _ => True) m.
Proof. intros w. apply Forall_forall. auto. Qed.

(** A property of the result and the trace that survives any prefix and
    holds of every failed run carries over any first step. *)
Lemma ensures_after {A B} (S : exn + B -> list event -> Prop)
      (m : M W A) (k : A -> M W B) :
  (forall r t1 t2, S r t2 -> S r (t1 ++ t2)%list) ->
  (forall e t, S (inl e) t) ->
  (forall a, ensures S (k a)) -> ensures S (bind m k).
Proof.
  intros Hprefix Hfail Hk.
  apply (ensures_bind (fun _ => True)); auto. apply always_true.
Qed.


(** *** The three ways [rename_executable] can go *)

Lemma find_nothing {A} (f : A -> bool) (l : list A) :
  (forall x, In x l -> f x = false) -> find f l = None.
Proof.
  induction l as [|a l IH]; intros H; [reflexivity|].
  cbn. rewrite (H a) by now left. apply IH. intros x Hx. apply H. now right.
Qed.









End Report.

(** ** A run that succeeds *)

Section Success.

Context {W : Type} (O : OS W) (self : automator).



End Success.

(** ** [restore_important_files] *)

Lemma holding_not_www (self : automator) :
  game_path self // "www" <> holding_area self.
Proof.
  unfold holding_area. intros H. apply child_injective in H.
  destruct H as [_ H]. apply (f_equal String.length) in H.
  rewrite !length_append in H. cbn in H. lia.
Qed.

Lemma www_not_backup (self : automator) :
  game_path self // "www" <> backup_path self.
Proof.
  unfold backup_path. intros H. apply child_injective in H.
  destruct H as [_ H]. apply (f_equal String.length) in H.
  rewrite !length_append in H. cbn in H. lia.
Qed.

Section Restore.

Context {W : Type} (O : OS W) (self : automator).

Lemma restore_important_files_restores (temp_dir : path) :
  always (restores self temp_dir)
         (restore_important_files O self temp_dir).
Proof.
  always_walk ltac:(solve [exact I | cbn [restores]; cbv zeta; tauto]).
Qed.

(** X19: all [restore_important_files] does to the filesystem is to put
    the manifest, the [www] folder and the entry point back in the target
    directory, each after removing what is in its place; to take the entry
    point from the [www] folder or write a new one when none was preserved;
    to let the validator rewrite the manifest; and to remove the holding
    area.  A failure to remove the holding area is not an error: a run of
    the method in which that removal was attempted, whether it went through
    or not, returns. *)
Theorem restore_important_files_confined (w : W) :
  let temp_dir := holding_area self in
  let o := restore_important_files O self temp_dir w in
  Forall (restores self temp_dir) (trace o)
  /\ forall r, In (Sys (Rmtree temp_dir) r) (trace o) -> res o = inr tt.
Proof.
  cbv zeta. split; [apply restore_important_files_restores|].
  revert w.
  change (ensures (fun r t =>
                     forall r0, In (Sys (Rmtree (holding_area self)) r0) t ->
                                r = inr tt)
                  (restore_important_files O self (holding_area self))).
  unfold restore_important_files.
  do 9 (apply (ensures_bind
                 (fun ev => forall r0,
                      ev <> Sys (Rmtree (holding_area self)) r0));
        [ intros r t1 t2 H1 H2 r0 Hin; rewrite Forall_forall in H1;
          apply in_app_or in Hin; destruct Hin as [Hin|Hin];
          [now elim (H1 _ Hin r0)|eauto]
        | intros e t H r0 Hin; rewrite Forall_forall in H;
          now elim (H _ Hin r0)
        | always_walk ltac:(solve [ intros ? Heq; discriminate Heq
                                  | intros ? Heq; inversion Heq;
                                    eapply holding_not_www; eassumption ])
        | intros ? ]).
  intros w r0 _.
  assert (Hreturns :
    returns (try_except
               (sys O (Rmtree (holding_area self)) ;;
                logger_info "✓ Cleaned up temporary files")
               (fun e => logger_warning
                           ("Could not clean up temp directory: "
                            ++ exn_msg e)))) by returns_walk.
  destruct (Hreturns w) as [[] H]. exact H.
Qed.

End Restore.

(** ** The backup that was not asked for *)

Section NoBackup.

Context {W : Type} (O : OS W) (self : automator).

(** X20: a run without the backup option never enters [backup_game]: it
    makes no copy of the target directory to the backup path and logs
    neither of the two lines with which [backup_game] begins. *)
Theorem no_backup_requested (w : W) :
  Forall (fun ev =>
            ~ backup_copy self ev
            /\ ev <> Log INFO ("Creating backup: "
                               ++ path_str (backup_path self))
            /\ ev <> Log INFO ("Backup already exists: "
                               ++ path_str (backup_path self)))
         (trace (process_game O self false w)).
Proof.
  revert w.
  change (always (fun ev =>
            ~ backup_copy self ev
            /\ ev <> Log INFO ("Creating backup: "
                               ++ path_str (backup_path self))
            /\ ev <> Log INFO ("Backup already exists: "
                               ++ path_str (backup_path self)))
                 (process_game O self false)).
  unfold process_game, process_steps.
  always_walk
    ltac:(solve [ split; [|split];
                  [ intros [? Heq];
                    first [ discriminate Heq
                          | let Ha := fresh in
                            let Hb := fresh in
                            let Hc := fresh in
                            injection Heq as Ha Hb Hc;
                            exact (www_not_backup self Hb) ]
                  | intros Heq;
                    first [ discriminate Heq
                          | cbn [append removed_report] in Heq;
                            discriminate Heq ]
                  | intros Heq;
                    first [ discriminate Heq
                          | cbn [append removed_report] in Heq;
                            discriminate Heq ] ] ]).
  all: first
         [ apply always_find_nwjs_dir; intros
         | apply always_prune_locales; intros ];
    (split; [|split];
     [ intros [? Heq]; discriminate Heq
     | intros Heq;
       first [ discriminate Heq | cbn [append] in Heq; discriminate Heq ]
     | intros Heq;
       first [ discriminate Heq | cbn [append] in Heq; discriminate Heq ] ]).
Qed.

End NoBackup.

(** ** Where the backup and the holding area lie *)

Lemma sibling_differs (g : path) (m : string) :
  m <> name g -> parent g // m <> g.
Proof.
  intros Hm H.
  assert (Hne : g <> []) by (intros ->; discriminate H).
  rewrite (path_snoc g Hne) in H at 2.
  apply child_injective in H. now destruct H.
Qed.

Lemma longer_differs (a n b : string) :
  b <> "" -> a ++ n ++ b <> n.
Proof.
  intros Hb H. apply (f_equal String.length) in H.
  rewrite !length_append in H. destruct b; [now elim Hb|]. cbn in H. lia.
Qed.

(** X21: the backup and the holding area have the parent of the target
    directory as their parent, and differ from the target directory and
    from each other.  For a target directory that has a name they are its
    siblings, outside of it; for the anchor, whose parent is itself, they
    lie inside the target directory. *)
Theorem backup_and_holding_area_paths (self : automator) :
  let target := game_path self in
  parent (backup_path self) = parent target
  /\ parent (holding_area self) = parent target
  /\ backup_path self <> target
  /\ holding_area self <> target
  /\ backup_path self <> holding_area self
  /\ (target <> [] ->
      is_prefix target (backup_path self) = false
      /\ is_prefix target (holding_area self) = false)
  /\ (target = [] ->
      is_prefix target (backup_path self) = true
      /\ is_prefix target (holding_area self) = true
      /\ parent (backup_path self) = target
      /\ parent (holding_area self) = target).
Proof.
  cbv zeta. unfold backup_path, holding_area.
  split; [apply parent_child|]. split; [apply parent_child|].
  split; [apply sibling_differs, (longer_differs "" _ "_backup"); discriminate|].
  split; [apply sibling_differs, longer_differs; discriminate|].
  split.
  { intros H. apply child_injective in H. destruct H as [_ H].
    symmetry in H. apply String.eqb_eq in H.
    rewrite holding_name_differs in H. discriminate H. }
  split.
  - intros Hne. pose proof (path_snoc _ Hne) as Hs. revert Hs.
    generalize (parent (game_path self)) (name (game_path self)).
    intros pp n ->.
    unfold child. rewrite !is_prefix_app. cbn [is_prefix].
    rewrite backup_name_differs.
    split; [reflexivity|].
    destruct (String.eqb_spec n ("temp_" ++ n ++ "_files")) as [H|_];
      [|reflexivity].
    symmetry in H. now apply longer_differs in H.
  - intros ->. repeat split.
Qed.

(** ** The executable name given on the command line *)

Lemma lower_append (a b : string) :
  Py.lower (a ++ b) = Py.lower a ++ Py.lower b.
Proof. induction a as [|c a IH]; cbn; [reflexivity|now rewrite IH]. Qed.

Lemma lower_length (s : string) : String.length (Py.lower s) = String.length s.
Proof. induction s as [|c s IH]; cbn; [reflexivity|now rewrite IH]. Qed.

Lemma lower_substring (n m : nat) (s : string) :
  Py.lower (String.substring n m s) = String.substring n m (Py.lower s).
Proof.
  revert n m. induction s as [|c s IH]; intros [|n] [|m]; cbn;
    try reflexivity; now rewrite IH.
Qed.

Lemma substring_prefix (a b : string) :
  String.substring 0 (String.length a) (a ++ b) = a.
Proof.
  induction a as [|c a IH]; cbn; [now destruct b|now rewrite IH].
Qed.

Lemma substring_suffix (a b : string) :
  String.substring (String.length a) (String.length b) (a ++ b) = b.
Proof.
  induction a as [|c a IH]; cbn; [|exact IH].
  induction b as [|c b IH]; cbn; [reflexivity|now rewrite IH].
Qed.

Lemma substring_all (s : string) :
  String.substring 0 (String.length s) s = s.
Proof. induction s as [|c s IH]; cbn; [reflexivity|now rewrite IH]. Qed.

Lemma substring_split (n : nat) (s : string) :
  n <= String.length s ->
  s = String.substring 0 n s
      ++ String.substring n (String.length s - n) s.
Proof.
  revert n. induction s as [|c s IH]; intros [|n] H; cbn in *;
    try reflexivity; try lia.
  - now rewrite substring_all.
  - f_equal. apply IH. lia.
Qed.

(** [s.endswith(suffix)] holds exactly of the strings that end with
    [suffix]. *)
Lemma endswith_spec (suffix_ s : string) :
  Cli.endswith suffix_ s = true <-> exists a, s = a ++ suffix_.
Proof.
  unfold Cli.endswith. split.
  - intros H. apply andb_true_iff in H. destruct H as [Hlen Heq].
    apply Nat.leb_le in Hlen. apply String.eqb_eq in Heq.
    exists (String.substring 0 (String.length s - String.length suffix_) s).
    pose proof (substring_split (String.length s - String.length suffix_) s
                  ltac:(lia)) as Hs.
    replace (String.length s - (String.length s - String.length suffix_))
      with (String.length suffix_) in Hs by lia.
    now rewrite Heq in Hs.
  - intros [a ->]. rewrite length_append.
    apply andb_true_iff. split; [apply Nat.leb_le; lia|].
    replace (String.length a + String.length suffix_
             - String.length suffix_) with (String.length a) by lia.
    rewrite substring_suffix. apply String.eqb_refl.
Qed.

(** X22: the cleaning of the executable name in [main] and
    [get_user_input] removes one trailing [.exe], written in any case, and
    nothing else: a name of the form [stem ++ ext] where [ext] is [.exe]
    up to case becomes [stem], and a name that has no such ending is left
    as it is.  With a name cleaned in this way, the file name that
    [rename_executable] aims at on [win32] is [stem.exe], and [stem] on
    the other platforms. *)
Theorem executable_name_cleaned :
  (forall stem ext,
      Py.lower ext = ".exe" ->
      Cli.clean_executable_name (stem ++ ext) = stem)
  /\ (forall s,
         (forall stem ext, s = stem ++ ext -> Py.lower ext <> ".exe") ->
         Cli.clean_executable_name s = s)
  /\ (forall W (O : OS W) (self : automator) stem ext,
         Py.lower ext = ".exe" ->
         executable_name self = Cli.clean_executable_name (stem ++ ext) ->
         game_exe_name O self
         = if String.eqb (sys_platform O) "win32"
           then stem ++ ".exe" else stem).
Proof.
  assert (Hstrip : forall stem ext,
             Py.lower ext = ".exe" ->
             Cli.clean_executable_name (stem ++ ext) = stem).
  { intros stem ext Hext. unfold Cli.clean_executable_name.
    assert (Hlen : String.length ext = 4)
      by (rewrite <- lower_length, Hext; reflexivity).
    rewrite (proj2 (endswith_spec ".exe" (Py.lower (stem ++ ext)))).
    - unfold Cli.drop_last_four. rewrite length_append, Hlen.
      replace (String.length stem + 4 - 4) with (String.length stem) by lia.
      apply substring_prefix.
    - exists (Py.lower stem). now rewrite lower_append, Hext. }
  split; [exact Hstrip|]. split.
  - intros s Hnone. unfold Cli.clean_executable_name.
    destruct (Cli.endswith ".exe" (Py.lower s)) eqn:E; [|reflexivity].
    exfalso. unfold Cli.endswith in E. apply andb_true_iff in E.
    destruct E as [Hlen Heq]. apply Nat.leb_le in Hlen.
    apply String.eqb_eq in Heq. rewrite lower_length in Hlen, Heq.
    cbn [String.length] in Hlen, Heq.
    apply (Hnone (String.substring 0 (String.length s - 4) s)
                 (String.substring (String.length s - 4) 4 s)).
    + pose proof (substring_split (String.length s - 4) s ltac:(lia)) as Hs.
      replace (String.length s - (String.length s - 4)) with 4 in Hs by lia.
      exact Hs.
    + now rewrite lower_substring.
  - intros W O self stem ext Hext Hname. unfold game_exe_name.
    rewrite Hname, (Hstrip stem ext Hext). reflexivity.
Qed.

(** ** The places a run touches *)

Lemma is_prefix_extend (g rest : path) : is_prefix g (g ++ rest)%list = true.
Proof.
  induction g as [|x g IH]; [reflexivity|].
  cbn. now rewrite String.eqb_refl.
Qed.

Section Places.

Context {W : Type} (O : OS W) (self : automator).

Lemma place_target_child (c : string) : own_place O self (game_path self // c).
Proof. left. apply is_prefix_extend. Qed.

Lemma place_target_grandchild (c d : string) :
  own_place O self (game_path self // c // d).
Proof.
  left. unfold child. rewrite <- app_assoc. apply is_prefix_extend.
Qed.

Lemma place_backup : own_place O self (backup_path self).
Proof.
  right. left. rewrite <- (app_nil_r (backup_path self)) at 2.
  apply is_prefix_extend.
Qed.

Lemma place_holding_area : own_place O self (holding_area self).
Proof.
  right. right. left. rewrite <- (app_nil_r (holding_area self)) at 2.
  apply is_prefix_extend.
Qed.

Lemma place_holding_child (c : string) :
  own_place O self (holding_area self // c).
Proof. right. right. left. apply is_prefix_extend. Qed.

Lemma place_scratch : own_place O self (scratch_dir O).
Proof.
  right. right. right. rewrite <- (app_nil_r (scratch_dir O)) at 2.
  apply is_prefix_extend.
Qed.

Lemma place_scratch_child (c : string) : own_place O self (scratch_dir O // c).
Proof. right. right. right. apply is_prefix_extend. Qed.

End Places.

Create HintDb places discriminated.

#[export] Hint Resolve place_target_child place_target_grandchild
  place_backup place_holding_area place_holding_child place_scratch
  place_scratch_child : places.

Ltac place_leaf :=
  let q := fresh "q" in
  let Hq := fresh "Hq" in
  solve [ intros q Hq; cbn [written_paths In] in Hq;
          repeat (destruct Hq as [<-|Hq]; [auto with places|]);
          contradiction ].

Section OwnPlaces.

Context {W : Type} (O : OS W) (self : automator).

Lemma clean_keeps_to_own_places :
  always (keeps_to_own_places O self) (clean_game_directory O self).
Proof.
  unfold clean_game_directory.
  apply always_bind; [always_walk place_leaf|]. intros _.
  apply (always_bind_result (keeps_to_own_places O self)
           (fun items => exists names,
                items = map (child (game_path self)) names));
    [apply always_iterdir|intros w a; apply iterdir_children|].
  intros items [names ->].
  apply always_bind; [|intros; always_walk place_leaf].
  apply always_for_each. intros item count Hitem.
  apply in_map_iff in Hitem. destruct Hitem as (n & <- & _).
  always_walk place_leaf.
Qed.

Lemma rename_keeps_to_own_places :
  always (keeps_to_own_places O self) (rename_executable O self).
Proof.
  unfold rename_executable.
  apply always_bind; [always_walk place_leaf|]. intros _.
  apply (always_bind_result (keeps_to_own_places O self)
           (fun found => forall p, found = Some p ->
                                   exists c, p = game_path self // c)).
  - apply always_find_executable.
  - intros w found. rewrite find_executable_first. cbn [res].
    intros H p ->. inversion H as [H1].
    destruct (find _ _) as [c|]; [|discriminate H1].
    inversion H1. now exists c.
  - intros [p|] Hp; [|always_walk place_leaf].
    destruct (Hp p eq_refl) as [c ->].
    always_walk place_leaf.
Qed.

Lemma cleanup_keeps_to_own_places :
  always (keeps_to_own_places O self) (cleanup_nwjs_files O self).
Proof.
  eapply always_weaken; [|apply cleanup_nwjs_files_tidies].
  intros [lvl msg|c r] H p Hp; [destruct Hp|].
  destruct c; cbn [tidies] in H; try contradiction;
    cbn [written_paths In] in Hp; destruct Hp as [<-|[]].
  - destruct H as [(f & _ & ->)|(x & _ & ->)]; auto with places.
  - destruct H as (f & _ & ->). auto with places.
Qed.

Lemma process_steps_keep_to_own_places (create_backup : bool) :
  always (keeps_to_own_places O self) (process_steps O self create_backup).
Proof.
  unfold process_steps.
  apply always_bind; [always_walk place_leaf|]. intros _.
  apply always_bind; [always_walk place_leaf|]. intros _.
  apply always_bind.
  { always_walk place_leaf.
    all: apply always_find_nwjs_dir; intros; place_leaf. }
  intros nwjs_dir.
  apply (always_bind_result (keeps_to_own_places O self)
           (fun temp_dir => temp_dir = holding_area self));
    [always_walk place_leaf| |].
  { intros w a Ha. pose proof (save_important_files_preserved O self w) as H.
    rewrite Ha in H. apply H. }
  intros temp_dir ->.
  apply always_bind; [apply clean_keeps_to_own_places|]. intros _.
  apply always_bind; [always_walk place_leaf|]. intros _.
  apply always_bind; [always_walk place_leaf|]. intros _.
  apply always_bind; [apply rename_keeps_to_own_places|]. intros game_exe.
  apply always_bind; [apply cleanup_keeps_to_own_places|]. intros _.
  always_walk place_leaf.
Qed.


End OwnPlaces.

(** ** A backup that fails *)

Section FailedBackup.

Context {W : Type} (O : OS W) (self : automator).

Ltac no_failed_copy_leaf :=
  solve [ intros refused Hrefused; unfold failed_backup_copy in Hrefused;
          first [ discriminate Hrefused
                | injection Hrefused; intros;
                  match goal with
                  | H : _ = backup_path self |- _ =>
                      exact (www_not_backup self H)
                  end ] ].

(** After the backup step, no call is the copy to the backup path. *)
Lemma after_backup_no_copy :
  always (fun ev => forall e, ev <> failed_backup_copy self e)
    (nwjs_dir <- setup_nwjs O self ;;
     temp_dir <- save_important_files O self ;;
     clean_game_directory O self ;;
     copy_nwjs_to_game O self nwjs_dir ;;
     restore_important_files O self temp_dir ;;
     game_exe <- rename_executable O self ;;
     cleanup_nwjs_files O self ;;
     match game_exe with
     | None =>
         raise (Exn FileNotFoundError "Could not create game executable")
     | Some game_exe =>
         (if is_win32 O
          then create_shortcut_windows O self game_exe ;; ret tt
          else ret tt) ;;
         cleanup_temp_files O ;;
         logger_info "🎉 NW.js update completed successfully!" ;;
         logger_info ("🚀 Launch the game using: " ++ path_str game_exe) ;;
         logger_info "💡 Type 'process.versions' in the game console to check your new NW.js version!" ;;
         ret (Success game_exe (game_path self))
     end).
Proof.
  always_walk no_failed_copy_leaf.
  all: first [ apply always_find_nwjs_dir; intros ? ?
             | apply always_prune_locales; [intros ? ? ?|intros ? ?] ];
    no_failed_copy_leaf.
Qed.

(** X24: when the copy that makes the backup is refused, the run ends
    there: it reports the message of that failure, and its trace holds no
    call that removes or renames anything. *)
Theorem failed_backup_aborts_run (create_backup : bool) (w : W) (e : exn) :
  let o := process_game O self create_backup w in
  In (failed_backup_copy self e) (trace o) ->
  res o = inr (Failure (exn_msg e))
  /\ Forall (fun ev => is_removal ev = false) (trace o).
Proof.
  cbv zeta.
  assert (Hsteps :
    ensures (fun r t =>
               forall e, In (failed_backup_copy self e) t ->
                         r = inl e
                         /\ Forall (fun ev => is_removal ev = false) t)
            (process_steps O self create_backup)).
  { unfold process_steps.
    apply (ensures_bind
             (fun ev => is_removal ev = false
                        /\ forall e, ev <> failed_backup_copy self e)).
    - intros r t1 t2 H1 H2 e0 Hin. apply in_app_or in Hin.
      destruct Hin as [Hin|Hin].
      + rewrite Forall_forall in H1. now elim (proj2 (H1 _ Hin) e0).
      + destruct (H2 e0 Hin) as [-> H3]. split; [reflexivity|].
        apply Forall_app. split; [|exact H3].
        eapply Forall_impl; [|exact H1]. intros ev H. apply H.
    - intros e0 t H e1 Hin. rewrite Forall_forall in H.
      now elim (proj2 (H _ Hin) e1).
    - always_walk ltac:(solve [split; [reflexivity|no_failed_copy_leaf]]).
    - intros _ w0. rewrite trace_bind, res_bind.
      pose proof (fun a => after_backup_no_copy a) as Hrest.
      destruct create_backup.
      + rewrite seq_ret_tt. cbn [res final trace].
        destruct (backup_game_trace O self w0)
          as [(a & Ha & Ht)|[(e0 & He & Ht)|(a & Ha & Ht)]];
          cbv zeta in *.
        * rewrite Ha, Ht. intros e1 Hin. exfalso.
          destruct Hin as [Heq|Hin]; [discriminate Heq|].
          specialize (Hrest (final (backup_game O self w0))).
          rewrite Forall_forall in Hrest. exact (Hrest _ Hin e1 eq_refl).
        * rewrite He, Ht. intros e1 Hin. cbn [app] in *.
          destruct Hin as [Heq|[Heq|[]]]; [discriminate Heq|].
          inversion Heq; subst. split; [reflexivity|].
          repeat constructor.
        * rewrite Ha, Ht. intros e1 Hin. exfalso.
          destruct Hin as [Heq|[Heq|[Heq|Hin]]]; try discriminate Heq.
          specialize (Hrest (final (backup_game O self w0))).
          rewrite Forall_forall in Hrest. exact (Hrest _ Hin e1 eq_refl).
      + cbn [ret res final trace app]. intros e1 Hin. exfalso.
        specialize (Hrest w0).
        rewrite Forall_forall in Hrest. exact (Hrest _ Hin e1 eq_refl). }
  unfold process_game, logger_info, logger_error.
  rewrite run_bind_emit. cbn [prepend res trace app].
  rewrite trace_try_except, res_try_except.
  intros [Heq|Hin]; [discriminate Heq|].
  apply in_app_or in Hin. destruct Hin as [Hin|Hin].
  - destruct (Hsteps w e Hin) as [Hres Hquiet]. rewrite Hres.
    split; [reflexivity|].
    constructor; [reflexivity|]. apply Forall_app. split; [exact Hquiet|].
    repeat constructor.
  - destruct (res (process_steps O self create_backup w)); [|destruct Hin].
    cbn in Hin. destruct Hin as [Heq|[]]. discriminate Heq.
Qed.

End FailedBackup.

(** ** Calls that depend on the platform *)

Section Platform.

Context {W : Type} (O : OS W) (self : automator).

(** X25: on a platform other than [win32] a run never asks for a
    shortcut, and on [win32] it never sets a file mode. *)
Theorem platform_specific_calls (create_backup : bool) (w : W) :
  let o := process_game O self create_backup w in
  (sys_platform O <> "win32" ->
   Forall (fun ev => forall lnk target workdir description r,
               ev <> Sys (CreateShortcut lnk target workdir description) r)
          (trace o))
  /\ (sys_platform O = "win32" ->
      Forall (fun ev => forall p r, ev <> Sys (Chmod p) r) (trace o)).
Proof.
  cbv zeta. split; intros Hplatform; revert w.
  - assert (Hwin : is_win32 O = false)
      by (unfold is_win32; now apply String.eqb_neq).
    change (always (fun ev => forall lnk target workdir description r,
                        ev <> Sys (CreateShortcut lnk target workdir
                                                  description) r)
                   (process_game O self create_backup)).
    unfold process_game, process_steps. rewrite Hwin.
    always_walk ltac:(solve [intros; discriminate]).
    all: first [ apply always_find_nwjs_dir; intros ? ?
               | apply always_prune_locales; [intros ? ? ?|intros ? ?] ];
      intros; discriminate.
  - assert (Hwin : is_win32 O = true)
      by (unfold is_win32; now apply String.eqb_eq).
    change (always (fun ev => forall p r, ev <> Sys (Chmod p) r)
                   (process_game O self create_backup)).
    unfold process_game, process_steps, copy_nwjs_to_game, copy_item,
      rename_executable.
    rewrite Hwin. cbn [negb andb].
    always_walk ltac:(solve [intros; discriminate]).
    all: first [ apply always_find_nwjs_dir; intros ? ?
               | apply always_prune_locales; [intros ? ? ?|intros ? ?] ];
      intros; discriminate.
Qed.

End Platform.

(** ** Well-formed trees *)

Module TreeFacts.

Import Sim SimFacts Tree.

Lemma well_formed_dir (es : list (string * node)) :
  well_formed (Dir es) = true
  <-> distinct_names es = true
      /\ Forall (fun kv => well_formed (snd kv) = true) es.
Proof.
  cbn [well_formed]. rewrite andb_true_iff.
  apply and_iff_compat_l.
  induction es as [|[k c] es IH]; [split; constructor|].
  rewrite andb_true_iff, IH. split.
  - intros [Hc Hes]. now constructor.
  - intros H. inversion H; subst. auto.
Qed.

(** Filling a free slot appends the entry. *)
Lemma slot_set_absent (c : string) (x : node) es :
  assoc c es = None -> slot_set c (Some x) es = (es ++ [(c, x)])%list.
Proof.
  induction es as [|[k v] es IH]; [reflexivity|].
  cbn. destruct (String.eqb k c); [discriminate|].
  intros H. now rewrite IH.
Qed.

Lemma assoc_app_none (c : string) (a b : list (string * node)) :
  assoc c (a ++ b)%list = None <-> assoc c a = None /\ assoc c b = None.
Proof.
  induction a as [|[k v] a IH]; cbn; [tauto|].
  destruct (String.eqb k c); [|exact IH].
  split; [discriminate|]. intros [H _]. discriminate H.
Qed.

(** Copying a well-formed tree to a place where nothing is gives the tree
    itself. *)
Lemma copy_over_fresh (n : node) :
  well_formed n = true ->
  forall nm, copy_over n nm None = (Some n, false).
Proof.
  induction n as [d|es IH] using node_induction; intros Hwf nm;
    [reflexivity|].
  cbn [copy_over].
  apply well_formed_dir in Hwf. destruct Hwf as [Hdistinct Hall].
  assert (Hstep :
    forall acc,
      (forall k c, In (k, c) es -> assoc k acc = None) ->
      (fix step (l : list (string * node))
           (a : list (string * node) * bool) :=
         match l with
         | [] => a
         | (k, c) :: rest =>
             let (v, bad) := copy_over c k (assoc k (fst a)) in
             step rest (slot_set k v (fst a), snd a || bad)
         end) es (acc, false)
      = ((acc ++ es)%list, false)).
  { clear nm. induction es as [|[k c] es IHes]; intros acc Hfree.
    - now rewrite app_nil_r.
    - cbn [fst snd].
      rewrite (Hfree k c (or_introl eq_refl)).
      inversion IH as [|? ? Hc IH']; subst. cbn [snd] in Hc.
      inversion Hall as [|? ? Hwc Hall']; subst. cbn [snd] in Hwc.
      rewrite (Hc Hwc k). cbn [orb].
      rewrite slot_set_absent by (apply (Hfree k c); now left).
      cbn in Hdistinct.
      destruct (assoc k es) as [|] eqn:Hk; [discriminate Hdistinct|].
      rewrite IHes; try assumption.
      + now rewrite <- app_assoc.
      + intros k' c' Hin. apply assoc_app_none. split.
        * apply (Hfree k' c'). now right.
        * cbn. destruct (String.eqb_spec k k') as [->|_]; [|reflexivity].
          exfalso. clear - Hk Hin.
          induction es as [|[k0 v0] es IH0]; [destruct Hin|].
          cbn in Hk. destruct (String.eqb_spec k0 k') as [->|Hne];
            [discriminate Hk|].
          destruct Hin as [Heq|Hin]; [inversion Heq; congruence|auto]. }
  rewrite (Hstep [] (fun _ _ _ => eq_refl)). reflexivity.
Qed.

End TreeFacts.

(** ** What a call leaves alone *)

Module Frame.

Import Sim SimFacts Tree TreeFacts.

Lemma related_cons (x : string) (a b : path) :
  related (x :: a) (x :: b) = related a b.
Proof. unfold related. cbn. now rewrite String.eqb_refl. Qed.

Lemma related_sym (a b : path) : related a b = related b a.
Proof. unfold related. apply orb_comm. Qed.

Lemma is_prefix_trans (a b c : path) :
  is_prefix a b = true -> is_prefix b c = true -> is_prefix a c = true.
Proof.
  revert b c. induction a as [|x a IH]; intros b c Hab Hbc; [reflexivity|].
  destruct b as [|y b]; [discriminate Hab|].
  destruct c as [|z c]; [discriminate Hbc|].
  cbn in *. apply andb_true_iff in Hab, Hbc.
  destruct Hab as [Hxy Hab], Hbc as [Hyz Hbc].
  apply String.eqb_eq in Hxy, Hyz. subst.
  rewrite String.eqb_refl. cbn. eapply IH; eassumption.
Qed.

Lemma is_prefix_removelast (d : path) : is_prefix (removelast d) d = true.
Proof.
  induction d as [|x d IH]; [reflexivity|].
  cbn [removelast]. destruct d as [|y d]; [reflexivity|].
  cbn [is_prefix]. rewrite String.eqb_refl. exact IH.
Qed.

(** Two paths on one branch are comparable. *)
Lemma is_prefix_same_branch (a b c : path) :
  is_prefix a c = true -> is_prefix b c = true -> related a b = true.
Proof.
  revert b c. induction a as [|x a IH]; intros b c Ha Hb; [reflexivity|].
  destruct b as [|y b]; [reflexivity|].
  destruct c as [|z c]; [discriminate Ha|].
  cbn in Ha, Hb. apply andb_true_iff in Ha, Hb.
  destruct Ha as [Hxz Ha], Hb as [Hyz Hb].
  apply String.eqb_eq in Hxz, Hyz. subst.
  rewrite related_cons. eapply IH; eassumption.
Qed.

(** What is apart from a path is apart from all below it. *)
Lemma related_below (p p' q : path) :
  is_prefix p p' = true -> related p q = false -> related p' q = false.
Proof.
  intros Hpp Hpq. destruct (related p' q) eqn:E; [|reflexivity].
  unfold related in E. apply orb_true_iff in E. destruct E as [E|E].
  - rewrite <- Hpq. unfold related.
    now rewrite (is_prefix_trans _ _ _ Hpp E).
  - rewrite <- Hpq. symmetry. rewrite related_sym.
    eapply is_prefix_same_branch; eassumption.
Qed.

Lemma related_child (p q : path) (c : string) :
  related p q = false -> related (p // c) q = false.
Proof. apply related_below. apply is_prefix_extend. Qed.

(** Rewriting a slot changes nothing at a path that is apart from it. *)
Lemma lookup_alter_apart (p : path) f (n n' : node) (q : path) :
  alter p f n = Some n' -> related p q = false ->
  lookup q n' = lookup q n.
Proof.
  revert n n' q. induction p as [|c p IH]; intros n n' q H Hq;
    [discriminate Hq|].
  destruct q as [|d q]; [discriminate Hq|].
  destruct n as [data|es]; [discriminate H|].
  cbn [alter] in H.
  destruct (String.eqb_spec d c) as [->|Hne].
  - rewrite related_cons in Hq.
    destruct p as [|y rest]; [discriminate Hq|].
    destruct (assoc c es) as [m|] eqn:E; [|discriminate H].
    destruct (alter (y :: rest) f m) as [m'|] eqn:Hm; [|discriminate H].
    inversion H; subst. cbn [lookup].
    rewrite assoc_slot_set_same, E. eapply IH; eassumption.
  - destruct p as [|y rest].
    + inversion H; subst. cbn [lookup].
      now rewrite assoc_slot_set_other.
    + destruct (assoc c es) as [m|] eqn:E; [|discriminate H].
      destruct (alter (y :: rest) f m) as [m'|] eqn:Hm; [|discriminate H].
      inversion H; subst. cbn [lookup].
      now rewrite assoc_slot_set_other.
Qed.

(** Making directories changes nothing at a path that is not one of
    them. *)
Lemma makedirs_apart (p : path) (n n' : node) (q : path) :
  makedirs p n = Some n' -> is_prefix q p = false ->
  lookup q n' = lookup q n.
Proof.
  revert n n' q. induction p as [|c p IH]; intros n n' q H Hq.
  - destruct n; [discriminate H|]. now inversion H.
  - destruct n as [data|es]; [discriminate H|].
    cbn [makedirs] in H.
    destruct (makedirs p (match assoc c es with
                          | Some m => m
                          | None => Dir []
                          end)) as [m'|] eqn:Hm; [|discriminate H].
    inversion H; subst.
    destruct q as [|d q]; [discriminate Hq|].
    cbn [lookup]. cbn [is_prefix] in Hq.
    destruct (String.eqb_spec d c) as [->|Hne].
    + rewrite assoc_slot_set_same. cbn [andb] in Hq.
      rewrite (IH _ _ q Hm Hq).
      destruct (assoc c es); [reflexivity|].
      destruct q; [discriminate Hq|reflexivity].
    + now rewrite assoc_slot_set_other.
Qed.

Lemma with_root_root (r : node) (w : world) : root (with_root r w) = r.
Proof. reflexivity. Qed.

Lemma write_file_apart (p : path) (data : string) (w : world) (q : path) :
  related p q = false ->
  lookup q (root (snd (write_file p data w))) = lookup q (root w).
Proof.
  intros Hq. unfold write_file, fails, done, put.
  destruct (frozen w p); [reflexivity|].
  destruct (lookup p (root w)) as [[d|es]|];
    try reflexivity;
    destruct (alter p (fun _ => Some (File data)) (root w)) eqn:E;
    try reflexivity; cbn [snd with_root root];
    eapply lookup_alter_apart; eassumption.
Qed.

Lemma lay_over_apart es (dst : path) (w : world) (q : path) :
  related dst q = false ->
  lookup q (root (snd (lay_over es dst w))) = lookup q (root w).
Proof.
  intros Hq. unfold lay_over, fails, done, put.
  destruct (makedirs (parent dst) (root w)) as [r1|] eqn:Hmk;
    [|reflexivity].
  assert (Hr1 : lookup q r1 = lookup q (root w)).
  { eapply makedirs_apart; [exact Hmk|].
    destruct (is_prefix q (parent dst)) eqn:E; [|reflexivity].
    exfalso. unfold related in Hq. apply orb_false_iff in Hq.
    destruct Hq as [_ Hq].
    rewrite (is_prefix_trans _ _ _ E (is_prefix_removelast dst)) in Hq.
    discriminate Hq. }
  destruct (copy_over (Dir es) (name dst) (lookup dst r1)) as [[v|] bad];
    [|reflexivity].
  destruct (alter dst (fun _ => Some v) r1) as [r2|] eqn:Hput;
    [|reflexivity].
  destruct bad; cbn [snd with_root root];
    rewrite (lookup_alter_apart _ _ _ _ _ Hput Hq); exact Hr1.
Qed.

Lemma delete_apart (p : path) (n n' : node) (q : path) :
  delete p n = Some n' -> related p q = false -> lookup q n' = lookup q n.
Proof.
  unfold delete. destruct p; [discriminate|]. apply lookup_alter_apart.
Qed.

(** A call changes nothing at a path that is apart from every path it
    writes at. *)
Lemma run_apart (platform : string) (c : syscall) (w : world) (q : path) :
  (forall p, In p (written_paths (Sys c None)) -> related p q = false) ->
  lookup q (root (snd (run platform c w))) = lookup q (root w).
Proof.
  intros Hq. destruct c; cbn [written_paths In] in Hq; cbn [run].
  - apply write_file_apart. auto.
  - apply write_file_apart. auto.
  - unfold fails, done, put.
    destruct (lookup p (root w)) as [[d|es]|]; try reflexivity.
    destruct (alter p (fun _ => Some (Dir [])) (root w)) eqn:E;
      [|reflexivity].
    cbn [snd with_root root]. eapply lookup_alter_apart; eauto.
  - unfold fails.
    destruct (lookup src (root w)) as [[d|es]|]; try reflexivity.
    destruct (path_eqb src _); [reflexivity|].
    apply write_file_apart.
    destruct (lookup dst (root w)) as [[d'|es']|]; auto.
    apply related_child. auto.
  - unfold fails.
    destruct (lookup src (root w)) as [[d|es]|]; try reflexivity.
    destruct (frozen w dst); [reflexivity|].
    destruct (lookup dst (root w)) as [[d'|es']|]; try reflexivity.
    + destruct dirs_exist_ok; [|reflexivity]. apply lay_over_apart. auto.
    + apply lay_over_apart. auto.
  - unfold fails, done.
    destruct (lookup p (root w)) as [[d|es]|]; try reflexivity.
    destruct (frozen w p); [reflexivity|].
    destruct (delete p (root w)) eqn:E; [|reflexivity].
    cbn [snd with_root root]. eapply delete_apart; eauto.
  - unfold fails, done.
    destruct (lookup p (root w)) as [[d|es]|]; try reflexivity.
    destruct (frozen w p); [reflexivity|].
    destruct (delete p (root w)) eqn:E; [|reflexivity].
    cbn [snd with_root root]. eapply delete_apart; eauto.
  - unfold fails, done, put.
    destruct (lookup src (root w)) as [n|]; [|reflexivity].
    destruct (frozen w src || frozen w dst); [reflexivity|].
    destruct (path_eqb src dst); [reflexivity|].
    destruct (is_prefix src dst); [reflexivity|].
    assert (Hmove :
      lookup q
        (root (snd match delete src (root w) with
                   | Some r1 =>
                       match alter dst (fun _ => Some n) r1 with
                       | Some r2 => (None, with_root r2 w)
                       | None => (Some (no_such dst), w)
                       end
                   | None => (Some (no_such src), w)
                   end))
      = lookup q (root w)).
    { destruct (delete src (root w)) as [r1|] eqn:E1; [|reflexivity].
      destruct (alter dst (fun _ => Some n) r1) as [r2|] eqn:E2;
        [|reflexivity].
      cbn [snd with_root root].
      rewrite (lookup_alter_apart _ _ _ _ _ E2) by auto.
      eapply delete_apart; eauto. }
    destruct (lookup dst (root w)) as [d|]; [|exact Hmove].
    destruct (String.eqb platform "win32"); [reflexivity|].
    destruct n as [dn|esn], d as [dd|[|e0 esd]];
      first [exact Hmove|reflexivity].
  - unfold fails.
    destruct (lookup p (root w)); [|reflexivity].
    destruct (frozen w p); reflexivity.
  - unfold fails.
    destruct (lookup archive (root w)) as [[data|es]|]; try reflexivity.
    destruct (table_get data (archives w)); [|reflexivity].
    apply lay_over_apart. auto.
  - unfold fails.
    destruct (lookup archive (root w)) as [[data|es]|]; try reflexivity.
    destruct (table_get data (archives w)); [|reflexivity].
    apply lay_over_apart. auto.
  - unfold fails, done, put.
    destruct (alter lnk _ (root w)) eqn:E; [|reflexivity].
    cbn [snd with_root root]. eapply lookup_alter_apart; eauto.
Qed.

End Frame.

(** ** What a call that goes through leaves behind *)

Module Effects.

Import Sim SimFacts Tree TreeFacts Frame.

Lemma same_apart_from_refl (p : path) (n : node) : same_apart_from p n n.
Proof. intros q _. reflexivity. Qed.

Lemma same_apart_from_trans (p : path) (a b c : node) :
  same_apart_from p a b -> same_apart_from p b c -> same_apart_from p a c.
Proof. intros Hab Hbc q Hq. now rewrite (Hbc q Hq), (Hab q Hq). Qed.

(** What is the same apart from a path is the same apart from any path
    above it. *)
Lemma same_apart_from_above (p p' : path) (a b : node) :
  is_prefix p p' = true -> same_apart_from p' a b -> same_apart_from p a b.
Proof.
  intros Hpp H q Hq. apply H. eapply related_below; eassumption.
Qed.

Lemma frozen_locked (w w' : world) (p : path) :
  locked w' = locked w -> frozen w' p = frozen w p.
Proof. intros H. unfold frozen. now rewrite H. Qed.

(** Where nothing is locked at or below a path, nothing is locked below
    what it holds. *)
Lemma frozen_below (w : world) (g rest : path) :
  frozen w g = false -> frozen w (g ++ rest)%list = false.
Proof.
  unfold frozen. intros H.
  destruct (existsb (is_prefix (g ++ rest)%list) (locked w)) eqn:E;
    [|reflexivity].
  apply existsb_exists in E. destruct E as (x & Hin & Hx).
  rewrite <- H. symmetry. apply existsb_exists. exists x.
  split; [exact Hin|].
  eapply is_prefix_trans; [apply is_prefix_extend|exact Hx].
Qed.

Lemma is_prefix_refl (p : path) : is_prefix p p = true.
Proof.
  induction p as [|x p IH]; [reflexivity|].
  cbn. now rewrite String.eqb_refl.
Qed.

Lemma path_eqb_eq (a b : path) : path_eqb a b = true -> a = b.
Proof.
  revert b. induction a as [|x a IH]; intros [|y b] H;
    try discriminate H; [reflexivity|].
  cbn in H. apply andb_true_iff in H. destruct H as [Hxy Hab].
  apply String.eqb_eq in Hxy. subst. f_equal. now apply IH.
Qed.

Lemma path_eqb_apart (a b : path) :
  related a b = false -> path_eqb a b = false.
Proof.
  intros H. destruct (path_eqb a b) eqn:E; [|reflexivity].
  apply path_eqb_eq in E. subst. unfold related in H.
  now rewrite is_prefix_refl in H.
Qed.

(** Two paths that part ways below a common directory. *)
Lemma related_branches (g : path) (c d : string) (r1 r2 : path) :
  c <> d -> related (g ++ c :: r1)%list (g ++ d :: r2)%list = false.
Proof.
  intros Hne. rewrite related_app. unfold related. cbn.
  destruct (String.eqb_spec c d) as [->|_]; [now elim Hne|].
  destruct (String.eqb_spec d c) as [->|_]; [now elim Hne|].
  reflexivity.
Qed.

Lemma related_children (g : path) (c d : string) :
  c <> d -> related (g // c) (g // d) = false.
Proof. apply related_branches. Qed.

Lemma is_prefix_child_parent (g : path) (c : string) :
  is_prefix (g ++ [c])%list g = false.
Proof.
  induction g as [|x g IH]; [reflexivity|].
  cbn. now rewrite String.eqb_refl.
Qed.

Lemma apart_not_above (g : path) (c : string) (q : path) :
  related (g ++ [c])%list q = false -> is_prefix q g = false.
Proof.
  intros H. destruct (is_prefix q g) eqn:E; [|reflexivity].
  unfold related in H. apply orb_false_iff in H. destruct H as [_ H].
  rewrite <- H. symmetry.
  eapply is_prefix_trans; [exact E|apply is_prefix_extend].
Qed.

Lemma lookup_app (g r : path) (n : node) :
  lookup (g ++ r)%list n
  = match lookup g n with
    | Some m => lookup r m
    | None => None
    end.
Proof.
  revert n. induction g as [|x g IH]; intros n; [reflexivity|].
  cbn. destruct n as [d|es]; [reflexivity|].
  destruct (assoc x es); [apply IH|reflexivity].
Qed.

(** Making directories that are there goes through. *)
Lemma makedirs_of_directory (p : path) (n : node) es :
  lookup p n = Some (Dir es) ->
  exists n' es', makedirs p n = Some n' /\ lookup p n' = Some (Dir es').
Proof.
  revert n. induction p as [|c p IH]; intros n H; cbn in H.
  - inversion H; subst. exists (Dir es), es. split; reflexivity.
  - destruct n as [d|es0]; [discriminate H|].
    destruct (assoc c es0) as [m|] eqn:E; [|discriminate H].
    destruct (IH m H) as (m' & es' & Hmk & Hm').
    exists (Dir (slot_set c (Some m') es0)), es'.
    cbn [makedirs lookup]. rewrite E, Hmk, assoc_slot_set_same.
    split; [reflexivity|exact Hm'].
Qed.

(** Laying a well-formed tree over a free slot of a directory puts the tree
    there. *)
Lemma lay_over_fresh es (g : path) (c : string) (w : world) pes :
  well_formed (Dir es) = true ->
  lookup g (root w) = Some (Dir pes) ->
  lookup (g ++ [c])%list (root w) = None ->
  exists r,
    lay_over es (g ++ [c])%list w = (None, with_root r w)
    /\ lookup (g ++ [c])%list r = Some (Dir es)
    /\ same_apart_from (g ++ [c])%list (root w) r.
Proof.
  intros Hwf Hg Hfree. unfold lay_over, parent.
  rewrite removelast_last.
  destruct (makedirs_of_directory _ _ _ Hg) as (r1 & es1 & Hmk & Hg1).
  rewrite Hmk.
  rewrite (makedirs_apart _ _ _ _ Hmk (is_prefix_child_parent g c)), Hfree.
  rewrite (copy_over_fresh _ Hwf).
  destruct (alter_child g c (fun _ => Some (Dir es)) _ _ Hg1) as [r2 Hr2].
  unfold put. rewrite Hr2. exists r2. split; [reflexivity|]. split.
  - now rewrite (lookup_alter_same _ _ _ _ _ Hr2).
  - intros q Hq. rewrite (lookup_alter_apart _ _ _ _ _ Hr2 Hq).
    eapply makedirs_apart; [exact Hmk|].
    eapply apart_not_above, Hq.
Qed.

Section Calls.

Variables (platform : string) (w : world) (g : path) (c : string).

Lemma put_in_directory (x : node) pes :
  lookup g (root w) = Some (Dir pes) ->
  exists r,
    put (g ++ [c])%list x (root w) = Some r
    /\ lookup (g ++ [c])%list r = Some x
    /\ same_apart_from (g ++ [c])%list (root w) r.
Proof.
  intros Hg.
  destruct (alter_child g c (fun _ => Some x) _ _ Hg) as [r Hr].
  exists r. split; [exact Hr|]. split.
  - now rewrite (lookup_alter_same _ _ _ _ _ Hr).
  - intros q Hq. eapply lookup_alter_apart; eassumption.
Qed.

Lemma delete_from_directory (m : node) :
  lookup (g ++ [c])%list (root w) = Some m ->
  exists r,
    delete (g ++ [c])%list (root w) = Some r
    /\ lookup (g ++ [c])%list r = None
    /\ (exists es', lookup g r = Some (Dir es'))
    /\ same_apart_from (g ++ [c])%list (root w) r.
Proof.
  intros Hm. destruct (lookup_child_parent _ _ _ _ Hm) as [es Hg].
  destruct (alter_child g c (fun _ => None) _ _ Hg) as [r Hr].
  exists r. split; [|split; [|split]].
  - unfold delete. destruct (g ++ [c])%list eqn:E; [now destruct g|].
    exact Hr.
  - now rewrite (lookup_alter_same _ _ _ _ _ Hr).
  - eapply lookup_alter_parent, Hr.
  - intros q Hq. eapply lookup_alter_apart; eassumption.
Qed.

Lemma write_file_goes_through (data : string) pes :
  lookup g (root w) = Some (Dir pes) ->
  is_dir_ (g ++ [c])%list w = false ->
  frozen w (g ++ [c])%list = false ->
  exists r,
    write_file (g ++ [c])%list data w = (None, with_root r w)
    /\ lookup (g ++ [c])%list r = Some (File data)
    /\ same_apart_from (g ++ [c])%list (root w) r.
Proof.
  intros Hg Hnodir Hfree.
  destruct (put_in_directory (File data) _ Hg) as (r & Hput & Hr).
  exists r. split; [|exact Hr].
  unfold write_file, is_dir_ in *. rewrite Hfree.
  destruct (lookup (g ++ [c])%list (root w)) as [[d|es]|]; try discriminate Hnodir;
    now rewrite Hput.
Qed.

Lemma mkdir_goes_through pes :
  lookup g (root w) = Some (Dir pes) ->
  lookup (g ++ [c])%list (root w) = None ->
  exists r,
    run platform (Mkdir (g ++ [c])%list) w = (None, with_root r w)
    /\ lookup (g ++ [c])%list r = Some (Dir [])
    /\ same_apart_from (g ++ [c])%list (root w) r.
Proof.
  intros Hg Hfree.
  destruct (put_in_directory (Dir []) _ Hg) as (r & Hput & Hr).
  exists r. split; [|exact Hr].
  cbn [run]. now rewrite Hfree, Hput.
Qed.

Lemma copy2_goes_through (src : path) (d : string) pes :
  lookup src (root w) = Some (File d) ->
  related src (g ++ [c])%list = false ->
  lookup g (root w) = Some (Dir pes) ->
  is_dir_ (g ++ [c])%list w = false ->
  frozen w (g ++ [c])%list = false ->
  exists r,
    run platform (Copy2 src (g ++ [c])%list) w = (None, with_root r w)
    /\ lookup (g ++ [c])%list r = Some (File d)
    /\ same_apart_from (g ++ [c])%list (root w) r.
Proof.
  intros Hsrc Hapart Hg Hnodir Hfree.
  destruct (write_file_goes_through d _ Hg Hnodir Hfree) as (r & Hw & Hr).
  exists r. split; [|exact Hr].
  cbn [run]. rewrite Hsrc.
  unfold is_dir_ in Hnodir.
  destruct (lookup (g ++ [c])%list (root w)) as [[?|?]|];
    try discriminate Hnodir;
    now rewrite (path_eqb_apart _ _ Hapart).
Qed.

Lemma copytree_goes_through (src : path) es (ok : bool) pes :
  lookup src (root w) = Some (Dir es) ->
  well_formed (Dir es) = true ->
  lookup g (root w) = Some (Dir pes) ->
  lookup (g ++ [c])%list (root w) = None ->
  frozen w (g ++ [c])%list = false ->
  exists r,
    run platform (Copytree src (g ++ [c])%list ok) w = (None, with_root r w)
    /\ lookup (g ++ [c])%list r = Some (Dir es)
    /\ same_apart_from (g ++ [c])%list (root w) r.
Proof.
  intros Hsrc Hwf Hg Hnone Hfree.
  destruct (lay_over_fresh es g c w _ Hwf Hg Hnone) as (r & Hlay & Hr).
  exists r. split; [|exact Hr].
  cbn [run]. now rewrite Hsrc, Hfree, Hnone.
Qed.

Lemma unlink_goes_through (d : string) :
  lookup (g ++ [c])%list (root w) = Some (File d) ->
  frozen w (g ++ [c])%list = false ->
  exists r,
    run platform (Unlink (g ++ [c])%list) w = (None, with_root r w)
    /\ lookup (g ++ [c])%list r = None
    /\ (exists es', lookup g r = Some (Dir es'))
    /\ same_apart_from (g ++ [c])%list (root w) r.
Proof.
  intros Hfile Hfree.
  destruct (delete_from_directory _ Hfile) as (r & Hdel & Hr).
  exists r. split; [|exact Hr].
  cbn [run]. now rewrite Hfile, Hfree, Hdel.
Qed.

Lemma rmtree_goes_through es :
  lookup (g ++ [c])%list (root w) = Some (Dir es) ->
  frozen w (g ++ [c])%list = false ->
  exists r,
    run platform (Rmtree (g ++ [c])%list) w = (None, with_root r w)
    /\ lookup (g ++ [c])%list r = None
    /\ (exists es', lookup g r = Some (Dir es'))
    /\ same_apart_from (g ++ [c])%list (root w) r.
Proof.
  intros Hdir Hfree.
  destruct (delete_from_directory _ Hdir) as (r & Hdel & Hr).
  exists r. split; [|exact Hr].
  cbn [run]. now rewrite Hdir, Hfree, Hdel.
Qed.

End Calls.

End Effects.

(** ** The holding area on the in-memory filesystem *)

Section Neighbours.

Import Sim SimFacts Tree TreeFacts Frame Effects.

Variable self : automator.

Hypothesis Hnamed : game_path self <> [].

(** The holding area and the target directory are two children of one
    directory: nothing of the one is on the way to, or inside, the
    other. *)
Lemma holding_apart_from_target (h t : path) :
  is_prefix (holding_area self) h = true ->
  is_prefix (game_path self) t = true ->
  related h t = false.
Proof.
  intros Hh Ht.
  assert (Hbase : related (holding_area self) (game_path self) = false).
  { unfold holding_area, child.
    pose proof (path_snoc _ Hnamed) as Hs.
    remember (parent (game_path self)) as pg eqn:Epg.
    remember (name (game_path self)) as gn eqn:Egn.
    clear Epg Egn. rewrite Hs.
    apply (related_branches pg _ gn [] []).
    intros Heq. apply (f_equal String.length) in Heq.
    cbn in Heq. rewrite length_append in Heq. cbn in Heq. lia. }
  eapply related_below; [exact Hh|].
  rewrite related_sym.
  eapply related_below; [exact Ht|].
  now rewrite related_sym.
Qed.

(** So are the backup and the target directory. *)
Lemma backup_apart_from_target (b t : path) :
  is_prefix (backup_path self) b = true ->
  is_prefix (game_path self) t = true ->
  related b t = false.
Proof.
  intros Hb Ht.
  assert (Hbase : related (backup_path self) (game_path self) = false).
  { unfold backup_path, child.
    pose proof (path_snoc _ Hnamed) as Hs.
    remember (parent (game_path self)) as pg eqn:Epg.
    remember (name (game_path self)) as gn eqn:Egn.
    clear Epg Egn. rewrite Hs.
    apply (related_branches pg _ gn [] []).
    intros Heq. apply (f_equal String.length) in Heq.
    rewrite length_append in Heq. cbn in Heq. lia. }
  eapply related_below; [exact Hb|].
  rewrite related_sym.
  eapply related_below; [exact Ht|].
  now rewrite related_sym.
Qed.

Lemma backup_apart_from_holding (b h : path) :
  is_prefix (backup_path self) b = true ->
  is_prefix (holding_area self) h = true ->
  related b h = false.
Proof.
  intros Hb Hh.
  assert (Hbase : related (backup_path self) (holding_area self) = false).
  { unfold backup_path, holding_area, child.
    apply (related_branches _ _ _ [] []).
    intros Heq. apply (f_equal String.length) in Heq.
    cbn in Heq. rewrite !length_append in Heq. cbn in Heq. lia. }
  eapply related_below; [exact Hb|].
  rewrite related_sym.
  eapply related_below; [exact Hh|].
  now rewrite related_sym.
Qed.

Lemma target_has_parent (w : world) (n : node) :
  lookup (game_path self) (root w) = Some n ->
  exists pes, lookup (parent (game_path self)) (root w) = Some (Dir pes).
Proof.
  intros H. rewrite (path_snoc _ Hnamed) in H.
  eapply lookup_child_parent, H.
Qed.

End Neighbours.

(** What is apart stays apart further down. *)
Lemma related_further (a b a' b' : path) :
  related a b = false ->
  is_prefix a a' = true -> is_prefix b b' = true ->
  related a' b' = false.
Proof.
  intros H Ha Hb.
  eapply Frame.related_below; [exact Ha|].
  rewrite Frame.related_sym.
  eapply Frame.related_below; [exact Hb|].
  now rewrite Frame.related_sym.
Qed.

(** The name of a shortcut is not the name of an asset. *)
Lemma shortcut_is_not_www (s : string) : s ++ ".lnk" <> "www".
Proof.
  intros H. apply (f_equal String.length) in H.
  rewrite length_append in H. cbn in H. lia.
Qed.

Lemma shortcut_is_not_the_manifest (s : string) :
  s ++ ".lnk" <> "package.json".
Proof.
  intros H.
  assert (Hlen : String.length s = 8).
  { apply (f_equal String.length) in H.
    rewrite length_append in H. cbn in H. lia. }
  assert (Hk : String.get (3 + String.length s) (s ++ ".lnk")
               = Some "k"%char).
  { rewrite <- (append_correct2 s ".lnk" 3). reflexivity. }
  rewrite H, Hlen in Hk. discriminate Hk.
Qed.

Ltac above :=
  first [ apply Effects.is_prefix_refl
        | apply is_prefix_extend
        | unfold child; rewrite <- app_assoc; apply is_prefix_extend ].

Ltac apart :=
  first [ eapply holding_apart_from_target; [eassumption|above|above]
        | rewrite Frame.related_sym;
          eapply holding_apart_from_target; [eassumption|above|above]
        | eapply backup_apart_from_target; [eassumption|above|above]
        | rewrite Frame.related_sym;
          eapply backup_apart_from_target; [eassumption|above|above]
        | eapply backup_apart_from_holding; [above|above]
        | rewrite Frame.related_sym;
          eapply backup_apart_from_holding; [above|above]
        | apply Effects.related_children;
          first [ discriminate | assumption
                | apply shortcut_is_not_www
                | apply shortcut_is_not_the_manifest ]
        | apply (Effects.related_branches _ _ _ []); discriminate
        | unfold child; rewrite <- !app_assoc; cbn [app];
          apply Effects.related_branches; discriminate
        | match goal with
          | H : related ?a ?b = false |- related _ _ = false =>
              apply (related_further a b _ _ H); above
          | H : related ?a ?b = false |- related _ _ = false =>
              rewrite Frame.related_sym;
              apply (related_further a b _ _ H); above
          end ].

Section FaithfulBackup.

Import Sim SimFacts Tree TreeFacts Frame Effects.

Variables (platform machine : string) (wd : path) (self : automator).

(** X26: on the in-memory filesystem, when the target directory has a
    name and is a well-formed directory, and nothing is at the backup path
    nor locked there: [backup_game] returns the backup path, the backup
    then holds exactly the tree the target directory holds, the target
    directory is as it was, and so is everything that is not on the way
    to the backup. *)
Theorem backup_is_a_faithful_copy (w : world) es :
  let O := sim_os platform machine wd in
  let o := backup_game O self w in
  game_path self <> [] ->
  lookup (game_path self) (root w) = Some (Dir es) ->
  well_formed (Dir es) = true ->
  lookup (backup_path self) (root w) = None ->
  frozen w (backup_path self) = false ->
  res o = inr (backup_path self)
  /\ lookup (backup_path self) (root (final o)) = Some (Dir es)
  /\ lookup (game_path self) (root (final o)) = Some (Dir es)
  /\ same_apart_from (backup_path self) (root w) (root (final o)).
Proof.
  intros O o Hnamed Hgame Hwf Hfree Hunlocked. subst O o.
  destruct (target_has_parent self Hnamed w _ Hgame) as [pes Hparent].
  assert (Hcopy : exists r,
    run platform (Copytree (game_path self) (backup_path self) false) w
    = (None, with_root r w)
    /\ lookup (backup_path self) r = Some (Dir es)
    /\ same_apart_from (backup_path self) (root w) r)
    by exact (copytree_goes_through platform w _ _ _ es false _
                Hgame Hwf Hparent Hfree Hunlocked).
  destruct Hcopy as (r & Hrun & Hthere & Hsame).
  assert (Hbackup : exists t,
    backup_game (sim_os platform machine wd) self w
    = Outcome (inr (backup_path self)) (with_root r w) t).
  { unfold backup_game, logger_info.
    erewrite bind_pure by apply run_path_exists.
    cbn [os_exists sim_os]. unfold exists_ at 1. rewrite Hfree.
    rewrite run_bind_emit.
    erewrite bind_ok by (apply sys_ok; exact Hrun).
    eexists. reflexivity. }
  destruct Hbackup as [t ->]. cbn [res final root with_root].
  split; [reflexivity|]. split; [exact Hthere|].
  split; [|exact Hsame].
  rewrite Hsame; [exact Hgame|].
  eapply backup_apart_from_target;
    [exact Hnamed|apply is_prefix_refl|apply is_prefix_refl].
Qed.

End FaithfulBackup.

Section FaithfulSave.

Import Sim SimFacts Tree TreeFacts Frame Effects.

Variables (platform machine : string) (wd : path) (self : automator).

(** X27: on the in-memory filesystem, when the target directory has a
    name, its manifest is a file, its [www] is a well-formed directory, its
    [index.html] is a file or missing, and the holding area is neither
    there nor locked: [save_important_files] returns the holding area,
    which then holds the manifest, the whole [www] tree and the entry
    point (if there was one) exactly as the target directory has them;
    and nothing outside the holding area has changed, the target
    directory included. *)
Theorem save_is_a_faithful_copy (w : world) (m : string) wes
        (index : option string) :
  let O := sim_os platform machine wd in
  let game := game_path self in
  let holding := holding_area self in
  let o := save_important_files O self w in
  game <> [] ->
  lookup (game // "package.json") (root w) = Some (File m) ->
  lookup (game // "www") (root w) = Some (Dir wes) ->
  well_formed (Dir wes) = true ->
  lookup (game // "index.html") (root w) = option_map File index ->
  lookup holding (root w) = None ->
  frozen w holding = false ->
  res o = inr holding
  /\ lookup (holding // "package.json") (root (final o)) = Some (File m)
  /\ lookup (holding // "www") (root (final o)) = Some (Dir wes)
  /\ lookup (holding // "index.html") (root (final o))
     = option_map File index
  /\ lookup game (root (final o)) = lookup game (root w)
  /\ same_apart_from holding (root w) (root (final o)).
Proof.
  intros O game holding o Hnamed Hm Hwww Hwf Hindex Hfree Hunlocked.
  subst O game holding o.
  destruct (lookup_child_parent _ _ _ _ Hm) as [ges Hgame].
  destruct (target_has_parent self Hnamed w _ Hgame) as [pes Hparent].
  (* the holding area is made *)
  assert (Hstep1 : exists r1,
    run platform (Mkdir (holding_area self)) w = (None, with_root r1 w)
    /\ lookup (holding_area self) r1 = Some (Dir [])
    /\ same_apart_from (holding_area self) (root w) r1)
    by exact (mkdir_goes_through platform w _ _ _ Hparent Hfree).
  destruct Hstep1 as (r1 & Hrun1 & Hh1 & Hsame1).
  assert (Hempty1 : forall c, lookup (holding_area self // c) r1 = None).
  { intros c. unfold child. now rewrite lookup_app, Hh1. }
  (* the manifest is copied *)
  assert (Hstep2 : exists r2,
    run platform (Copy2 (game_path self // "package.json")
                        (holding_area self // "package.json"))
        (with_root r1 w)
    = (None, with_root r2 w)
    /\ lookup (holding_area self // "package.json") r2 = Some (File m)
    /\ same_apart_from (holding_area self // "package.json") r1 r2).
  { refine (copy2_goes_through platform (with_root r1 w) _ _ _ m _
              _ _ Hh1 _ _).
    - cbn [root with_root]. rewrite Hsame1 by apart. exact Hm.
    - apart.
    - unfold is_dir_. cbn [root with_root].
      now rewrite (Hempty1 "package.json" : lookup (_ ++ _)%list _ = _).
    - rewrite (frozen_locked w) by reflexivity.
      now apply frozen_below. }
  destruct Hstep2 as (r2 & Hrun2 & Hm2 & Hsame2).
  destruct (lookup_child_parent _ _ _ _ Hm2) as [hes2 Hh2].
  (* the assets are copied *)
  assert (Hstep3 : exists r3,
    run platform (Copytree (game_path self // "www")
                           (holding_area self // "www") true)
        (with_root r2 w)
    = (None, with_root r3 w)
    /\ lookup (holding_area self // "www") r3 = Some (Dir wes)
    /\ same_apart_from (holding_area self // "www") r2 r3).
  { refine (copytree_goes_through platform (with_root r2 w) _ _ _ wes
              true _ _ Hwf Hh2 _ _).
    - cbn [root with_root].
      rewrite Hsame2, Hsame1 by apart. exact Hwww.
    - change (lookup (holding_area self // "www") r2 = None).
      rewrite Hsame2 by apart. apply Hempty1.
    - rewrite (frozen_locked w) by reflexivity.
      now apply frozen_below. }
  destruct Hstep3 as (r3 & Hrun3 & Hwww3 & Hsame3).
  destruct (lookup_child_parent _ _ _ _ Hwww3) as [hes3 Hh3].
  assert (Hindex3 :
    lookup (game_path self // "index.html") r3 = option_map File index).
  { rewrite Hsame3, Hsame2, Hsame1 by apart. exact Hindex. }
  (* the entry point is copied, if there is one *)
  assert (Hstep4 : exists r4 t4,
    (if exists_ (game_path self // "index.html") (with_root r3 w) then
       sys (sim_os platform machine wd)
           (Copy2 (game_path self // "index.html")
                  (holding_area self // "index.html")) ;;
       logger_info "  Saved: index.html"
     else
       logger_warning "  index.html not found - this may cause issues!")
      (with_root r3 w)
    = Outcome (inr tt) (with_root r4 w) t4
    /\ lookup (holding_area self // "index.html") r4
       = option_map File index
    /\ same_apart_from (holding_area self // "index.html") r3 r4).
  { unfold exists_. cbn [root with_root]. rewrite Hindex3.
    assert (Hfree3 : lookup (holding_area self // "index.html") r3 = None).
    { rewrite Hsame3, Hsame2 by apart. apply Hempty1. }
    destruct index as [i|]; cbn [option_map].
    - assert (Hcopy : exists r4,
        run platform (Copy2 (game_path self // "index.html")
                            (holding_area self // "index.html"))
            (with_root r3 w)
        = (None, with_root r4 w)
        /\ lookup (holding_area self // "index.html") r4 = Some (File i)
        /\ same_apart_from (holding_area self // "index.html") r3 r4).
      { refine (copy2_goes_through platform (with_root r3 w) _ _ _ i _
                  _ _ Hh3 _ _).
        - exact Hindex3.
        - apart.
        - unfold is_dir_. cbn [root with_root].
          now rewrite (Hfree3 : lookup (_ ++ _)%list _ = _).
        - rewrite (frozen_locked w) by reflexivity.
          now apply frozen_below. }
      destruct Hcopy as (r4 & Hrun4 & Hi4 & Hsame4).
      exists r4. eexists.
      erewrite bind_ok by (apply sys_ok; exact Hrun4).
      split; [reflexivity|]. split; assumption.
    - exists r3. eexists. split; [reflexivity|].
      split; [exact Hfree3|apply same_apart_from_refl]. }
  destruct Hstep4 as (r4 & t4 & Hrun4 & Hi4 & Hsame4).
  assert (Hm4 : lookup (holding_area self // "package.json") r4
                = Some (File m)).
  { rewrite Hsame4, Hsame3 by apart. exact Hm2. }
  assert (Hwww4 : lookup (holding_area self // "www") r4 = Some (Dir wes)).
  { rewrite Hsame4 by apart. exact Hwww3. }
  (* the run *)
  assert (Hrun : exists t,
    save_important_files (sim_os platform machine wd) self w
    = Outcome (inr (holding_area self)) (with_root r4 w) t).
  { unfold save_important_files, logger_info, logger_error.
    rewrite run_bind_emit.
    erewrite bind_ok by (apply sys_ok; exact Hrun1).
    erewrite bind_pure by apply run_path_exists.
    cbn [os_exists sim_os]. unfold exists_ at 1. cbn [root with_root].
    rewrite Hsame1 by apart. rewrite Hm.
    erewrite bind_ok.
    2:{ erewrite bind_ok by (apply sys_ok; exact Hrun2). reflexivity. }
    erewrite bind_pure by apply run_path_exists.
    cbn [os_exists sim_os]. unfold exists_ at 1. cbn [root with_root].
    rewrite Hsame2, Hsame1 by apart. rewrite Hwww.
    erewrite bind_ok.
    2:{ erewrite bind_ok by (apply sys_ok; exact Hrun3). reflexivity. }
    erewrite bind_pure by apply run_path_exists.
    cbn [os_exists sim_os].
    erewrite bind_ok by exact Hrun4.
    rewrite (bind_pure _ _ _ []).
    2:{ cbn [critical_files for_each].
        erewrite bind_pure.
        2:{ erewrite bind_pure by apply run_path_exists.
            cbn [os_exists sim_os]. unfold exists_. cbn [root with_root].
            rewrite Hm4. reflexivity. }
        erewrite bind_pure.
        2:{ erewrite bind_pure by apply run_path_exists.
            cbn [os_exists sim_os]. unfold exists_. cbn [root with_root].
            rewrite Hwww4. reflexivity. }
        reflexivity. }
    rewrite run_bind_emit. eexists. reflexivity. }
  destruct Hrun as [t ->]. cbn [res final root with_root].
  assert (Hsame : same_apart_from (holding_area self) (root w) r4).
  { eapply same_apart_from_trans; [exact Hsame1|].
    eapply same_apart_from_trans;
      [eapply same_apart_from_above; [|exact Hsame2]; above|].
    eapply same_apart_from_trans;
      [eapply same_apart_from_above; [|exact Hsame3]; above|].
    eapply same_apart_from_above; [|exact Hsame4]. above. }
  split; [reflexivity|].
  split; [exact Hm4|]. split; [exact Hwww4|]. split; [exact Hi4|].
  split; [apply Hsame; apart|exact Hsame].
Qed.

End FaithfulSave.

(** ** Putting back what the holding area holds *)

Section PuttingBack.

Import Sim SimFacts Tree TreeFacts Frame Effects.

Variables (loads : string -> exn + json) (dumps : json -> string).
Variables (platform machine : string) (wd : path).

(** The in-memory world as the operating system of this section. *)
Local Abbreviation sim := (sim_os_with loads dumps platform machine wd).

(** The block that restores a file: whatever file is in the way is
    unlinked, then the saved file is copied to its place. *)
Lemma put_back_file (w : world) (src g : path) (c d msg : string) pes :
  lookup src (root w) = Some (File d) ->
  related (g ++ [c])%list src = false ->
  lookup g (root w) = Some (Dir pes) ->
  is_dir_ (g ++ [c])%list w = false ->
  frozen w (g ++ [c])%list = false ->
  exists w' t,
    (present <- path_exists sim (g ++ [c])%list ;;
     (if present then sys sim (Unlink (g ++ [c])%list) else ret tt) ;;
     sys sim (Copy2 src (g ++ [c])%list) ;;
     logger_info msg) w
    = Outcome (inr tt) w' t
    /\ locked w' = locked w
    /\ lookup (g ++ [c])%list (root w') = Some (File d)
    /\ same_apart_from (g ++ [c])%list (root w) (root w').
Proof.
  intros Hsrc Hapart Hg Hnodir Hfree.
  assert (Hclear : exists w1 t1,
    (if exists_ (g ++ [c])%list w
     then sys sim (Unlink (g ++ [c])%list) else ret tt) w
    = Outcome (inr tt) w1 t1
    /\ locked w1 = locked w
    /\ lookup (g ++ [c])%list (root w1) = None
    /\ (exists es, lookup g (root w1) = Some (Dir es))
    /\ same_apart_from (g ++ [c])%list (root w) (root w1)).
  { unfold exists_, is_dir_ in *.
    destruct (lookup (g ++ [c])%list (root w)) as [[data|es]|] eqn:Hdst;
      [|discriminate Hnodir|].
    - destruct (unlink_goes_through platform w g c data Hdst Hfree)
        as (r & Hrun & Hgone & Hdir & Hsame).
      exists (with_root r w). eexists.
      split; [apply sys_ok; exact Hrun|].
      split; [reflexivity|]. cbn [root with_root]. auto.
    - exists w, []. split; [reflexivity|]. split; [reflexivity|].
      split; [exact Hdst|]. split; [eauto|apply same_apart_from_refl]. }
  destruct Hclear as (w1 & t1 & Hrun1 & Hlocked1 & Hgone1 & [es1 Hg1] & Hsame1).
  assert (Hcopy : exists r2,
    run platform (Copy2 src (g ++ [c])%list) w1 = (None, with_root r2 w1)
    /\ lookup (g ++ [c])%list r2 = Some (File d)
    /\ same_apart_from (g ++ [c])%list (root w1) r2).
  { apply (copy2_goes_through platform w1 g c src d es1).
    - rewrite Hsame1 by exact Hapart. exact Hsrc.
    - now rewrite related_sym.
    - exact Hg1.
    - unfold is_dir_. now rewrite Hgone1.
    - now rewrite (frozen_locked w). }
  destruct Hcopy as (r2 & Hrun2 & Hthere2 & Hsame2).
  exists (with_root r2 w1). eexists.
  erewrite bind_pure by apply run_path_exists.
  change (os_exists sim) with exists_.
  erewrite bind_ok by exact Hrun1.
  erewrite bind_ok by (apply sys_ok; exact Hrun2).
  split; [reflexivity|]. cbn [final root with_root locked].
  split; [exact Hlocked1|]. split; [exact Hthere2|].
  eapply same_apart_from_trans; eassumption.
Qed.

(** The block that restores a directory: whatever directory is in the way
    is removed, then the saved tree is copied to its place. *)
Lemma put_back_directory (w : world) (src g : path) (c msg : string)
      es pes :
  lookup src (root w) = Some (Dir es) ->
  well_formed (Dir es) = true ->
  related (g ++ [c])%list src = false ->
  lookup g (root w) = Some (Dir pes) ->
  is_file_ (g ++ [c])%list w = false ->
  frozen w (g ++ [c])%list = false ->
  exists w' t,
    (present <- path_exists sim (g ++ [c])%list ;;
     (if present then sys sim (Rmtree (g ++ [c])%list) else ret tt) ;;
     sys sim (Copytree src (g ++ [c])%list false) ;;
     logger_info msg) w
    = Outcome (inr tt) w' t
    /\ locked w' = locked w
    /\ lookup (g ++ [c])%list (root w') = Some (Dir es)
    /\ same_apart_from (g ++ [c])%list (root w) (root w').
Proof.
  intros Hsrc Hwf Hapart Hg Hnofile Hfree.
  assert (Hclear : exists w1 t1,
    (if exists_ (g ++ [c])%list w
     then sys sim (Rmtree (g ++ [c])%list) else ret tt) w
    = Outcome (inr tt) w1 t1
    /\ locked w1 = locked w
    /\ lookup (g ++ [c])%list (root w1) = None
    /\ (exists es, lookup g (root w1) = Some (Dir es))
    /\ same_apart_from (g ++ [c])%list (root w) (root w1)).
  { unfold exists_, is_file_ in *.
    destruct (lookup (g ++ [c])%list (root w)) as [[data|es0]|] eqn:Hdst;
      [discriminate Hnofile| |].
    - destruct (rmtree_goes_through platform w g c es0 Hdst Hfree)
        as (r & Hrun & Hgone & Hdir & Hsame).
      exists (with_root r w). eexists.
      split; [apply sys_ok; exact Hrun|].
      split; [reflexivity|]. cbn [root with_root]. auto.
    - exists w, []. split; [reflexivity|]. split; [reflexivity|].
      split; [exact Hdst|]. split; [eauto|apply same_apart_from_refl]. }
  destruct Hclear as (w1 & t1 & Hrun1 & Hlocked1 & Hgone1 & [es1 Hg1] & Hsame1).
  assert (Hcopy : exists r2,
    run platform (Copytree src (g ++ [c])%list false) w1
    = (None, with_root r2 w1)
    /\ lookup (g ++ [c])%list r2 = Some (Dir es)
    /\ same_apart_from (g ++ [c])%list (root w1) r2).
  { apply (copytree_goes_through platform w1 g c src es false es1).
    - rewrite Hsame1 by exact Hapart. exact Hsrc.
    - exact Hwf.
    - exact Hg1.
    - exact Hgone1.
    - now rewrite (frozen_locked w). }
  destruct Hcopy as (r2 & Hrun2 & Hthere2 & Hsame2).
  exists (with_root r2 w1). eexists.
  erewrite bind_pure by apply run_path_exists.
  change (os_exists sim) with exists_.
  erewrite bind_ok by exact Hrun1.
  erewrite bind_ok by (apply sys_ok; exact Hrun2).
  split; [reflexivity|]. cbn [final root with_root locked].
  split; [exact Hlocked1|]. split; [exact Hthere2|].
  eapply same_apart_from_trans; eassumption.
Qed.


Variable self : automator.

(** The scan for scripts changes nothing and finds at least one tag. *)
Lemma detect_script_tags_pure (w : world) :
  exists script_tags,
    detect_script_tags sim self w
    = Outcome (inr script_tags) w []
    /\ script_tags <> [].
Proof.
  unfold detect_script_tags.
  erewrite bind_pure by apply run_path_exists.
  destruct (os_exists sim
                      (game_path self // "www" // "js") w).
  2:{ rewrite (bind_pure _ _ _ []) by reflexivity.
      eexists. split; [reflexivity|discriminate]. }
  destruct (os_exists sim
                      (game_path self // "www" // "js" // "libs") w)
    eqn:Hlibs.
  - erewrite bind_pure.
    2:{ erewrite bind_pure by apply run_path_exists.
        rewrite Hlibs.
        erewrite bind_pure by apply scan_scripts_filter.
        erewrite bind_pure by apply scan_scripts_filter.
        apply scan_scripts_filter. }
    match goal with
    | |- context [match ?l with [] => _ | _ :: _ => _ end] => destruct l
    end; eexists; (split; [reflexivity|discriminate]).
  - erewrite bind_pure.
    2:{ erewrite bind_pure by apply run_path_exists.
        rewrite Hlibs.
        rewrite (bind_pure _ _ _ []) by reflexivity.
        erewrite bind_pure by apply scan_scripts_filter.
        apply scan_scripts_filter. }
    match goal with
    | |- context [match ?l with [] => _ | _ :: _ => _ end] => destruct l
    end; eexists; (split; [reflexivity|discriminate]).
Qed.

(** Synthesizing the entry point, where no directory is in its place and
    nothing is locked. *)
Lemma create_basic_index_html_goes_through (w : world) pes :
  lookup (game_path self) (root w) = Some (Dir pes) ->
  is_dir_ (game_path self // "index.html") w = false ->
  frozen w (game_path self // "index.html") = false ->
  exists r t script_tags,
    create_basic_index_html sim self w
    = Outcome (inr tt) (with_root r w) t
    /\ script_tags <> []
    /\ lookup (game_path self // "index.html") r
       = Some (File (basic_html script_tags))
    /\ same_apart_from (game_path self // "index.html") (root w) r.
Proof.
  intros Hgame Hnodir Hfree.
  destruct (detect_script_tags_pure w) as (tags & Hdetect & Htags).
  destruct (write_file_goes_through w (game_path self) "index.html"
              (basic_html tags) _ Hgame Hnodir Hfree)
    as (r & Hwrite & Hthere & Hsame).
  exists r. eexists. exists tags.
  unfold create_basic_index_html.
  rewrite (bind_pure _ _ _ _ Hdetect).
  erewrite try_ok.
  2:{ erewrite bind_ok by (apply sys_ok; exact Hwrite). reflexivity. }
  auto.
Qed.

End PuttingBack.


Section FaithfulRestore.

Import Sim SimFacts Tree TreeFacts Frame Effects.

Variables (loads : string -> exn + json) (dumps : json -> string).
Variables (platform machine : string) (wd : path) (self : automator).

(** The in-memory world as the operating system of this section. *)
Local Abbreviation sim := (sim_os_with loads dumps platform machine wd).

(** X28: on the in-memory filesystem, with any codec for the manifest,
    when the target directory has a name, no [..] in its path, and is a
    directory, the holding area holds a manifest that the codec reads as
    an object with a usable name, a well-formed [www] tree and an entry
    point or none,
    nothing stands in the way (no directory where the manifest or the
    entry point go, no file where [www] goes, no directory as the entry
    point inside [www] when that one is needed) and neither place is
    locked: [restore_important_files] returns; the target directory then
    has the saved manifest and exactly the saved [www] tree, whatever it
    had there before; its entry point is the saved one, else the one
    inside the saved [www], else a synthesized one; the holding area is
    gone; and nothing else has changed. *)
Theorem restore_puts_back_what_was_saved (w : world) (m : string) d v wes
        (index : option string) ges :
  let O := sim_os_with loads dumps platform machine wd in
  let game := game_path self in
  let holding := holding_area self in
  let o := restore_important_files O self holding w in
  game <> [] ->
  without_dotdot game = true ->
  lookup (holding // "package.json") (root w) = Some (File m) ->
  loads m = inr (JObject d) ->
  dict_get "name" d = Some v ->
  truthy v = true ->
  lookup (holding // "www") (root w) = Some (Dir wes) ->
  well_formed (Dir wes) = true ->
  lookup (holding // "index.html") (root w) = option_map File index ->
  (index = None -> forall es, assoc "index.html" wes <> Some (Dir es)) ->
  lookup game (root w) = Some (Dir ges) ->
  is_dir_ (game // "package.json") w = false ->
  is_file_ (game // "www") w = false ->
  is_dir_ (game // "index.html") w = false ->
  frozen w game = false ->
  frozen w holding = false ->
  res o = inr tt
  /\ lookup (game // "package.json") (root (final o)) = Some (File m)
  /\ lookup (game // "www") (root (final o)) = Some (Dir wes)
  /\ (exists content,
         lookup (game // "index.html") (root (final o))
         = Some (File content)
         /\ restored_entry_point index wes content)
  /\ lookup holding (root (final o)) = None
  /\ forall q,
      related (game // "package.json") q = false ->
      related (game // "www") q = false ->
      related (game // "index.html") q = false ->
      related holding q = false ->
      lookup q (root (final o)) = lookup q (root w).
Proof.
  intros O game holding o Hnamed _ Hm Hparse Hname Htruthy Hwww Hwf Hindex
         Hnested Hgame Hfree_m Hfree_www Hfree_index Hfg Hfh.
  subst O game holding o.
  (* the manifest *)
  assert (Hb1 : exists w1 t1,
    (present <- path_exists sim
                            (game_path self // "package.json") ;;
     (if present
      then sys sim
               (Unlink (game_path self // "package.json"))
      else ret tt) ;;
     sys sim
         (Copy2 (holding_area self // "package.json")
                (game_path self // "package.json")) ;;
     logger_info "  Restored: package.json") w
    = Outcome (inr tt) w1 t1
    /\ locked w1 = locked w
    /\ lookup (game_path self // "package.json") (root w1) = Some (File m)
    /\ same_apart_from (game_path self // "package.json")
                       (root w) (root w1)).
  { refine (put_back_file loads dumps platform machine wd w _ _ _ m _ ges
              Hm _ Hgame Hfree_m _).
    - apart.
    - now apply frozen_below. }
  destruct Hb1 as (w1 & t1 & Hrun1 & Hl1 & Hm1 & Hs1).
  destruct (lookup_child_parent _ _ _ _ Hm1) as [ges1 Hgame1].
  (* the assets *)
  assert (Hb2 : exists w2 t2,
    (present <- path_exists sim
                            (game_path self // "www") ;;
     (if present
      then sys sim
               (Rmtree (game_path self // "www"))
      else ret tt) ;;
     sys sim
         (Copytree (holding_area self // "www")
                   (game_path self // "www") false) ;;
     logger_info "  Restored: www folder") w1
    = Outcome (inr tt) w2 t2
    /\ locked w2 = locked w1
    /\ lookup (game_path self // "www") (root w2) = Some (Dir wes)
    /\ same_apart_from (game_path self // "www") (root w1) (root w2)).
  { refine (put_back_directory loads dumps platform machine wd w1 _ _ _ _ wes ges1
              _ Hwf _ Hgame1 _ _).
    - rewrite Hs1 by apart. exact Hwww.
    - apart.
    - change (is_file_ (game_path self // "www") w1 = false).
      unfold is_file_ in *. now rewrite Hs1 by apart.
    - rewrite (frozen_locked w) by exact Hl1. now apply frozen_below. }
  destruct Hb2 as (w2 & t2 & Hrun2 & Hl2 & Hwww2 & Hs2).
  destruct (lookup_child_parent _ _ _ _ Hwww2) as [ges2 Hgame2].
  assert (Hl2' : locked w2 = locked w) by congruence.
  assert (Hfree_index2 : is_dir_ (game_path self // "index.html") w2 = false).
  { unfold is_dir_ in *. now rewrite Hs2, Hs1 by apart. }
  assert (Hfrozen_index2 :
    frozen w2 (game_path self // "index.html") = false).
  { rewrite (frozen_locked w) by exact Hl2'. now apply frozen_below. }
  assert (Hindex2 :
    lookup (holding_area self // "index.html") (root w2)
    = option_map File index).
  { rewrite Hs2, Hs1 by apart. exact Hindex. }
  (* the entry point *)
  assert (Hb3 : exists w3 t3 content,
    (if exists_ (holding_area self // "index.html") w2 then
       present <- path_exists sim
                              (game_path self // "index.html") ;;
       (if present
        then sys sim
                 (Unlink (game_path self // "index.html"))
        else ret tt) ;;
       sys sim
           (Copy2 (holding_area self // "index.html")
                  (game_path self // "index.html")) ;;
       logger_info "  Restored: index.html"
     else
       nested <- path_exists sim
                             (game_path self // "www" // "index.html") ;;
       if nested then
         sys sim
             (Copy2 (game_path self // "www" // "index.html")
                    (game_path self // "index.html")) ;;
         logger_info "  Copied index.html from www folder to root"
       else
         logger_warning
           "  index.html not found in backup, creating a basic one..." ;;
         create_basic_index_html sim self) w2
    = Outcome (inr tt) w3 t3
    /\ locked w3 = locked w2
    /\ lookup (game_path self // "index.html") (root w3)
       = Some (File content)
    /\ restored_entry_point index wes content
    /\ same_apart_from (game_path self // "index.html")
                       (root w2) (root w3)).
  { unfold exists_ at 1. rewrite Hindex2.
    destruct index as [i|]; cbn [option_map].
    - destruct (put_back_file loads dumps platform machine wd w2
                  (holding_area self // "index.html")
                  (game_path self) "index.html" i
                  "  Restored: index.html" ges2)
        as (w3 & t3 & Hrun3 & Hl3 & Hi3 & Hs3);
        [exact Hindex2|apart|exact Hgame2|exact Hfree_index2
        |exact Hfrozen_index2|].
      exists w3, t3, i. split; [exact Hrun3|].
      split; [exact Hl3|]. split; [exact Hi3|].
      split; [reflexivity|exact Hs3].
    - erewrite bind_pure by apply run_path_exists.
      cbn [os_exists sim_os_with]. unfold exists_.
      assert (Hnested2 :
        lookup (game_path self // "www" // "index.html") (root w2)
        = assoc "index.html" wes).
      { unfold child at 1. rewrite lookup_app, Hwww2. cbn.
        now destruct (assoc "index.html" wes). }
      rewrite Hnested2. unfold restored_entry_point.
      destruct (assoc "index.html" wes) as [[j|es]|] eqn:Hassoc.
      + destruct (copy2_goes_through platform w2 (game_path self)
                    "index.html"
                    (game_path self // "www" // "index.html") j ges2)
          as (r3 & Hrun3 & Hi3 & Hs3);
          [exact Hnested2| |exact Hgame2|exact Hfree_index2
          |exact Hfrozen_index2|].
        { unfold child. rewrite <- app_assoc. cbn [app].
          apply (related_branches _ _ _ _ []). discriminate. }
        exists (with_root r3 w2). eexists. exists j.
        erewrite bind_ok by (apply sys_ok; exact Hrun3).
        split; [reflexivity|]. cbn [final root with_root locked]. auto.
      + now elim (Hnested eq_refl es).
      + destruct (create_basic_index_html_goes_through
                    loads dumps platform machine wd self w2 ges2
                    Hgame2 Hfree_index2 Hfrozen_index2)
          as (r3 & t3 & tags & Hrun3 & Htags & Hi3 & Hs3).
        exists (with_root r3 w2). eexists. exists (basic_html tags).
        unfold logger_warning. rewrite run_bind_emit, Hrun3.
        split; [reflexivity|]. cbn [final root with_root locked prepend].
        split; [reflexivity|]. split; [exact Hi3|].
        split; [eauto|exact Hs3]. }
  destruct Hb3 as (w3 & t3 & content & Hrun3 & Hl3 & Hi3 & Hentry & Hs3).
  assert (Hm3 : lookup (game_path self // "package.json") (root w3)
                = Some (File m)).
  { rewrite Hs3, Hs2 by apart. exact Hm1. }
  assert (Hwww3 : lookup (game_path self // "www") (root w3)
                  = Some (Dir wes)).
  { rewrite Hs3 by apart. exact Hwww2. }
  (* the manifest is checked, and the holding area removed *)
  destruct (lookup_child_parent _ _ _ _ Hm) as [hes Hholding].
  assert (Hgone : exists r4,
    run platform (Rmtree (holding_area self)) w3 = (None, with_root r4 w3)
    /\ lookup (holding_area self) r4 = None
    /\ (exists es', lookup (parent (game_path self)) r4 = Some (Dir es'))
    /\ same_apart_from (holding_area self) (root w3) r4).
  { refine (rmtree_goes_through platform w3 _ _ hes _ _).
    - change (lookup (holding_area self) (root w3) = Some (Dir hes)).
      rewrite Hs3, Hs2, Hs1 by apart. exact Hholding.
    - rewrite (frozen_locked w) by congruence. exact Hfh. }
  destruct Hgone as (r4 & Hrun4 & Hh4 & _ & Hs4).
  assert (Hrun : exists t,
    restore_important_files sim self
                            (holding_area self) w
    = Outcome (inr tt) (with_root r4 w3) t).
  { unfold restore_important_files, logger_info at 1.
    rewrite run_bind_emit.
    erewrite bind_pure by apply run_path_exists.
    cbn [os_exists sim_os_with]. unfold exists_ at 1. rewrite Hm.
    erewrite bind_ok by exact Hrun1.
    erewrite bind_pure by apply run_path_exists.
    cbn [os_exists sim_os_with]. unfold exists_ at 1.
    rewrite Hs1 by apart. rewrite Hwww.
    erewrite bind_ok by exact Hrun2.
    erewrite bind_pure by apply run_path_exists.
    cbn [os_exists sim_os_with].
    erewrite bind_ok by exact Hrun3.
    erewrite bind_pure by apply run_path_exists.
    cbn [os_exists sim_os_with]. unfold exists_ at 1. rewrite Hm3.
    erewrite bind_ok.
    2:{ apply (validate_and_fix_unchanged _ self _ w3 m d v);
          [|exact Hparse|exact Hname|exact Htruthy].
        cbn [os_read_text sim_os_with]. unfold read_text_. now rewrite Hm3. }
    erewrite try_ok.
    2:{ erewrite bind_ok by (apply sys_ok; exact Hrun4). reflexivity. }
    eexists. reflexivity. }
  destruct Hrun as [t ->]. cbn [res final root with_root].
  split; [reflexivity|].
  split; [rewrite Hs4 by apart; exact Hm3|].
  split; [rewrite Hs4 by apart; exact Hwww3|].
  split; [exists content; split; [rewrite Hs4 by apart; exact Hi3|exact Hentry]|].
  split; [exact Hh4|].
  intros q Hq1 Hq2 Hq3 Hq4.
  now rewrite Hs4, Hs3, Hs2, Hs1.
Qed.

End FaithfulRestore.


(** ** The world follows the trace *)

Section Replay.

Context {W : Type} (O : OS W).

Lemma replay_app (t1 t2 : list event) (w : W) :
  replay O (t1 ++ t2)%list w = replay O t2 (replay O t1 w).
Proof. apply fold_left_app. Qed.

Lemma follows_quiet {A} (m : M W A) :
  (forall w, final (m w) = w /\ trace (m w) = []) ->
  follows_its_trace O m.
Proof. intros H w. destruct (H w) as [-> ->]. reflexivity. Qed.

Lemma follows_ret {A} (a : A) : follows_its_trace O (@ret W A a).
Proof. intros w. reflexivity. Qed.

Lemma follows_raise {A} (e : exn) : follows_its_trace O (@raise W A e).
Proof. intros w. reflexivity. Qed.

Lemma follows_log (lvl : level) (msg : string) :
  follows_its_trace O (@emit W (Log lvl msg)).
Proof. intros w. reflexivity. Qed.

Lemma follows_sys (c : syscall) : follows_its_trace O (sys O c).
Proof. intros w. rewrite run_sys. reflexivity. Qed.

Lemma follows_bind {A B} (m : M W A) (k : A -> M W B) :
  follows_its_trace O m -> (forall a, follows_its_trace O (k a)) ->
  follows_its_trace O (bind m k).
Proof.
  intros Hm Hk w. rewrite final_bind, trace_bind, replay_app, <- Hm.
  destruct (res (m w)); [reflexivity|apply Hk].
Qed.

Lemma follows_try_except {A} (m : M W A) (h : exn -> M W A) :
  follows_its_trace O m -> (forall e, follows_its_trace O (h e)) ->
  follows_its_trace O (try_except m h).
Proof.
  intros Hm Hh w.
  rewrite final_try_except, trace_try_except, replay_app, <- Hm.
  destruct (res (m w)); [apply Hh|reflexivity].
Qed.

Lemma follows_try_except_only {A} (c : exn -> bool)
      (m : M W A) (h : exn -> M W A) :
  follows_its_trace O m -> (forall e, follows_its_trace O (h e)) ->
  follows_its_trace O (try_except_only c m h).
Proof.
  intros Hm Hh. apply follows_try_except; [exact Hm|].
  intros e. destruct (c e); [apply Hh|apply follows_raise].
Qed.

Lemma follows_for_each {A S} (xs : list A) (body : A -> S -> M W S) :
  (forall x acc, follows_its_trace O (body x acc)) ->
  forall acc, follows_its_trace O (for_each xs acc body).
Proof.
  intros Hbody. induction xs as [|x xs IH]; intros acc; cbn [for_each].
  - apply follows_ret.
  - apply follows_bind; [apply Hbody|exact IH].
Qed.

Lemma follows_path_exists (p : path) :
  follows_its_trace O (path_exists O p).
Proof. intros w. reflexivity. Qed.

Lemma follows_is_dir (p : path) : follows_its_trace O (is_dir O p).
Proof. intros w. reflexivity. Qed.

Lemma follows_is_file (p : path) : follows_its_trace O (is_file O p).
Proof. intros w. reflexivity. Qed.

Lemma follows_iterdir (p : path) : follows_its_trace O (iterdir O p).
Proof. intros w. reflexivity. Qed.

Lemma follows_read_text (p : path) : follows_its_trace O (read_text O p).
Proof. intros w. reflexivity. Qed.

Lemma follows_requests_get (url : string) :
  follows_its_trace O (requests_get O url).
Proof. intros w. reflexivity. Qed.

Lemma follows_json_load (text : string) :
  follows_its_trace O (json_load O text).
Proof.
  intros w. unfold json_load. destruct (json_loads O text); reflexivity.
Qed.

End Replay.

Ltac follows_step :=
  first
    [ apply follows_ret
    | apply follows_raise
    | apply follows_log
    | apply follows_sys
    | apply follows_path_exists
    | apply follows_is_dir
    | apply follows_is_file
    | apply follows_iterdir
    | apply follows_read_text
    | apply follows_requests_get
    | apply follows_json_load
    | apply follows_bind; [|intros ?]
    | apply follows_try_except_only; [|intros ?]
    | apply follows_try_except; [|intros ?]
    | apply follows_for_each; intros ? ?
    | match goal with
      | |- follows_its_trace _ (if ?b then _ else _) => destruct b
      | |- follows_its_trace _ (match ?x with _ => _ end) => destruct x
      | |- follows_its_trace _ (let (_, _) := ?x in _) => destruct x
      end ].

Section ReplayLoops.

Context {W : Type} (O : OS W) (self : automator).

Lemma follows_find_nwjs_dir (items : list path) :
  follows_its_trace O (find_nwjs_dir O items).
Proof.
  induction items as [|item items IH]; cbn [find_nwjs_dir];
    unfold logger_info; repeat follows_step; exact IH.
Qed.

Lemma follows_find_executable (names : list string) :
  follows_its_trace O (find_executable O self names).
Proof.
  induction names as [|n names IH]; cbn [find_executable];
    repeat follows_step; exact IH.
Qed.

Lemma follows_prune_locales (items : list path) (count : nat) :
  follows_its_trace O (prune_locales O items count).
Proof.
  revert count. induction items as [|p items IH]; intros count;
    cbn [prune_locales]; unfold logger_info; repeat follows_step;
    apply IH.
Qed.

End ReplayLoops.

Ltac follows_walk :=
  repeat first
    [ follows_step
    | apply follows_find_nwjs_dir
    | apply follows_find_executable
    | apply follows_prune_locales
    | progress
        unfold process_game, process_steps,
          validate_game_directory, validate_and_fix_package_json,
          backup_game, setup_nwjs, download_and_extract, download_nwjs,
          extract_nwjs, save_important_files, clean_game_directory,
          remove_child, copy_nwjs_to_game, copy_item,
          restore_important_files, create_basic_index_html,
          detect_script_tags, scan_scripts, rename_executable,
          cleanup_nwjs_files, remove_cleanup_file, cleanup_temp_files,
          create_shortcut_windows, logger_info, logger_warning,
          logger_error ].

(** ** The wipe waits for the verified copies *)

Section VerifiedCopies.

Context {W : Type} (O : OS W) (self : automator).

(** What the check of [save_important_files] has seen is there when the
    method returns: both copies exist in the world it leaves. *)
Lemma save_important_files_checked (w : W) (temp_dir : path) :
  res (save_important_files O self w) = inr temp_dir ->
  holding_copies_exist O self (final (save_important_files O self w)).
Proof.
  revert temp_dir.
  set (P := fun (r : exn + path) (w' : W) =>
              forall temp_dir, r = inr temp_dir ->
                               holding_copies_exist O self w').
  change (P (res (save_important_files O self w))
            (final (save_important_files O self w))).
  assert (Hfail : forall e w', P (inl e) w') by (intros e w' t H; discriminate H).
  unfold save_important_files.
  do 8 (apply bind_post; [exact Hfail|]; intros ? ?).
  match goal with w0 : W |- P (res (_ ?x)) _ => clear w; rename x into w end.
  cbn [for_each critical_files].
  erewrite bind_pure.
  2:{ erewrite bind_pure.
      2:{ erewrite bind_pure by apply run_path_exists.
          instantiate (1 := if negb (os_exists O (holding_area self
                                                  // "package.json") w)
                            then ["package.json"] else []).
          destruct (os_exists O (holding_area self // "package.json") w);
            reflexivity. }
      erewrite bind_pure.
      2:{ erewrite bind_pure by apply run_path_exists.
          instantiate
            (1 := ((if negb (os_exists O (holding_area self // "package.json") w)
                    then ["package.json"] else [])
                   ++ (if negb (os_exists O (holding_area self // "www") w)
                       then ["www"] else []))%list).
          destruct (os_exists O (holding_area self // "www") w);
            cbn [negb]; [now rewrite app_nil_r|reflexivity]. }
      reflexivity. }
  destruct (os_exists O (holding_area self // "package.json") w) eqn:E1;
    destruct (os_exists O (holding_area self // "www") w) eqn:E2;
    cbn [negb app]; intros t Ht; try discriminate Ht.
  split; assumption.
Qed.

Lemma save_important_files_follows_its_trace :
  follows_its_trace O (save_important_files O self).
Proof. follows_walk. Qed.

Lemma validate_follows_its_trace :
  follows_its_trace O (validate_game_directory O self).
Proof. follows_walk. Qed.

Lemma backup_follows_its_trace : follows_its_trace O (backup_game O self).
Proof. follows_walk. Qed.

Lemma setup_follows_its_trace : follows_its_trace O (setup_nwjs O self).
Proof. follows_walk. Qed.

(** Events that remove nothing and are not the opening line of the wipe
    need no mark before them. *)
Lemma guarded_by_check_quiet (w : W) (t : list event) :
  Forall (before_verification self) t -> guarded_by_check O self w t.
Proof.
  intros H t1 ev t2 Heq Hev. exfalso.
  assert (Hin : In ev t) by (rewrite Heq; apply in_or_app; right; now left).
  destruct (before_verification_no_mark _ _ _ H Hin) as (Hr & Hw & _).
  destruct Hev as [->|Hev]; [now elim Hw|congruence].
Qed.

(** Harmless events in front: the check is looked for in what follows,
    from the world these events lead to. *)
Lemma guarded_by_check_prefix (w : W) (ta tb : list event) :
  Forall (harmless self) ta ->
  guarded_by_check O self (replay O ta w) tb ->
  guarded_by_check O self w (ta ++ tb)%list.
Proof.
  intros Ha Hb t1 ev t2 Heq Hev.
  destruct (split_in_app _ _ _ _ _ Heq) as [(a2 & Hta & _)|(t1' & -> & Heq')].
  - exfalso. rewrite Forall_forall in Ha.
    destruct (Ha ev) as (Hr & Hw & _);
      [rewrite Hta; apply in_or_app; right; now left|].
    destruct Hev as [->|Hev]; [now elim Hw|congruence].
  - destruct (Hb _ _ _ Heq' Hev) as (t0 & t0' & -> & Hquiet & Hcopies).
    exists (ta ++ t0)%list, t0'. split; [now rewrite app_assoc|].
    split; [|now rewrite replay_app].
    apply Forall_app. split; [|exact Hquiet].
    eapply Forall_impl; [|exact Ha].
    intros e (Hr & Hw & _). auto.
Qed.

Lemma guarded_by_check_suffix (w : W) (t tail : list event) :
  guarded_by_check O self w t -> Forall (harmless self) tail ->
  guarded_by_check O self w (t ++ tail)%list.
Proof.
  intros Ht Htail t1 ev t2 Heq Hev.
  destruct (split_in_app _ _ _ _ _ Heq) as [(a2 & Ha & _)|(t1' & -> & Heq')].
  - exact (Ht _ _ _ Ha Hev).
  - exfalso. rewrite Forall_forall in Htail.
    destruct (Htail ev) as (Hr & Hw & _);
      [rewrite Heq'; apply in_or_app; right; now left|].
    destruct Hev as [->|Hev]; [now elim Hw|congruence].
Qed.

(** A first step that is harmless and changes the world through its
    calls only. *)
Lemma guarded_by_check_bind {A B} (m : M W A) (k : A -> M W B) (w : W) :
  always (harmless self) m -> follows_its_trace O m ->
  (forall a, guarded_by_check O self (final (m w)) (trace (k a (final (m w))))) ->
  guarded_by_check O self w (trace (bind m k w)).
Proof.
  intros Hm Hf Hk. rewrite trace_bind.
  apply guarded_by_check_prefix; [apply Hm|]. rewrite <- Hf.
  destruct (res (m w)) as [e|a]; [|apply Hk].
  apply guarded_by_check_quiet. constructor.
Qed.

(** From the preserve step on: the mark is the last event of the step, and
    the world it leaves is the one its check has seen. *)
Lemma guarded_by_check_from_save {B} (k : path -> M W B) (w : W) :
  guarded_by_check O self w (trace (bind (save_important_files O self) k w)).
Proof.
  rewrite trace_bind.
  pose proof (save_important_files_preserved O self w) as Hsave.
  pose proof (save_important_files_checked w) as Hchecked.
  pose proof (save_important_files_follows_its_trace w) as Hfollows.
  destruct (res (save_important_files O self w)) as [e|temp_dir];
    cbn [preserved] in Hsave.
  - rewrite app_nil_r. now apply guarded_by_check_quiet.
  - destruct Hsave as (_ & t0 & Ht0 & Hquiet).
    specialize (Hchecked temp_dir eq_refl).
    rewrite Hfollows, Ht0, replay_app in Hchecked. cbn in Hchecked.
    rewrite Ht0. intros t1 ev t2 Heq Hev.
    rewrite <- app_assoc in Heq. cbn [app] in Heq.
    destruct (split_in_app _ _ _ _ _ Heq) as [(a2 & Hta & _)|(t1' & -> & Heq')].
    + exfalso. rewrite Forall_forall in Hquiet.
      destruct (Hquiet ev) as (Hr & Hw & _);
        [rewrite Hta; apply in_or_app; right; now left|].
      destruct Hev as [->|Hev]; [now elim Hw|congruence].
    + destruct t1' as [|mark t1'].
      * exfalso. inversion Heq' as [Hmark]. subst ev.
        destruct Hev as [Hev|Hev]; discriminate Hev.
      * inversion Heq' as [[Hmark Hrest]]. subst mark.
        exists t0, t1'. split; [reflexivity|]. split; [|exact Hchecked].
        eapply Forall_impl; [|exact Hquiet].
        intros e (Hr & Hw & _). auto.
Qed.

Lemma process_steps_guarded_by_check (create_backup : bool) (w : W) :
  guarded_by_check O self w (trace (process_steps O self create_backup w)).
Proof.
  unfold process_steps.
  apply guarded_by_check_bind;
    [apply validate_harmless|apply validate_follows_its_trace|]. intros _.
  apply guarded_by_check_bind.
  { destruct create_backup; [|apply always_ret].
    apply always_bind; [apply backup_harmless|intros; apply always_ret]. }
  { destruct create_backup; [|apply follows_ret].
    apply follows_bind; [apply backup_follows_its_trace|].
    intros; apply follows_ret. }
  intros _.
  apply guarded_by_check_bind;
    [apply setup_harmless|apply setup_follows_its_trace|]. intros nwjs_dir.
  apply guarded_by_check_from_save.
Qed.

(** C1: [clean_game_directory] starts by logging its opening line.
    [save_important_files] logs its closing line exactly when its check
    found both copies in the holding area: when it returns, that line is
    its last event and both copies exist in the world it leaves; when it
    raises, it has not logged it.  In every run of [process_game], the
    opening line of the wipe, and any call that removes or renames
    something, comes after that closing line; and the calls made before
    that line have led to a world in which both copies are in the holding
    area, without removing anything.  And when the check fails, the run
    ends in failure without any such call and without the wipe being
    entered. *)
Theorem wipe_guarded_by_preserve (create_backup : bool) (w : W) :
  let o := process_game O self create_backup w in
  let saved := save_important_files O self w in
  (exists rest, trace (clean_game_directory O self w) = wipe_started :: rest)
  /\ match res saved with
     | inr temp_dir =>
         (exists t0, trace saved = (t0 ++ [preserve_verified self])%list)
         /\ holding_copies_exist O self (final saved)
     | inl _ => ~ In (preserve_verified self) (trace saved)
     end
  /\ guarded_by_check O self w (trace o)
  /\ (In preserve_failed (trace o) ->
      (exists msg, res o = inr (Failure msg))
      /\ forall ev, In ev (trace o) ->
                    is_removal ev = false
                    /\ ev <> wipe_started
                    /\ ev <> preserve_verified self).
Proof.
  cbv zeta.
  destruct (wipe_after_verification_mark O self create_backup w)
    as (Hannounced & Hmark & _ & Hfailed).
  split; [exact Hannounced|].
  split.
  { pose proof (save_important_files_checked w) as Hchecked.
    destruct (res (save_important_files O self w)) as [e|temp_dir];
      [exact Hmark|].
    split; [exact Hmark|]. exact (Hchecked temp_dir eq_refl). }
  split; [|exact Hfailed].
  unfold process_game. rewrite trace_bind.
  cbn [logger_info emit res final trace].
  rewrite trace_try_except.
  set (steps := process_steps O self create_backup w).
  apply (guarded_by_check_prefix w [_]); [repeat constructor; harmless_leaf|].
  cbn [replay fold_left].
  apply guarded_by_check_suffix;
    [apply process_steps_guarded_by_check|].
  destruct (res steps); [|constructor].
  cbn. repeat constructor; intros Heq; cbn in Heq; discriminate Heq.
Qed.

End VerifiedCopies.

Section Elsewhere.

Import Sim SimFacts Tree TreeFacts Frame Effects.

Variables (loads : string -> exn + json) (dumps : json -> string).
Variables (platform machine : string) (wd : path) (self : automator).

(** The in-memory world as the operating system of this section. *)
Local Abbreviation sim := (sim_os_with loads dumps platform machine wd).

(** Every method of a run changes the world through its recorded calls
    only. *)
Lemma process_game_follows_its_trace {W} (O : OS W) (create_backup : bool) :
  follows_its_trace O (process_game O self create_backup).
Proof. follows_walk. Qed.

(** Calls that write apart from a path leave it as it is. *)
Lemma replay_apart (t : list event) (w : world) (q : path) :
  Forall (fun ev => forall p, In p (written_paths ev) ->
                              related p q = false) t ->
  lookup q (root (replay sim t w))
  = lookup q (root w).
Proof.
  intros H. revert w. induction H as [|ev t Hev _ IH]; intros w;
    [reflexivity|].
  cbn [replay fold_left].
  change (fold_left _ t ?x) with (replay sim t x).
  rewrite IH. destruct ev as [lvl msg|c r]; [reflexivity|].
  cbn [os_run sim_os_with]. apply run_apart. exact Hev.
Qed.

(** X29: on the in-memory filesystem, with any codec for the manifest,
    when the names that come from the caller (of the executable, of the
    shortcut, of the archive) are each one path component and the path of
    the target directory has no [..] in it, a run changes nothing outside
    its own places: a path that is neither on the way to, nor at, nor
    inside the target directory, the backup, the holding area or the
    scratch directory holds after the run exactly what it held before,
    whether the run succeeds or fails. *)
Theorem run_changes_nothing_elsewhere (create_backup : bool) (w : world)
        (q : path) :
  let O := sim_os_with loads dumps platform machine wd in
  plain_names O self = true ->
  without_dotdot (game_path self) = true ->
  related (game_path self) q = false ->
  related (backup_path self) q = false ->
  related (holding_area self) q = false ->
  related (scratch_dir O) q = false ->
  lookup q (root (final (process_game O self create_backup w)))
  = lookup q (root w).
Proof.
  intros O _ _ Hgame Hbackup Hholding Hscratch. subst O.
  rewrite process_game_follows_its_trace.
  apply replay_apart.
  assert (Hplaces :
    always (keeps_to_own_places sim self)
           (process_game sim self create_backup)).
  { unfold process_game.
    apply always_bind; [always_walk place_leaf|]. intros _.
    apply always_try_except; [apply process_steps_keep_to_own_places|].
    intros e. always_walk place_leaf. }
  eapply Forall_impl; [|apply Hplaces].
  intros ev Hev p Hp.
  destruct (Hev p Hp) as [H|[H|[H|H]]];
    eapply related_below; eassumption.
Qed.

End Elsewhere.


(** ** What a call that went through has done *)

Module Outcomes.

Import Sim SimFacts Tree TreeFacts Frame Effects.

Section WentThrough.

Variables (platform : string) (w w' : world) (g : path) (c : string).

(** A call leaves alone what is apart from the path it writes at. *)
Lemma call_apart (call : syscall) (p : path) :
  run platform call w = (None, w') ->
  written_paths (Sys call None) = [p] ->
  same_apart_from p (root w) (root w').
Proof.
  intros Hrun Hp q Hq.
  pose proof (run_apart platform call w q) as H.
  rewrite Hrun in H. apply H. rewrite Hp.
  intros p' [<-|[]]. exact Hq.
Qed.

Lemma mkdir_went_through :
  run platform (Mkdir (g ++ [c])%list) w = (None, w') ->
  lookup (g ++ [c])%list (root w) = None ->
  lookup (g ++ [c])%list (root w') = Some (Dir []).
Proof.
  cbn [run]. intros Hrun Hfree. rewrite Hfree in Hrun. unfold put, done in Hrun.
  destruct (alter (g ++ [c])%list (fun _ => Some (Dir [])) (root w))
    as [r|] eqn:Hr; inversion Hrun; subst.
  cbn [root with_root]. now rewrite (lookup_alter_same _ _ _ _ _ Hr).
Qed.

Lemma delete_child (n : node) :
  delete (g ++ [c])%list n = alter (g ++ [c])%list (fun _ => None) n.
Proof. unfold delete. now destruct g. Qed.

Lemma unlink_went_through :
  run platform (Unlink (g ++ [c])%list) w = (None, w') ->
  lookup (g ++ [c])%list (root w') = None.
Proof.
  cbn [run]. unfold fails, done. rewrite delete_child. intros Hrun.
  destruct (lookup (g ++ [c])%list (root w)) as [[d|es]|];
    try discriminate Hrun.
  destruct (frozen w (g ++ [c])%list); [discriminate Hrun|].
  destruct (alter (g ++ [c])%list (fun _ => None) (root w)) as [r|] eqn:Hr;
    inversion Hrun; subst.
  cbn [root with_root]. now rewrite (lookup_alter_same _ _ _ _ _ Hr).
Qed.

Lemma rmtree_went_through :
  run platform (Rmtree (g ++ [c])%list) w = (None, w') ->
  lookup (g ++ [c])%list (root w') = None.
Proof.
  cbn [run]. unfold fails, done. rewrite delete_child. intros Hrun.
  destruct (lookup (g ++ [c])%list (root w)) as [[d|es]|];
    try discriminate Hrun.
  destruct (frozen w (g ++ [c])%list); [discriminate Hrun|].
  destruct (alter (g ++ [c])%list (fun _ => None) (root w)) as [r|] eqn:Hr;
    inversion Hrun; subst.
  cbn [root with_root]. now rewrite (lookup_alter_same _ _ _ _ _ Hr).
Qed.

Lemma copy2_went_through (src : path) (d : string) :
  run platform (Copy2 src (g ++ [c])%list) w = (None, w') ->
  lookup src (root w) = Some (File d) ->
  is_dir_ (g ++ [c])%list w = false ->
  lookup (g ++ [c])%list (root w') = Some (File d).
Proof.
  cbn [run]. intros Hrun Hsrc Hnodir. rewrite Hsrc in Hrun.
  unfold is_dir_ in Hnodir. unfold write_file, fails, done, put in Hrun.
  destruct (lookup (g ++ [c])%list (root w)) as [[d'|es]|] eqn:Hdst;
    try discriminate Hnodir;
    destruct (path_eqb src (g ++ [c])%list); try discriminate Hrun;
    destruct (frozen w (g ++ [c])%list); try discriminate Hrun;
    rewrite ?Hdst in Hrun;
    destruct (alter (g ++ [c])%list (fun _ => Some (File d)) (root w))
      as [r|] eqn:Hr; inversion Hrun; subst;
    cbn [root with_root]; now rewrite (lookup_alter_same _ _ _ _ _ Hr).
Qed.

Lemma copytree_went_through (src : path) es (ok : bool) :
  run platform (Copytree src (g ++ [c])%list ok) w = (None, w') ->
  lookup src (root w) = Some (Dir es) ->
  well_formed (Dir es) = true ->
  lookup (g ++ [c])%list (root w) = None ->
  lookup (g ++ [c])%list (root w') = Some (Dir es).
Proof.
  cbn [run]. intros Hrun Hsrc Hwf Hfree. rewrite Hsrc, Hfree in Hrun.
  destruct (frozen w (g ++ [c])%list); [discriminate Hrun|].
  unfold lay_over, parent, fails, done, put in Hrun.
  rewrite removelast_last in Hrun.
  destruct (makedirs g (root w)) as [r1|] eqn:Hmk; [|discriminate Hrun].
  rewrite (makedirs_apart _ _ _ _ Hmk (is_prefix_child_parent g c)),
    Hfree, (copy_over_fresh _ Hwf) in Hrun.
  destruct (alter (g ++ [c])%list (fun _ => Some (Dir es)) r1)
    as [r2|] eqn:Hr; inversion Hrun; subst.
  cbn [root with_root]. now rewrite (lookup_alter_same _ _ _ _ _ Hr).
Qed.

End WentThrough.

End Outcomes.


(** ** What a run spares *)

Section Spared.

Import Sim SimFacts Tree TreeFacts Frame Effects.

Variables (loads : string -> exn + json) (dumps : json -> string).
Variables (platform machine : string) (wd : path).

(** The in-memory world as the operating system of this section. *)
Local Abbreviation sim := (sim_os_with loads dumps platform machine wd).

(** What every call of a method spares is, after the method, as it was
    before. *)
Lemma unchanged_where_spared {A} (m : M world A) (qs : list path)
      (w : world) (q : path) :
  follows_its_trace sim m ->
  always (spares qs) m ->
  In q qs ->
  lookup q (root (final (m w))) = lookup q (root w).
Proof.
  intros Hfollows Hspares Hq. rewrite Hfollows. apply replay_apart.
  eapply Forall_impl; [|apply Hspares].
  intros ev Hev p Hp. exact (Hev p Hp q Hq).
Qed.

End Spared.

(** Settles that a single event spares the given paths. *)
Ltac spared_leaf :=
  solve [ unfold spares; cbn [written_paths In]; intros;
          repeat match goal with
                 | H : False |- _ => destruct H
                 | H : _ \/ _ |- _ => destruct H
                 end;
          subst; apart ].

Section Sparing.

Context {W : Type} (O : OS W) (self : automator).

Hypothesis Hnamed : game_path self <> [].

Lemma backup_spares_assets :
  always (spares [game_path self // "package.json"; game_path self // "www";
                  holding_area self])
         (backup_game O self).
Proof. always_walk spared_leaf. Qed.

Lemma setup_spares_assets :
  related (scratch_dir O) (game_path self) = false ->
  related (scratch_dir O) (holding_area self) = false ->
  always (spares [game_path self // "package.json"; game_path self // "www";
                  holding_area self])
         (setup_nwjs O self).
Proof.
  intros Hsg Hsh. always_walk spared_leaf.
  all: apply always_find_nwjs_dir; intros; spared_leaf.
Qed.

Lemma clean_spares_holding :
  always (spares [holding_area self // "package.json";
                  holding_area self // "www"])
         (clean_game_directory O self).
Proof.
  unfold clean_game_directory.
  apply always_bind; [always_walk spared_leaf|]. intros _.
  apply (always_bind_result _
           (fun items => exists names,
                items = map (child (game_path self)) names));
    [apply always_iterdir|intros w a; apply iterdir_children|].
  intros items [names ->].
  apply always_bind; [|intros; always_walk spared_leaf].
  apply always_for_each. intros item count Hitem.
  apply in_map_iff in Hitem. destruct Hitem as (n & <- & _).
  always_walk spared_leaf.
Qed.

Lemma copy_spares_holding (nwjs_dir : path) :
  always (spares [holding_area self // "package.json";
                  holding_area self // "www"])
         (copy_nwjs_to_game O self nwjs_dir).
Proof. always_walk spared_leaf. Qed.

Lemma candidate_is_no_asset (c : string) :
  In c (possible_executables O) -> c <> "package.json" /\ c <> "www".
Proof.
  unfold possible_executables.
  destruct (String.eqb (sys_platform O) "win32");
    [|destruct (String.eqb (sys_platform O) "darwin")];
    cbn [In]; intros [<-|[<-|[]]]; split; discriminate.
Qed.

Lemma rename_spares_assets :
  game_exe_name O self <> "package.json" ->
  game_exe_name O self <> "www" ->
  always (spares [game_path self // "package.json"; game_path self // "www"])
         (rename_executable O self).
Proof.
  intros Hm Hw. unfold rename_executable.
  apply always_bind; [always_walk spared_leaf|]. intros _.
  apply (always_bind_result _
           (fun found => forall p, found = Some p ->
                           exists c, c <> "package.json" /\ c <> "www"
                                     /\ p = game_path self // c)).
  - apply always_find_executable.
  - intros w found. rewrite find_executable_first. cbn [res].
    intros H p ->. inversion H as [H1].
    destruct (find _ _) as [c|] eqn:Hfind; [|discriminate H1].
    inversion H1. apply find_some in Hfind. destruct Hfind as [Hin _].
    destruct (candidate_is_no_asset c Hin). eauto.
  - intros [p|] Hp; [|always_walk spared_leaf].
    destruct (Hp p eq_refl) as (c & Hc1 & Hc2 & ->).
    always_walk spared_leaf.
Qed.

Lemma cleanup_spares_assets :
  always (spares [game_path self // "package.json"; game_path self // "www"])
         (cleanup_nwjs_files O self).
Proof.
  eapply always_weaken; [|apply cleanup_nwjs_files_tidies].
  intros [lvl msg|c r] H; [spared_leaf|].
  destruct c; cbn [tidies] in H; try contradiction.
  - destruct H as [(f & Hf & ->)|(x & _ & ->)]; [|spared_leaf].
    unfold cleanup_files in Hf. cbn [In] in Hf.
    repeat (destruct Hf as [<-|Hf]; [spared_leaf|]). contradiction.
  - destruct H as (f & Hf & ->).
    unfold cleanup_files in Hf. cbn [In] in Hf.
    repeat (destruct Hf as [<-|Hf]; [spared_leaf|]). contradiction.
Qed.

(** The steps of a run after the restore. *)
Lemma finish_spares_assets :
  related (scratch_dir O) (game_path self) = false ->
  game_exe_name O self <> "package.json" ->
  game_exe_name O self <> "www" ->
  always (spares [game_path self // "package.json"; game_path self // "www"])
         (game_exe <- rename_executable O self ;;
          cleanup_nwjs_files O self ;;
          match game_exe with
          | None =>
              raise (Exn FileNotFoundError "Could not create game executable")
          | Some game_exe =>
              (if is_win32 O
               then create_shortcut_windows O self game_exe ;; ret tt
               else ret tt) ;;
              cleanup_temp_files O ;;
              logger_info "🎉 NW.js update completed successfully!" ;;
              logger_info ("🚀 Launch the game using: " ++ path_str game_exe) ;;
              logger_info "💡 Type 'process.versions' in the game console to check your new NW.js version!" ;;
              ret (Success game_exe (game_path self))
          end).
Proof.
  intros Hsg Hm Hw.
  apply always_bind; [now apply rename_spares_assets|]. intros game_exe.
  apply always_bind; [apply cleanup_spares_assets|]. intros _.
  always_walk spared_leaf.
Qed.

End Sparing.


(** ** Steps that returned *)

Section Returned.

Context {W : Type} (O : OS W).

Lemma sys_returned (c : syscall) (w : W) (a : unit) :
  res (sys O c w) = inr a -> os_run O c w = (None, final (sys O c w)).
Proof.
  rewrite run_sys. cbn [res final].
  destruct (os_run O c w) as [[e|] w']; cbn [fst snd];
    [discriminate|reflexivity].
Qed.

Lemma sys_then_log_returned (c : syscall) (lvl : level) (msg : string)
      (w : W) (a : unit) :
  res ((sys O c ;; emit (Log lvl msg)) w) = inr a ->
  os_run O c w = (None, final ((sys O c ;; emit (Log lvl msg)) w)).
Proof.
  rewrite run_bind_sys.
  destruct (os_run O c w) as [[e|] w']; cbn [fst snd res final prepend emit];
    [discriminate|reflexivity].
Qed.

End Returned.

Section PutBack.

Import Sim SimFacts Tree TreeFacts Frame Effects Outcomes.

Variables (loads : string -> exn + json) (dumps : json -> string).
Variables (platform machine : string) (wd : path).

(** The in-memory world as the operating system of this section. *)
Local Abbreviation sim := (sim_os_with loads dumps platform machine wd).

(** The block that restores a file, when it returned: the saved file is
    in its place. *)
Lemma file_was_put_back (w : world) (src g : path) (c d msg : string)
      (a : unit) o :
  (present <- path_exists sim (g ++ [c])%list ;;
   (if present
    then sys sim (Unlink (g ++ [c])%list)
    else ret tt) ;;
   sys sim (Copy2 src (g ++ [c])%list) ;;
   logger_info msg) w = o ->
  res o = inr a ->
  lookup src (root w) = Some (File d) ->
  related (g ++ [c])%list src = false ->
  lookup (g ++ [c])%list (root (final o)) = Some (File d)
  /\ same_apart_from (g ++ [c])%list (root w) (root (final o)).
Proof.
  intros <- Hret Hsrc Hapart. unfold logger_info in *.
  erewrite bind_pure in Hret |- * by apply run_path_exists.
  cbn [os_exists sim_os_with] in Hret |- *.
  assert (Hcopy : forall w1 w2,
    run platform (Copy2 src (g ++ [c])%list) w1 = (None, w2) ->
    lookup (g ++ [c])%list (root w1) = None ->
    same_apart_from (g ++ [c])%list (root w) (root w1) ->
    lookup (g ++ [c])%list (root w2) = Some (File d)
    /\ same_apart_from (g ++ [c])%list (root w) (root w2)).
  { intros w1 w2 Hrun Hfree Hs1. split.
    - eapply copy2_went_through; [exact Hrun| |].
      + rewrite Hs1 by exact Hapart. exact Hsrc.
      + unfold is_dir_. now rewrite Hfree.
    - eapply same_apart_from_trans; [exact Hs1|].
      exact (call_apart _ _ _ _ _ Hrun eq_refl). }
  destruct (exists_ (g ++ [c])%list w) eqn:Hex.
  - apply bind_returned in Hret. destruct Hret as ([] & Hstep & Hret & ->).
    apply sys_returned in Hstep.
    apply sys_then_log_returned in Hret.
    cbn [os_run sim_os_with] in Hstep, Hret.
    eapply Hcopy; [exact Hret| |].
    + exact (unlink_went_through _ _ _ _ _ Hstep).
    + exact (call_apart _ _ _ _ _ Hstep eq_refl).
  - rewrite (bind_pure _ _ _ tt) in Hret |- * by reflexivity.
    apply sys_then_log_returned in Hret. cbn [os_run sim_os_with] in Hret.
    eapply Hcopy; [exact Hret| |apply same_apart_from_refl].
    unfold exists_ in Hex.
    now destruct (lookup (g ++ [c])%list (root w)).
Qed.

(** The block that restores a directory, when it returned: the saved tree
    is in its place. *)
Lemma directory_was_put_back (w : world) (src g : path) (c msg : string)
      es (a : unit) o :
  (present <- path_exists sim (g ++ [c])%list ;;
   (if present
    then sys sim (Rmtree (g ++ [c])%list)
    else ret tt) ;;
   sys sim (Copytree src (g ++ [c])%list false) ;;
   logger_info msg) w = o ->
  res o = inr a ->
  lookup src (root w) = Some (Dir es) ->
  well_formed (Dir es) = true ->
  related (g ++ [c])%list src = false ->
  lookup (g ++ [c])%list (root (final o)) = Some (Dir es)
  /\ same_apart_from (g ++ [c])%list (root w) (root (final o)).
Proof.
  intros <- Hret Hsrc Hwf Hapart. unfold logger_info in *.
  erewrite bind_pure in Hret |- * by apply run_path_exists.
  cbn [os_exists sim_os_with] in Hret |- *.
  assert (Hcopy : forall w1 w2,
    run platform (Copytree src (g ++ [c])%list false) w1 = (None, w2) ->
    lookup (g ++ [c])%list (root w1) = None ->
    same_apart_from (g ++ [c])%list (root w) (root w1) ->
    lookup (g ++ [c])%list (root w2) = Some (Dir es)
    /\ same_apart_from (g ++ [c])%list (root w) (root w2)).
  { intros w1 w2 Hrun Hfree Hs1. split.
    - eapply copytree_went_through; [exact Hrun| |exact Hwf|exact Hfree].
      rewrite Hs1 by exact Hapart. exact Hsrc.
    - eapply same_apart_from_trans; [exact Hs1|].
      exact (call_apart _ _ _ _ _ Hrun eq_refl). }
  destruct (exists_ (g ++ [c])%list w) eqn:Hex.
  - apply bind_returned in Hret. destruct Hret as ([] & Hstep & Hret & ->).
    apply sys_returned in Hstep.
    apply sys_then_log_returned in Hret.
    cbn [os_run sim_os_with] in Hstep, Hret.
    eapply Hcopy; [exact Hret| |].
    + exact (rmtree_went_through _ _ _ _ _ Hstep).
    + exact (call_apart _ _ _ _ _ Hstep eq_refl).
  - rewrite (bind_pure _ _ _ tt) in Hret |- * by reflexivity.
    apply sys_then_log_returned in Hret. cbn [os_run sim_os_with] in Hret.
    eapply Hcopy; [exact Hret| |apply same_apart_from_refl].
    unfold exists_ in Hex.
    now destruct (lookup (g ++ [c])%list (root w)).
Qed.

End PutBack.


(** ** The assets after a successful run *)

Section Assets.

Import Sim SimFacts Tree TreeFacts Frame Effects Outcomes.

Variables (loads : string -> exn + json) (dumps : json -> string).
Variables (platform machine : string) (wd : path) (self : automator).

(** The in-memory world as the operating system of this section. *)
Local Abbreviation sim := (sim_os_with loads dumps platform machine wd).

Hypothesis Hnamed : game_path self <> [].

(** When [save_important_files] returned, from a world without a holding
    area: the holding area holds the manifest and the assets as the target
    directory had them. *)
Lemma holding_area_was_filled (w : world) (m : string) wes (t : path) :
  lookup (game_path self // "package.json") (root w) = Some (File m) ->
  lookup (game_path self // "www") (root w) = Some (Dir wes) ->
  well_formed (Dir wes) = true ->
  lookup (holding_area self) (root w) = None ->
  res (save_important_files sim self w) = inr t ->
  let w' := final (save_important_files sim self w) in
  lookup (holding_area self // "package.json") (root w') = Some (File m)
  /\ lookup (holding_area self // "www") (root w') = Some (Dir wes).
Proof.
  intros Hm Hwww Hwf Hfree Hret. cbv zeta.
  match goal with
  | |- context [final ?o] => remember (final o) as w' eqn:Hfinal
  end.
  unfold save_important_files, logger_info, logger_warning, logger_error
    in Hret, Hfinal.
  rewrite run_bind_emit in Hret, Hfinal. cbn [res final prepend] in Hret, Hfinal.
  (* the holding area is made *)
  apply bind_returned in Hret. destruct Hret as ([] & Hrun1 & Hret & Hnext).
  rewrite Hnext in Hfinal. clear Hnext. cbv beta in Hret, Hfinal.
  apply sys_returned in Hrun1. cbn [os_run sim_os_with] in Hrun1.
  match type of Hrun1 with _ = (None, ?x) => set (w1 := x) in * end.
  assert (Hh1 : lookup (holding_area self) (root w1) = Some (Dir []))
    by exact (mkdir_went_through platform w w1 _ _ Hrun1 Hfree).
  assert (Hs1 : same_apart_from (holding_area self) (root w) (root w1))
    by exact (call_apart _ _ _ _ _ Hrun1 eq_refl).
  (* the manifest is copied *)
  erewrite bind_pure in Hret, Hfinal by apply run_path_exists.
  cbn [os_exists sim_os_with] in Hret, Hfinal.
  assert (Hm1 : lookup (game_path self // "package.json") (root w1)
                = Some (File m)).
  { rewrite Hs1 by apart. exact Hm. }
  assert (Hex1 : exists_ (game_path self // "package.json") w1 = true)
    by (unfold exists_; now rewrite Hm1).
  rewrite Hex1 in Hret, Hfinal.
  apply bind_returned in Hret. destruct Hret as ([] & Hrun2 & Hret & Hnext).
  rewrite Hnext in Hfinal. clear Hnext. cbv beta in Hret, Hfinal.
  apply sys_then_log_returned in Hrun2. cbn [os_run sim_os_with] in Hrun2.
  match type of Hrun2 with _ = (None, ?x) => set (w2 := x) in * end.
  assert (Hm2 : lookup (holding_area self // "package.json") (root w2)
                = Some (File m)).
  { refine (copy2_went_through platform w1 w2 _ _ _ m Hrun2 Hm1 _).
    unfold is_dir_.
    change (lookup (holding_area self ++ ["package.json"])%list (root w1))
      with (lookup (holding_area self ++ ["package.json"])%list (root w1)).
    now rewrite lookup_app, Hh1. }
  assert (Hs2 : same_apart_from (holding_area self // "package.json")
                                (root w1) (root w2))
    by exact (call_apart _ _ _ _ _ Hrun2 eq_refl).
  (* the assets are copied *)
  erewrite bind_pure in Hret, Hfinal by apply run_path_exists.
  cbn [os_exists sim_os_with] in Hret, Hfinal.
  assert (Hwww2 : lookup (game_path self // "www") (root w2)
                  = Some (Dir wes)).
  { rewrite Hs2, Hs1 by apart. exact Hwww. }
  assert (Hex2 : exists_ (game_path self // "www") w2 = true)
    by (unfold exists_; now rewrite Hwww2).
  rewrite Hex2 in Hret, Hfinal.
  apply bind_returned in Hret. destruct Hret as ([] & Hrun3 & Hret & Hnext).
  rewrite Hnext in Hfinal. clear Hnext. cbv beta in Hret, Hfinal.
  apply sys_then_log_returned in Hrun3. cbn [os_run sim_os_with] in Hrun3.
  match type of Hrun3 with _ = (None, ?x) => set (w3 := x) in * end.
  assert (Hwww3 : lookup (holding_area self // "www") (root w3)
                  = Some (Dir wes)).
  { refine (copytree_went_through platform w2 w3 _ _ _ wes true
              Hrun3 Hwww2 Hwf _).
    change (lookup (holding_area self // "www") (root w2) = None).
    rewrite Hs2 by apart. unfold child. now rewrite lookup_app, Hh1. }
  assert (Hm3 : lookup (holding_area self // "package.json") (root w3)
                = Some (File m)).
  { rewrite (call_apart _ _ _ _ _ Hrun3 eq_refl) by apart. exact Hm2. }
  (* what follows writes the entry point only *)
  subst w'.
  match goal with
  | |- context [final (?rest w3)] =>
      assert (Hfollows :
                follows_its_trace sim rest)
        by follows_walk;
      assert (Hspares :
                always (spares [holding_area self // "package.json";
                                holding_area self // "www"]) rest)
        by always_walk spared_leaf;
      rewrite !(unchanged_where_spared loads dumps platform machine wd rest _ w3 _
                  Hfollows Hspares) by (cbn [In]; auto)
  end.
  split; assumption.
Qed.

(** When [restore_important_files] returned, from a world in which the
    holding area holds a manifest with a usable name and a well-formed
    [www]: the target directory has both, exactly. *)
Lemma assets_were_put_back (w : world) (m : string) d v wes (a : unit) :
  let O := sim_os_with loads dumps platform machine wd in
  lookup (holding_area self // "package.json") (root w) = Some (File m) ->
  loads m = inr (JObject d) ->
  dict_get "name" d = Some v ->
  truthy v = true ->
  lookup (holding_area self // "www") (root w) = Some (Dir wes) ->
  well_formed (Dir wes) = true ->
  res (restore_important_files O self (holding_area self) w) = inr a ->
  let w' := final (restore_important_files O self (holding_area self) w) in
  lookup (game_path self // "package.json") (root w') = Some (File m)
  /\ lookup (game_path self // "www") (root w') = Some (Dir wes).
Proof.
  intros O Hm Hparse Hname Htruthy Hwww Hwf Hret. subst O. cbv zeta.
  match goal with
  | |- context [final ?o] => remember (final o) as w' eqn:Hfinal
  end.
  unfold restore_important_files in Hret, Hfinal.
  unfold logger_info at 1 in Hret. unfold logger_info at 1 in Hfinal.
  rewrite run_bind_emit in Hret, Hfinal. cbn [res final prepend] in Hret, Hfinal.
  (* the manifest *)
  erewrite bind_pure in Hret, Hfinal by apply run_path_exists.
  cbn [os_exists sim_os_with] in Hret, Hfinal.
  assert (Hex0 : exists_ (holding_area self // "package.json") w = true)
    by (unfold exists_; now rewrite Hm).
  rewrite Hex0 in Hret, Hfinal.
  apply bind_returned in Hret. destruct Hret as ([] & Hb1 & Hret & Hnext).
  rewrite Hnext in Hfinal. clear Hnext. cbv beta in Hret, Hfinal.
  match type of Hb1 with res (?b w) = _ => set (w1 := final (b w)) in * end.
  destruct (file_was_put_back loads dumps platform machine wd w
              (holding_area self // "package.json")
              (game_path self) "package.json" m _ tt _
              eq_refl Hb1 Hm ltac:(apart)) as [Hm1 Hs1].
  fold w1 in Hm1, Hs1.
  change (game_path self ++ ["package.json"])%list
    with (game_path self // "package.json") in Hm1, Hs1.
  (* the assets *)
  erewrite bind_pure in Hret, Hfinal by apply run_path_exists.
  cbn [os_exists sim_os_with] in Hret, Hfinal.
  assert (Hwww1 : lookup (holding_area self // "www") (root w1)
                  = Some (Dir wes)).
  { rewrite Hs1 by apart. exact Hwww. }
  assert (Hex1 : exists_ (holding_area self // "www") w1 = true)
    by (unfold exists_; now rewrite Hwww1).
  rewrite Hex1 in Hret, Hfinal.
  apply bind_returned in Hret. destruct Hret as ([] & Hb2 & Hret & Hnext).
  rewrite Hnext in Hfinal. clear Hnext. cbv beta in Hret, Hfinal.
  match type of Hb2 with res (?b w1) = _ => set (w2 := final (b w1)) in * end.
  destruct (directory_was_put_back loads dumps platform machine wd w1
              (holding_area self // "www")
              (game_path self) "www" _ wes tt _
              eq_refl Hb2 Hwww1 Hwf ltac:(apart)) as [Hwww2 Hs2].
  fold w2 in Hwww2, Hs2.
  change (game_path self ++ ["www"])%list
    with (game_path self // "www") in Hwww2, Hs2.
  assert (Hm2 : lookup (game_path self // "package.json") (root w2)
                = Some (File m)).
  { rewrite Hs2 by apart. exact Hm1. }
  (* the entry point *)
  erewrite bind_pure in Hret, Hfinal by apply run_path_exists.
  apply bind_returned in Hret. destruct Hret as ([] & Hb3 & Hret & Hnext).
  rewrite Hnext in Hfinal. clear Hnext. cbv beta in Hret, Hfinal.
  match type of Hb3 with
  | res (?b w2) = _ =>
      assert (Hfollows3 : follows_its_trace sim b)
        by follows_walk;
      assert (Hspares3 :
                always (spares [game_path self // "package.json";
                                game_path self // "www"]) b)
        by always_walk spared_leaf;
      pose proof (fun q Hq =>
                    unchanged_where_spared loads dumps platform machine wd b _ w2 q
                      Hfollows3 Hspares3 Hq) as Hs3;
      set (w3 := final (b w2)) in *
  end.
  assert (Hm3 : lookup (game_path self // "package.json") (root w3)
                = Some (File m)).
  { rewrite Hs3 by (cbn [In]; auto). exact Hm2. }
  assert (Hwww3 : lookup (game_path self // "www") (root w3)
                  = Some (Dir wes)).
  { rewrite Hs3 by (cbn [In]; auto). exact Hwww2. }
  (* the manifest is checked, the holding area removed *)
  erewrite bind_pure in Hret, Hfinal by apply run_path_exists.
  cbn [os_exists sim_os_with] in Hret, Hfinal.
  assert (Hex3 : exists_ (game_path self // "package.json") w3 = true)
    by (unfold exists_; now rewrite Hm3).
  rewrite Hex3 in Hret, Hfinal.
  assert (Hcheck :
    validate_and_fix_package_json sim self
      (game_path self // "package.json") w3
    = Outcome (inr tt) w3 [Log INFO "Validating package.json..."]).
  { apply (validate_and_fix_unchanged _ self _ w3 m d v);
      [|exact Hparse|exact Hname|exact Htruthy].
    cbn [os_read_text sim_os_with]. unfold read_text_. now rewrite Hm3. }
  rewrite (bind_ok _ _ _ _ _ _ Hcheck) in Hret, Hfinal.
  cbn [res final prepend] in Hret, Hfinal.
  subst w'.
  match goal with
  | |- context [final (?rest w3)] =>
      assert (Hfollows4 :
                follows_its_trace sim rest)
        by follows_walk;
      assert (Hspares4 :
                always (spares [game_path self // "package.json";
                                game_path self // "www"]) rest)
        by always_walk spared_leaf;
      rewrite !(unchanged_where_spared loads dumps platform machine wd rest _ w3 _
                  Hfollows4 Hspares4) by (cbn [In]; auto)
  end.
  split; assumption.
Qed.

End Assets.


Section KeptAssets.

Import Sim SimFacts Tree TreeFacts Frame Effects Outcomes.

Variables (loads : string -> exn + json) (dumps : json -> string).
Variables (platform machine : string) (wd : path) (self : automator).

(** The in-memory world as the operating system of this section. *)
Local Abbreviation sim := (sim_os_with loads dumps platform machine wd).

(** X30: on the in-memory filesystem, with any codec for the manifest,
    let the target directory have a name, no [..] in its path, a manifest
    that the codec reads as an object with a usable name, and a
    well-formed [www] tree; let no holding area be there at the start, let
    the scratch directory lie apart from the target directory and from
    the holding area; let the names that come from the caller (of the
    executable, of the shortcut, of the archive) each be one path
    component, and let the executable not be named like the manifest or
    like [www].  Then a
    run that reports success leaves the target directory with exactly the
    [www] tree and the manifest it started with, whatever the runtime
    directory contained, whatever was locked, and whether or not a backup
    was made. *)
Theorem successful_run_keeps_the_assets (create_backup : bool) (w : world)
        (m : string) d v wes (game_exe target : path) :
  let O := sim_os_with loads dumps platform machine wd in
  let game := game_path self in
  let o := process_game O self create_backup w in
  game <> [] ->
  without_dotdot game = true ->
  plain_names O self = true ->
  lookup (game // "package.json") (root w) = Some (File m) ->
  loads m = inr (JObject d) ->
  dict_get "name" d = Some v ->
  truthy v = true ->
  lookup (game // "www") (root w) = Some (Dir wes) ->
  well_formed (Dir wes) = true ->
  lookup (holding_area self) (root w) = None ->
  related (scratch_dir O) game = false ->
  related (scratch_dir O) (holding_area self) = false ->
  game_exe_name O self <> "package.json" ->
  game_exe_name O self <> "www" ->
  res o = inr (Success game_exe target) ->
  lookup (game // "www") (root (final o)) = Some (Dir wes)
  /\ lookup (game // "package.json") (root (final o)) = Some (File m).
Proof.
  intros O game o Hnamed _ _ Hm Hparse Hname Htruthy Hwww Hwf Hfree
         Hsg Hsh Hexe_m Hexe_w Hret.
  subst game o.
  remember (final (process_game O self create_backup w)) as w' eqn:Hfinal.
  unfold process_game, logger_info at 1 in Hret.
  unfold process_game, logger_info at 1 in Hfinal.
  rewrite run_bind_emit in Hret, Hfinal.
  cbn [res final prepend] in Hret, Hfinal.
  rewrite res_try_except in Hret. rewrite final_try_except in Hfinal.
  destruct (res (process_steps O self create_backup w)) as [e|r] eqn:Hsteps.
  { unfold logger_error in Hret. rewrite run_bind_emit in Hret.
    discriminate Hret. }
  clear Hret. unfold process_steps in Hsteps, Hfinal.
  (* the check of the target directory changes nothing *)
  destruct (lookup_child_parent _ _ _ _ Hm) as [ges Hgame].
  assert (Hvalid : exists t,
    validate_game_directory O self w = Outcome (inr tt) w t).
  { rewrite validate_game_directory_checked;
      try (cbn [os_exists O sim_os_with]; unfold exists_;
           first [now rewrite Hgame|now rewrite Hm|now rewrite Hwww]).
    erewrite bind_ok.
    2:{ apply try_ok.
        apply (validate_and_fix_unchanged _ self _ w m d v);
          [|exact Hparse|exact Hname|exact Htruthy].
        cbn [os_read_text O sim_os_with]. unfold read_text_. now rewrite Hm. }
    eexists. reflexivity. }
  destruct Hvalid as [t0 Hvalid].
  rewrite (bind_ok _ _ _ _ _ _ Hvalid) in Hsteps, Hfinal.
  cbn [res final prepend] in Hsteps, Hfinal.
  (* the backup and the runtime setup spare the assets *)
  apply bind_returned in Hsteps.
  destruct Hsteps as ([] & Hb & Hsteps & Hnext).
  rewrite Hnext in Hfinal. clear Hnext. cbv beta in Hsteps, Hfinal.
  match type of Hb with
  | res (?step w) = _ =>
      assert (Hfollows1 : follows_its_trace O step)
        by (destruct create_backup; follows_walk);
      assert (Hspares1 :
                always (spares [game_path self // "package.json";
                                game_path self // "www";
                                holding_area self]) step)
        by (destruct create_backup;
            [apply always_bind;
             [now apply backup_spares_assets|intros; apply always_ret]
            |apply always_ret]);
      pose proof (fun q Hq =>
                    unchanged_where_spared loads dumps platform machine wd step _ w q
                      Hfollows1 Hspares1 Hq) as Hs1;
      set (w1 := final (step w)) in *
  end.
  apply bind_returned in Hsteps.
  destruct Hsteps as (nwjs_dir & Hsetup & Hsteps & Hnext).
  rewrite Hnext in Hfinal. clear Hnext. cbv beta in Hsteps, Hfinal.
  assert (Hs2 : forall q,
    In q [game_path self // "package.json"; game_path self // "www";
          holding_area self] ->
    lookup q (root (final (setup_nwjs O self w1))) = lookup q (root w1)).
  { intros q Hq.
    apply (unchanged_where_spared loads dumps platform machine wd _
             [game_path self // "package.json"; game_path self // "www";
              holding_area self]);
      [follows_walk|now apply setup_spares_assets|exact Hq]. }
  set (w2 := final (setup_nwjs O self w1)) in *.
  (* the holding area is filled *)
  apply bind_returned in Hsteps.
  destruct Hsteps as (temp_dir & Hsave & Hsteps & Hnext).
  rewrite Hnext in Hfinal. clear Hnext. cbv beta in Hsteps, Hfinal.
  assert (Htemp : temp_dir = holding_area self).
  { pose proof (save_important_files_preserved O self w2) as H.
    rewrite Hsave in H. apply H. }
  subst temp_dir.
  destruct (holding_area_was_filled loads dumps platform machine wd self Hnamed
              w2 m wes (holding_area self)) as [Hhm Hhw];
    [rewrite Hs2, Hs1 by (cbn [In]; auto); exact Hm
    |rewrite Hs2, Hs1 by (cbn [In]; auto); exact Hwww
    |exact Hwf
    |rewrite Hs2, Hs1 by (cbn [In]; auto); exact Hfree
    |exact Hsave|].
  set (w3 := final (save_important_files O self w2)) in *.
  (* the wipe and the installation spare the holding area *)
  apply bind_returned in Hsteps.
  destruct Hsteps as ([] & Hclean & Hsteps & Hnext).
  rewrite Hnext in Hfinal. clear Hnext. cbv beta in Hsteps, Hfinal.
  assert (Hs4 : forall q,
    In q [holding_area self // "package.json"; holding_area self // "www"] ->
    lookup q (root (final (clean_game_directory O self w3)))
    = lookup q (root w3)).
  { intros q Hq.
    apply (unchanged_where_spared loads dumps platform machine wd _
             [holding_area self // "package.json";
              holding_area self // "www"]);
      [follows_walk|now apply clean_spares_holding|exact Hq]. }
  set (w4 := final (clean_game_directory O self w3)) in *.
  apply bind_returned in Hsteps.
  destruct Hsteps as ([] & Hcopy & Hsteps & Hnext).
  rewrite Hnext in Hfinal. clear Hnext. cbv beta in Hsteps, Hfinal.
  assert (Hs5 : forall q,
    In q [holding_area self // "package.json"; holding_area self // "www"] ->
    lookup q (root (final (copy_nwjs_to_game O self nwjs_dir w4)))
    = lookup q (root w4)).
  { intros q Hq.
    apply (unchanged_where_spared loads dumps platform machine wd _
             [holding_area self // "package.json";
              holding_area self // "www"]);
      [follows_walk|now apply copy_spares_holding|exact Hq]. }
  set (w5 := final (copy_nwjs_to_game O self nwjs_dir w4)) in *.
  (* the assets are put back *)
  apply bind_returned in Hsteps.
  destruct Hsteps as ([] & Hrestore & Hsteps & Hnext).
  rewrite Hnext in Hfinal. clear Hnext. cbv beta in Hsteps, Hfinal.
  destruct (assets_were_put_back loads dumps platform machine wd self Hnamed
              w5 m d v wes tt) as [Hm6 Hwww6];
    [rewrite Hs5, Hs4 by (cbn [In]; auto); exact Hhm
    |exact Hparse|exact Hname|exact Htruthy
    |rewrite Hs5, Hs4 by (cbn [In]; auto); exact Hhw
    |exact Hwf|exact Hrestore|].
  set (w6 := final (restore_important_files O self (holding_area self) w5))
    in *.
  (* what follows spares them *)
  subst w'.
  match goal with
  | |- context [final (?rest w6)] =>
      assert (Hfollows7 : follows_its_trace O rest) by follows_walk;
      assert (Hspares7 :
                always (spares [game_path self // "package.json";
                                game_path self // "www"]) rest)
        by (now apply finish_spares_assets);
      rewrite !(unchanged_where_spared loads dumps platform machine wd rest _ w6 _
                  Hfollows7 Hspares7) by (cbn [In]; auto)
  end.
  split; assumption.
Qed.

End KeptAssets.

(** ** The further properties on concrete worlds *)

Module Checks.

Import Sim Example Scenes Worlds.

(** Finds a given event in a computed trace. *)
Ltac find_event :=
  vm_compute; repeat first [ left; reflexivity | right ].

Lemma wipe_guarded_by_preserve_witness :
  let self := settings "Game" in
  let o := process_game linux self true fresh in
  exists t0 t0' t2,
    trace o
    = (t0 ++ preserve_verified self :: t0' ++ wipe_started :: t2)%list
    /\ holding_copies_exist linux self (replay linux t0 fresh).
Proof.
  cbv zeta.
  set (o := process_game linux (settings "Game") true fresh).
  assert (Heq : trace o
                = (firstn 18 (trace o) ++ wipe_started
                   :: skipn 19 (trace o))%list)
    by (vm_compute; reflexivity).
  destruct (proj1 (proj2 (proj2 (wipe_guarded_by_preserve
                                   linux (settings "Game") true fresh)))
              _ _ _ Heq (or_introl eq_refl))
    as (t0 & t0' & Ht1 & _ & Hcopies).
  exists t0, t0', (skipn 19 (trace o)).
  split; [|exact Hcopies].
  rewrite Heq at 1. rewrite Ht1, <- app_assoc. reflexivity.
Defined.


Lemma manifest_unreadable_or_malformed_witness :
  let e := Exn ValueError "Invalid JSON in package.json: Expecting value" in
  read_text_ (game // "package.json") garbled = inr "{"
  /\ validate_game_directory linux (settings "Game") garbled
     = Outcome (inl e) garbled
         [Log INFO "Validating package.json...";
          Log ERROR ("Failed to validate/fix package.json: " ++ exn_msg e)]
  /\ res (process_game linux (settings "Game") true garbled)
     = inr (Failure (exn_msg e))
  /\ final (process_game linux (settings "Game") true garbled) = garbled.
Proof.
  cbv zeta. split; [reflexivity|].
  destruct (manifest_unreadable_or_malformed
              linux (settings "Game") garbled
              (Exn JSONDecodeError "Expecting value")) as [_ Hrun].
  - right. exists "{". split; reflexivity.
  - destruct Hrun as [Hvalidate Hprocess]; try reflexivity.
    split; [exact Hvalidate|]. exact (Hprocess true).
Defined.

Lemma manifest_not_an_object_witness :
  Json.loads "[]" = inr (JArray [])
  /\ exists t,
      process_game linux (settings "Game") true listy
      = Outcome
          (inr (Failure "list indices must be integers or slices, not str"))
          listy t
      /\ Forall (fun ev => is_sys ev = false) t.
Proof.
  split; [reflexivity|].
  destruct (manifest_not_an_object linux (settings "Game") listy
              "[]" (JArray [])) as [_ Hrun];
    [reflexivity|reflexivity|discriminate|].
  apply Hrun; reflexivity.
Defined.

Lemma manifest_write_failure_witness :
  let e := Exn PermissionError "Permission denied: home/My Game/package.json" in
  res (process_game linux (settings "Game") true sealed_manifest)
  = inr (Failure (exn_msg e))
  /\ final (process_game linux (settings "Game") true sealed_manifest)
     = sealed_manifest
  /\ read_text_ (game // "package.json") sealed_manifest = inr "{}".
Proof.
  cbv zeta.
  destruct (manifest_write_failure linux (settings "Game")
              sealed_manifest sealed_manifest "{}" []
              (Exn PermissionError
                   "Permission denied: home/My Game/package.json"))
    as [_ Hrun]; try reflexivity.
  destruct (Hrun eq_refl eq_refl eq_refl true) as [Hres Hfinal].
  repeat split; assumption.
Defined.

Lemma manifest_name_repaired_witness :
  let o := validate_game_directory linux (settings "Game") fresh in
  let written := Json.dumps (JObject [("name", JString "my-game")]) in
  res o = inr tt
  /\ trace o
     = [Log INFO "Validating package.json...";
        Log INFO "  Fixed: Added missing 'name' field: my-game";
        Sys (WriteText (game // "package.json") written) None;
        Log INFO "✓ package.json fixes saved";
        Log INFO "✓ Valid RPG Maker MV game found at: home/My Game"]
  /\ read_text_ (game // "package.json") (final o) = inr written.
Proof.
  cbv zeta.
  destruct (manifest_name_repaired linux (settings "Game") fresh
              (final (validate_game_directory linux (settings "Game") fresh))
              "{}" [])
    as (Hrun & _); try reflexivity.
  rewrite Hrun. repeat split.
Defined.

Lemma failed_download_aborts_setup_witness :
  let e := Exn RequestException ("404 Client Error for url: " ++ runtime_url) in
  exists w1,
    setup_nwjs linux downloading fresh
    = Outcome (inl e) w1
        [Sys (Mkdir (home // "temp_nwjs")) None;
         Log INFO ("Downloading NW.js from: " ++ runtime_url);
         Log ERROR ("Failed to download NW.js: " ++ exn_msg e);
         Log ERROR ("Failed to setup NW.js: " ++ exn_msg e)]
    /\ iterdir_ (home // "temp_nwjs") w1 = inr [].
Proof.
  cbv zeta. eexists. split.
  - apply (failed_download_aborts_setup linux downloading fresh).
    + now left.
    + reflexivity.
    + reflexivity.
  - reflexivity.
Defined.

Lemma setup_nwjs_result_witness :
  let o := setup_nwjs linux downloading online in
  res o = inr (home // "temp_nwjs" // "nwjs-sdk-v0.49.2-linux-x64")
  /\ iterdir_ (home // "temp_nwjs") (final o)
     = inr ["nwjs-sdk-v0.49.2-linux-x64.tar.gz"; "README";
            "nwjs-sdk-v0.49.2-linux-x64"]
  /\ ((nwjs_path downloading
       = Some (home // "temp_nwjs" // "nwjs-sdk-v0.49.2-linux-x64")
       /\ exists_ (home // "temp_nwjs" // "nwjs-sdk-v0.49.2-linux-x64") online
          = true
       /\ final o = online)
      \/ exists c,
          home // "temp_nwjs" // "nwjs-sdk-v0.49.2-linux-x64"
          = scratch_dir linux // c
          /\ Py.contains "nwjs" (Py.lower c) = true
          /\ is_dir_ (home // "temp_nwjs" // "nwjs-sdk-v0.49.2-linux-x64")
                     (final o) = true).
Proof.
  cbv zeta. split; [vm_compute; reflexivity|].
  split; [vm_compute; reflexivity|].
  apply (proj2 (setup_nwjs_result linux downloading online)).
  vm_compute. reflexivity.
Defined.

Lemma save_important_files_postcondition_witness :
  let o := save_important_files linux (settings "Game") fresh in
  home // "temp_My Game_files" = holding_area (settings "Game")
  /\ exists_ (home // "temp_My Game_files" // "package.json") (final o) = true
  /\ exists_ (home // "temp_My Game_files" // "www") (final o) = true.
Proof.
  apply (save_important_files_postcondition linux (settings "Game") fresh).
  vm_compute. reflexivity.
Defined.

Lemma copy_nwjs_to_game_only_installs_witness :
  let o := copy_nwjs_to_game linux (settings "Game") runtime fresh in
  iterdir_ runtime fresh = inr ["nw"; "chromedriver"; "locales"]
  /\ Forall (installs linux (settings "Game") runtime) (trace o)
  /\ In (Sys (Copytree (runtime // "locales") (game // "locales") true) None)
        (trace o).
Proof.
  cbv zeta. split; [reflexivity|].
  split; [|find_event].
  apply (copy_nwjs_to_game_only_installs linux (settings "Game") runtime fresh).
Defined.


Lemma prune_locales_stops_at_first_failure_witness :
  let items := map (child (game // "locales")) ["en-US.pak"; "fr.pak"; "de.pak"] in
  let o := prune_locales linux items 1 untidy_locked in
  exists ended,
    res o = inr (1 + count_events removal_succeeded (trace o), ended)
    /\ ended = Some (Exn PermissionError
                         "Permission denied: home/My Game/locales/fr.pak")
    /\ exists_ (game // "locales" // "de.pak") (final o) = true.
Proof.
  cbv zeta.
  destruct (prune_locales_stops_at_first_failure
              linux
              (map (child (game // "locales")) ["en-US.pak"; "fr.pak"; "de.pak"])
              1 untidy_locked) as (ended & Hres & Hfast & _).
  exists ended. split; [exact Hres|].
  split; [|vm_compute; reflexivity].
  apply (Hfast [] (Unlink (game // "locales" // "fr.pak")) _ []).
  vm_compute. reflexivity.
Defined.


Lemma restore_important_files_confined_witness :
  let o := restore_important_files linux (settings "Game")
             (holding_area (settings "Game")) held in
  res o = inr tt
  /\ exists_ (holding_area (settings "Game")) (final o) = true.
Proof.
  cbv zeta. split; [|vm_compute; reflexivity].
  apply (proj2 (restore_important_files_confined
                  linux (settings "Game") held)
               (Some (Exn PermissionError
                          "Permission denied: home/temp_My Game_files"))).
  find_event.
Defined.

Lemma backup_and_holding_area_paths_witness :
  (is_prefix game (backup_path (settings "Game")) = false
   /\ is_prefix game (holding_area (settings "Game")) = false)
  /\ (is_prefix [] (backup_path here) = true
      /\ is_prefix [] (holding_area here) = true
      /\ parent (backup_path here) = []
      /\ parent (holding_area here) = []).
Proof.
  split.
  - apply (backup_and_holding_area_paths (settings "Game")). discriminate.
  - apply (backup_and_holding_area_paths here). reflexivity.
Defined.

Lemma executable_name_cleaned_witness :
  Cli.clean_executable_name "Game.EXE" = "Game"
  /\ Cli.clean_executable_name "Game.exe.exe" = "Game.exe"
  /\ game_exe_name (sim_os "win32" "AMD64" home) (settings "Game")
     = "Game.exe".
Proof.
  split; [|split].
  - apply (proj1 executable_name_cleaned "Game" ".EXE"). reflexivity.
  - apply (proj1 executable_name_cleaned "Game.exe" ".exe"). reflexivity.
  - apply (proj2 (proj2 executable_name_cleaned) _
                 (sim_os "win32" "AMD64" home) (settings "Game")
                 "Game" ".Exe"); reflexivity.
Defined.

Lemma failed_backup_aborts_run_witness :
  let o := process_game linux (settings "Game") true backup_refused in
  res o = inr (Failure "Permission denied: home/My Game_backup")
  /\ Forall (fun ev => is_removal ev = false) (trace o).
Proof.
  apply (failed_backup_aborts_run linux (settings "Game") true backup_refused
           (Exn PermissionError "Permission denied: home/My Game_backup")).
  find_event.
Defined.

Lemma platform_specific_calls_witness :
  Forall (fun ev => forall lnk target workdir description r,
              ev <> Sys (CreateShortcut lnk target workdir description) r)
         (trace (process_game linux (settings "Game") true fresh))
  /\ Forall (fun ev => forall p r, ev <> Sys (Chmod p) r)
            (trace (process_game (sim_os "win32" "AMD64" home)
                                 (settings "Game") true fresh)).
Proof.
  split.
  - apply (platform_specific_calls linux (settings "Game") true fresh).
    discriminate.
  - apply (platform_specific_calls (sim_os "win32" "AMD64" home)
             (settings "Game") true fresh).
    reflexivity.
Defined.

Lemma derived_game_name_charset_witness :
  derived_game_name (settings "Game") = "my-game"
  /\ String.length (derived_game_name (settings "Game"))
     = String.length "My Game"
  /\ Forall (fun c => c <> " "%char /\ ~ (65 <= nat_of_ascii c <= 90))
            (list_ascii_of_string (derived_game_name (settings "Game"))).
Proof.
  split; [reflexivity|].
  apply (derived_game_name_charset (settings "Game")). reflexivity.
Defined.

Lemma downloaded_archive_is_unpacked_witness :
  let archive := home // "temp_nwjs" // "nwjs-sdk-v0.49.2-linux-x64.tar.gz" in
  snd (get_nwjs_download_url linux downloading)
  = "nwjs-sdk-v0.49.2-linux-x64.tar.gz"
  /\ suffix archive = ".gz"
  /\ exists r rest,
      trace (extract_nwjs linux archive (home // "temp_nwjs") online)
      = Log INFO ("Extracting NW.js archive: " ++ path_str archive)
        :: Sys (ExtractTar archive (home // "temp_nwjs")) r :: rest.
Proof.
  cbv zeta. split; [reflexivity|].
  apply (downloaded_archive_is_unpacked linux downloading
           (home // "temp_nwjs") online).
Defined.

(** The world in which [setup_nwjs] has stored the archive. *)
Lemma extract_nwjs_first_runtime_directory_witness :
  let scratch := home // "temp_nwjs" in
  let stored :=
    final (download_nwjs linux downloading scratch
             (snd (run "linux" (Mkdir scratch) online))) in
  let o := extract_nwjs linux
             (scratch // "nwjs-sdk-v0.49.2-linux-x64.tar.gz") scratch stored in
  exists before c after,
    iterdir_ scratch (final o) = inr (before ++ c :: after)%list
    /\ scratch // "nwjs-sdk-v0.49.2-linux-x64" = scratch // c
    /\ is_dir_ (scratch // c) (final o) && Py.contains "nwjs" (Py.lower c)
       = true
    /\ forall b, In b before ->
                 is_dir_ (scratch // b) (final o)
                 && Py.contains "nwjs" (Py.lower b) = false.
Proof.
  exact (extract_nwjs_first_runtime_directory linux
           (home // "temp_nwjs" // "nwjs-sdk-v0.49.2-linux-x64.tar.gz")
           (home // "temp_nwjs")
           (final (download_nwjs linux downloading (home // "temp_nwjs")
                     (snd (run "linux" (Mkdir (home // "temp_nwjs")) online))))).
Defined.

Lemma detect_script_tags_fixed_order_witness :
  detect_script_tags linux (settings "Game") fresh
  = Outcome (inr [script_tag "js/plugins.js"; script_tag "js/main.js"])
            fresh []
  /\ detect_script_tags linux (settings "Game") bare_disk
     = Outcome (inr [script_tag "js/main.js"]) bare_disk [].
Proof.
  split.
  - apply (detect_script_tags_fixed_order linux (settings "Game") fresh).
  - apply (detect_script_tags_fixed_order linux (settings "Game") bare_disk).
Defined.



Lemma no_backup_requested_witness :
  Forall (fun ev =>
            ~ backup_copy (settings "Game") ev
            /\ ev <> Log INFO ("Creating backup: "
                               ++ path_str (backup_path (settings "Game")))
            /\ ev <> Log INFO ("Backup already exists: "
                               ++ path_str (backup_path (settings "Game"))))
         (trace (process_game linux (settings "Game") false fresh))
  /\ exists_ (backup_path (settings "Game"))
             (final (process_game linux (settings "Game") false fresh))
     = false.
Proof.
  split; [|vm_compute; reflexivity].
  apply (no_backup_requested linux (settings "Game") fresh).
Defined.


Lemma backup_is_a_faithful_copy_witness :
  let o := backup_game linux (settings "Game") fresh in
  res o = inr (home // "My Game_backup")
  /\ lookup (home // "My Game_backup") (root (final o))
     = lookup game (root fresh)
  /\ lookup runtime (root (final o)) = Some runtime_tree.
Proof.
  cbv zeta.
  edestruct (backup_is_a_faithful_copy "linux" "x86_64" home
               (settings "Game") fresh)
    as (Hres & Hcopy & _ & Hsame);
    [discriminate|reflexivity|reflexivity|reflexivity|reflexivity|].
  split; [exact Hres|]. split; [exact Hcopy|].
  refine (eq_trans (Hsame runtime _) _); reflexivity.
Defined.

Lemma save_is_a_faithful_copy_witness :
  let o := save_important_files linux (settings "Game") fresh in
  let holding := home // "temp_My Game_files" in
  res o = inr holding
  /\ lookup (holding // "package.json") (root (final o)) = Some (File "{}")
  /\ lookup (holding // "www") (root (final o)) = Some www
  /\ lookup (holding // "index.html") (root (final o)) = None
  /\ lookup game (root (final o)) = lookup game (root fresh).
Proof.
  cbv zeta.
  edestruct (save_is_a_faithful_copy "linux" "x86_64" home
               (settings "Game") fresh bare_manifest
               (match www with Dir es => es | File _ => [] end) None)
    as (Hres & Hm & Hw & Hi & Hg & _);
    [discriminate|reflexivity|reflexivity|reflexivity|reflexivity
    |reflexivity|reflexivity|].
  repeat split; assumption.
Defined.

Lemma restore_puts_back_what_was_saved_witness :
  let o := restore_important_files linux (settings "Game")
             (home // "temp_My Game_files") refilled in
  res o = inr tt
  /\ lookup (game // "package.json") (root (final o))
     = Some (File fixed_manifest)
  /\ lookup (game // "www") (root (final o)) = Some www
  /\ lookup (home // "temp_My Game_files") (root (final o)) = None
  /\ lookup (game // "nw") (root (final o)) = Some (File "NW").
Proof.
  cbv zeta.
  edestruct (restore_puts_back_what_was_saved Json.loads Json.dumps
               "linux" "x86_64" home
               (settings "Game") refilled fixed_manifest
               [("name", JString "my-game")] (JString "my-game")
               (match www with Dir es => es | File _ => [] end) None)
    as (Hres & Hm & Hw & _ & Hgone & Hrest);
    [discriminate|reflexivity|reflexivity|reflexivity|reflexivity|reflexivity
    |reflexivity|reflexivity|reflexivity|intros _ es; discriminate
    |reflexivity|reflexivity|reflexivity|reflexivity|reflexivity
    |reflexivity|].
  split; [exact Hres|]. split; [exact Hm|]. split; [exact Hw|].
  split; [exact Hgone|].
  refine (eq_trans (Hrest (game // "nw") _ _ _ _) _); reflexivity.
Defined.

Lemma run_changes_nothing_elsewhere_witness :
  lookup runtime
         (root (final (process_game linux (settings "Game") true
                                    chromedriver_refused)))
  = Some runtime_tree
  /\ exists error,
      res (process_game linux (settings "Game") true chromedriver_refused)
      = inr (Failure error).
Proof.
  split; [|eexists; vm_compute; reflexivity].
  refine (eq_trans
            (run_changes_nothing_elsewhere Json.loads Json.dumps
               "linux" "x86_64" home
               (settings "Game") true chromedriver_refused runtime
               _ _ _ _ _ _) _);
    reflexivity.
Defined.

Lemma successful_run_keeps_the_assets_witness :
  let o := process_game linux (settings "Game") true ready in
  lookup (game // "www") (root (final o)) = Some www
  /\ lookup (game // "package.json") (root (final o))
     = Some (File fixed_manifest).
Proof.
  cbv zeta.
  apply (successful_run_keeps_the_assets Json.loads Json.dumps
           "linux" "x86_64" home
           (settings "Game") true ready fixed_manifest
           [("name", JString "my-game")] (JString "my-game")
           (match www with Dir es => es | File _ => [] end)
           (game // "Game") game);
    first [ reflexivity | discriminate
          | vm_compute; reflexivity ].
Defined.

End Checks.
